(** * File Categorizer: scan-and-reconcile pipeline

    A shallow embedding of the core of the file categorizer
    (src/core/models.py, scanner.py, database.py, error_handler.py and the
    request validation of web/blueprints/api.py) together with the
    properties of its specification that can be settled on it.

    Conventions.
    - Python [str] is [string] (a sequence of 8-bit characters) with the
      ASCII case mapping. The classifier, which a claim takes over every
      path, is also given over strings of code points with the case
      mappings of [str] (module [Unicode]); on paths of 8-bit characters
      the two classifiers agree.
    - Python [int] is [Z]; [Optional[t]] is [option t].
    - A [pathlib.Path] is the list of its components ([parts]).
    - The [files] table is the list of its rows in rowid order.
    - [time.time()] and the file system are inputs of the operations. *)

From Stdlib Require Import List ZArith NArith String Ascii Bool Lia Arith.
From Stdlib Require Import Permutation Sorted.
Import ListNotations.

Local Open Scope string_scope.
Local Open Scope Z_scope.

(* ================================================================== *)
(** ** Strings *)

Module Str.

(** [c.lower()] for an ASCII character; any other character is left as
    it is. *)
Definition lower_ascii (c : ascii) : ascii :=
  let n := nat_of_ascii c in
  if ((65 <=? n) && (n <=? 90))%nat then ascii_of_nat (n + 32) else c.

Fixpoint map (f : ascii -> ascii) (s : string) : string :=
  match s with
  | EmptyString => EmptyString
  | String c s' => String (f c) (map f s')
  end.

(** [s.lower()] for a string of ASCII characters. On the other 8-bit
    characters [str.lower] does more (it takes [À] to [à]); they are
    left as they are here, which the classifier, the one caller, cannot
    tell: [UnicodeFacts.categorize_file_8bit]. *)
Definition lower (s : string) : string := map lower_ascii s.

Definition len (s : string) : Z := Z.of_nat (String.length s).

(** [s.rfind('.')]: index of the last dot, [-1] when there is none. *)
Fixpoint rfind_dot (s : string) : Z :=
  match s with
  | EmptyString => -1
  | String c s' =>
      let r := rfind_dot s' in
      if 0 <=? r then r + 1
      else if Ascii.eqb c "." then 0 else -1
  end.

Fixpoint drop (k : nat) (s : string) : string :=
  match k, s with
  | O, _ => s
  | S k', String _ s' => drop k' s'
  | S _, EmptyString => EmptyString
  end.

Fixpoint take (k : nat) (s : string) : string :=
  match k, s with
  | O, _ => EmptyString
  | S k', String c s' => String c (take k' s')
  | S _, EmptyString => EmptyString
  end.

(** [s[i:]] for [0 <= i]. *)
Definition slice_from (i : Z) (s : string) : string := drop (Z.to_nat i) s.

(** [s[:i]] for [0 <= i]. *)
Definition slice_to (i : Z) (s : string) : string := take (Z.to_nat i) s.

(** [s.startswith('.')]. *)
Definition startswith_dot (s : string) : bool :=
  match s with
  | String c _ => Ascii.eqb c "."
  | EmptyString => false
  end.

End Str.

(* ================================================================== *)
(** ** models.py *)

Module Models.

(** [class FileCategory(Enum)]. *)
Inductive FileCategory : Type := GRAPHICS | LIGHTBURN | VECTOR.

Definition FileCategory_eqb (a b : FileCategory) : bool :=
  match a, b with
  | GRAPHICS, GRAPHICS | LIGHTBURN, LIGHTBURN | VECTOR, VECTOR => true
  | _, _ => false
  end.

(** The enum's [value]. *)
Definition value (c : FileCategory) : string :=
  match c with
  | GRAPHICS => "graphics"
  | LIGHTBURN => "lightburn"
  | VECTOR => "vector"
  end.

(** [FileCategory.get_extensions()]: the dict literal, in source order. *)
Definition get_extensions : list (string * FileCategory) :=
  [ (".jpg", GRAPHICS); (".jpeg", GRAPHICS); (".png", GRAPHICS);
    (".gif", GRAPHICS); (".bmp", GRAPHICS); (".tiff", GRAPHICS);
    (".tif", GRAPHICS); (".webp", GRAPHICS); (".ico", GRAPHICS);
    (".lbrn", LIGHTBURN); (".lbrn2", LIGHTBURN);
    (".ai", VECTOR); (".svg", VECTOR); (".eps", VECTOR) ].

(** [d.get(k)] on a dict given by its items. *)
Fixpoint dict_get {V : Type} (d : list (string * V)) (k : string) : option V :=
  match d with
  | [] => None
  | (k', v) :: d' => if String.eqb k' k then Some v else dict_get d' k
  end.

(** A path is the list of its components; [name] is the last one. *)
Definition Path : Type := list string.

Definition name (p : Path) : string := List.last p "".

(** [PurePath.suffix] of a final component:
    [i = name.rfind('.')]; [name[i:]] when [0 < i < len(name) - 1],
    the empty string otherwise. *)
Definition suffix_of_name (n : string) : string :=
  let i := Str.rfind_dot n in
  if (0 <? i) && (i <? Str.len n - 1) then Str.slice_from i n else "".

Definition suffix (p : Path) : string := suffix_of_name (name p).

(** [FileCategory.categorize_file]. *)
Definition categorize_file (file_path : Path) : option FileCategory :=
  let extension := Str.lower (suffix file_path) in
  let extensions_map := get_extensions in
  dict_get extensions_map extension.

(** [PurePath.with_name]: the path with its final component replaced. *)
Definition with_name (p : Path) (n : string) : Path :=
  (List.removelast p ++ [n])%list.

(** [datetime] values are modelled by their POSIX time in microseconds. *)
Definition datetime : Type := Z.

(** [@dataclass FileRecord]. *)
Record FileRecord : Type := mkFileRecord {
  id : string;
  path : string;
  filename : string;
  category : FileCategory;
  size : Z;
  modified_date : datetime;
  scanned_date : datetime;
  exists_ : bool
}.

(** [@dataclass ScanOptions]. *)
Record ScanOptions : Type := mkScanOptions {
  recursive : bool;
  verbose : bool;
  max_depth : option Z;
  include_hidden : bool
}.

(** [@dataclass SearchCriteria]. *)
Record SearchCriteria : Type := mkSearchCriteria {
  query : option string;
  crit_category : option FileCategory;
  min_size : option Z;
  max_size : option Z;
  modified_after : option datetime;
  modified_before : option datetime;
  limit : option Z;
  offset : Z
}.

(** [@dataclass CleanupResult]. *)
Record CleanupResult : Type := mkCleanupResult {
  total_checked : Z;
  removed_count : Z;
  removed_files : list string;
  errors : list string;
  dry_run : bool
}.

End Models.

(* ================================================================== *)
(** ** Strings of code points and the case mappings of [str] *)

Module Unicode.
Import Models.
Local Open Scope N_scope.

(** A Python [str] in full is a sequence of code points. The strings of
    8-bit characters used in the rest of this development are the strings
    whose code points are below 256. *)
Definition ustring : Type := list N.

Definition of_string (s : string) : ustring :=
  List.map N_of_ascii (list_ascii_of_string s).

Fixpoint ustring_eqb (a b : ustring) : bool :=
  match a, b with
  | [], [] => true
  | x :: a', y :: b' => (x =? y) && ustring_eqb a' b'
  | _, _ => false
  end.

(** *** The case mappings, as CPython 3.11 has them (Unicode 14.0) *)

(** The tables hold, for each code point [c], what [chr(c).upper()] and
    [chr(c).lower()] are when they are not [chr(c)] itself. *)

(** The code points with an upper case of one code point, other than
    themselves, in runs: first, last, step, and the image of the first; the
    image moves with the code point. *)
Definition to_upper_runs : list (N * N * N * N) :=
  [(0x61, 0x7A, 1, 0x41); (0xB5, 0xB5, 1, 0x39C); (0xE0, 0xF6, 1, 0xC0);
    (0xF8, 0xFE, 1, 0xD8); (0xFF, 0xFF, 1, 0x178); (0x101, 0x12F, 2, 0x100);
    (0x131, 0x131, 1, 0x49); (0x133, 0x137, 2, 0x132);
    (0x13A, 0x148, 2, 0x139); (0x14B, 0x177, 2, 0x14A);
    (0x17A, 0x17E, 2, 0x179); (0x17F, 0x17F, 1, 0x53);
    (0x180, 0x180, 1, 0x243); (0x183, 0x185, 2, 0x182);
    (0x188, 0x188, 1, 0x187); (0x18C, 0x18C, 1, 0x18B);
    (0x192, 0x192, 1, 0x191); (0x195, 0x195, 1, 0x1F6);
    (0x199, 0x199, 1, 0x198); (0x19A, 0x19A, 1, 0x23D);
    (0x19E, 0x19E, 1, 0x220); (0x1A1, 0x1A5, 2, 0x1A0);
    (0x1A8, 0x1A8, 1, 0x1A7); (0x1AD, 0x1AD, 1, 0x1AC);
    (0x1B0, 0x1B0, 1, 0x1AF); (0x1B4, 0x1B6, 2, 0x1B3);
    (0x1B9, 0x1B9, 1, 0x1B8); (0x1BD, 0x1BD, 1, 0x1BC);
    (0x1BF, 0x1BF, 1, 0x1F7); (0x1C5, 0x1C5, 1, 0x1C4);
    (0x1C6, 0x1C6, 1, 0x1C4); (0x1C8, 0x1C8, 1, 0x1C7);
    (0x1C9, 0x1C9, 1, 0x1C7); (0x1CB, 0x1CB, 1, 0x1CA);
    (0x1CC, 0x1CC, 1, 0x1CA); (0x1CE, 0x1DC, 2, 0x1CD);
    (0x1DD, 0x1DD, 1, 0x18E); (0x1DF, 0x1EF, 2, 0x1DE);
    (0x1F2, 0x1F2, 1, 0x1F1); (0x1F3, 0x1F3, 1, 0x1F1);
    (0x1F5, 0x1F5, 1, 0x1F4); (0x1F9, 0x21F, 2, 0x1F8);
    (0x223, 0x233, 2, 0x222); (0x23C, 0x23C, 1, 0x23B);
    (0x23F, 0x240, 1, 0x2C7E); (0x242, 0x242, 1, 0x241);
    (0x247, 0x24F, 2, 0x246); (0x250, 0x250, 1, 0x2C6F);
    (0x251, 0x251, 1, 0x2C6D); (0x252, 0x252, 1, 0x2C70);
    (0x253, 0x253, 1, 0x181); (0x254, 0x254, 1, 0x186);
    (0x256, 0x257, 1, 0x189); (0x259, 0x259, 1, 0x18F);
    (0x25B, 0x25B, 1, 0x190); (0x25C, 0x25C, 1, 0xA7AB);
    (0x260, 0x260, 1, 0x193); (0x261, 0x261, 1, 0xA7AC);
    (0x263, 0x263, 1, 0x194); (0x265, 0x265, 1, 0xA78D);
    (0x266, 0x266, 1, 0xA7AA); (0x268, 0x268, 1, 0x197);
    (0x269, 0x269, 1, 0x196); (0x26A, 0x26A, 1, 0xA7AE);
    (0x26B, 0x26B, 1, 0x2C62); (0x26C, 0x26C, 1, 0xA7AD);
    (0x26F, 0x26F, 1, 0x19C); (0x271, 0x271, 1, 0x2C6E);
    (0x272, 0x272, 1, 0x19D); (0x275, 0x275, 1, 0x19F);
    (0x27D, 0x27D, 1, 0x2C64); (0x280, 0x280, 1, 0x1A6);
    (0x282, 0x282, 1, 0xA7C5); (0x283, 0x283, 1, 0x1A9);
    (0x287, 0x287, 1, 0xA7B1); (0x288, 0x288, 1, 0x1AE);
    (0x289, 0x289, 1, 0x244); (0x28A, 0x28B, 1, 0x1B1);
    (0x28C, 0x28C, 1, 0x245); (0x292, 0x292, 1, 0x1B7);
    (0x29D, 0x29D, 1, 0xA7B2); (0x29E, 0x29E, 1, 0xA7B0);
    (0x345, 0x345, 1, 0x399); (0x371, 0x373, 2, 0x370);
    (0x377, 0x377, 1, 0x376); (0x37B, 0x37D, 1, 0x3FD);
    (0x3AC, 0x3AC, 1, 0x386); (0x3AD, 0x3AF, 1, 0x388);
    (0x3B1, 0x3C1, 1, 0x391); (0x3C2, 0x3C2, 1, 0x3A3);
    (0x3C3, 0x3CB, 1, 0x3A3); (0x3CC, 0x3CC, 1, 0x38C);
    (0x3CD, 0x3CE, 1, 0x38E); (0x3D0, 0x3D0, 1, 0x392);
    (0x3D1, 0x3D1, 1, 0x398); (0x3D5, 0x3D5, 1, 0x3A6);
    (0x3D6, 0x3D6, 1, 0x3A0); (0x3D7, 0x3D7, 1, 0x3CF);
    (0x3D9, 0x3EF, 2, 0x3D8); (0x3F0, 0x3F0, 1, 0x39A);
    (0x3F1, 0x3F1, 1, 0x3A1); (0x3F2, 0x3F2, 1, 0x3F9);
    (0x3F3, 0x3F3, 1, 0x37F); (0x3F5, 0x3F5, 1, 0x395);
    (0x3F8, 0x3F8, 1, 0x3F7); (0x3FB, 0x3FB, 1, 0x3FA);
    (0x430, 0x44F, 1, 0x410); (0x450, 0x45F, 1, 0x400);
    (0x461, 0x481, 2, 0x460); (0x48B, 0x4BF, 2, 0x48A);
    (0x4C2, 0x4CE, 2, 0x4C1); (0x4CF, 0x4CF, 1, 0x4C0);
    (0x4D1, 0x52F, 2, 0x4D0); (0x561, 0x586, 1, 0x531);
    (0x10D0, 0x10FA, 1, 0x1C90); (0x10FD, 0x10FF, 1, 0x1CBD);
    (0x13F8, 0x13FD, 1, 0x13F0); (0x1C80, 0x1C80, 1, 0x412);
    (0x1C81, 0x1C81, 1, 0x414); (0x1C82, 0x1C82, 1, 0x41E);
    (0x1C83, 0x1C84, 1, 0x421); (0x1C85, 0x1C85, 1, 0x422);
    (0x1C86, 0x1C86, 1, 0x42A); (0x1C87, 0x1C87, 1, 0x462);
    (0x1C88, 0x1C88, 1, 0xA64A); (0x1D79, 0x1D79, 1, 0xA77D);
    (0x1D7D, 0x1D7D, 1, 0x2C63); (0x1D8E, 0x1D8E, 1, 0xA7C6);
    (0x1E01, 0x1E95, 2, 0x1E00); (0x1E9B, 0x1E9B, 1, 0x1E60);
    (0x1EA1, 0x1EFF, 2, 0x1EA0); (0x1F00, 0x1F07, 1, 0x1F08);
    (0x1F10, 0x1F15, 1, 0x1F18); (0x1F20, 0x1F27, 1, 0x1F28);
    (0x1F30, 0x1F37, 1, 0x1F38); (0x1F40, 0x1F45, 1, 0x1F48);
    (0x1F51, 0x1F57, 2, 0x1F59); (0x1F60, 0x1F67, 1, 0x1F68);
    (0x1F70, 0x1F71, 1, 0x1FBA); (0x1F72, 0x1F75, 1, 0x1FC8);
    (0x1F76, 0x1F77, 1, 0x1FDA); (0x1F78, 0x1F79, 1, 0x1FF8);
    (0x1F7A, 0x1F7B, 1, 0x1FEA); (0x1F7C, 0x1F7D, 1, 0x1FFA);
    (0x1FB0, 0x1FB1, 1, 0x1FB8); (0x1FBE, 0x1FBE, 1, 0x399);
    (0x1FD0, 0x1FD1, 1, 0x1FD8); (0x1FE0, 0x1FE1, 1, 0x1FE8);
    (0x1FE5, 0x1FE5, 1, 0x1FEC); (0x214E, 0x214E, 1, 0x2132);
    (0x2170, 0x217F, 1, 0x2160); (0x2184, 0x2184, 1, 0x2183);
    (0x24D0, 0x24E9, 1, 0x24B6); (0x2C30, 0x2C5F, 1, 0x2C00);
    (0x2C61, 0x2C61, 1, 0x2C60); (0x2C65, 0x2C65, 1, 0x23A);
    (0x2C66, 0x2C66, 1, 0x23E); (0x2C68, 0x2C6C, 2, 0x2C67);
    (0x2C73, 0x2C73, 1, 0x2C72); (0x2C76, 0x2C76, 1, 0x2C75);
    (0x2C81, 0x2CE3, 2, 0x2C80); (0x2CEC, 0x2CEE, 2, 0x2CEB);
    (0x2CF3, 0x2CF3, 1, 0x2CF2); (0x2D00, 0x2D25, 1, 0x10A0);
    (0x2D27, 0x2D27, 1, 0x10C7); (0x2D2D, 0x2D2D, 1, 0x10CD);
    (0xA641, 0xA66D, 2, 0xA640); (0xA681, 0xA69B, 2, 0xA680);
    (0xA723, 0xA72F, 2, 0xA722); (0xA733, 0xA76F, 2, 0xA732);
    (0xA77A, 0xA77C, 2, 0xA779); (0xA77F, 0xA787, 2, 0xA77E);
    (0xA78C, 0xA78C, 1, 0xA78B); (0xA791, 0xA793, 2, 0xA790);
    (0xA794, 0xA794, 1, 0xA7C4); (0xA797, 0xA7A9, 2, 0xA796);
    (0xA7B5, 0xA7C3, 2, 0xA7B4); (0xA7C8, 0xA7CA, 2, 0xA7C7);
    (0xA7D1, 0xA7D1, 1, 0xA7D0); (0xA7D7, 0xA7D9, 2, 0xA7D6);
    (0xA7F6, 0xA7F6, 1, 0xA7F5); (0xAB53, 0xAB53, 1, 0xA7B3);
    (0xAB70, 0xABBF, 1, 0x13A0); (0xFF41, 0xFF5A, 1, 0xFF21);
    (0x10428, 0x1044F, 1, 0x10400); (0x104D8, 0x104FB, 1, 0x104B0);
    (0x10597, 0x105A1, 1, 0x10570); (0x105A3, 0x105B1, 1, 0x1057C);
    (0x105B3, 0x105B9, 1, 0x1058C); (0x105BB, 0x105BC, 1, 0x10594);
    (0x10CC0, 0x10CF2, 1, 0x10C80); (0x118C0, 0x118DF, 1, 0x118A0);
    (0x16E60, 0x16E7F, 1, 0x16E40); (0x1E922, 0x1E943, 1, 0x1E900) ].

(** The code points with an upper case of several code points. *)
Definition to_upper_special : list (N * list N) :=
  [(0xDF, [0x53; 0x53]); (0x149, [0x2BC; 0x4E]); (0x1F0, [0x4A; 0x30C]);
    (0x390, [0x399; 0x308; 0x301]); (0x3B0, [0x3A5; 0x308; 0x301]);
    (0x587, [0x535; 0x552]); (0x1E96, [0x48; 0x331]);
    (0x1E97, [0x54; 0x308]); (0x1E98, [0x57; 0x30A]);
    (0x1E99, [0x59; 0x30A]); (0x1E9A, [0x41; 0x2BE]);
    (0x1F50, [0x3A5; 0x313]); (0x1F52, [0x3A5; 0x313; 0x300]);
    (0x1F54, [0x3A5; 0x313; 0x301]); (0x1F56, [0x3A5; 0x313; 0x342]);
    (0x1F80, [0x1F08; 0x399]); (0x1F81, [0x1F09; 0x399]);
    (0x1F82, [0x1F0A; 0x399]); (0x1F83, [0x1F0B; 0x399]);
    (0x1F84, [0x1F0C; 0x399]); (0x1F85, [0x1F0D; 0x399]);
    (0x1F86, [0x1F0E; 0x399]); (0x1F87, [0x1F0F; 0x399]);
    (0x1F88, [0x1F08; 0x399]); (0x1F89, [0x1F09; 0x399]);
    (0x1F8A, [0x1F0A; 0x399]); (0x1F8B, [0x1F0B; 0x399]);
    (0x1F8C, [0x1F0C; 0x399]); (0x1F8D, [0x1F0D; 0x399]);
    (0x1F8E, [0x1F0E; 0x399]); (0x1F8F, [0x1F0F; 0x399]);
    (0x1F90, [0x1F28; 0x399]); (0x1F91, [0x1F29; 0x399]);
    (0x1F92, [0x1F2A; 0x399]); (0x1F93, [0x1F2B; 0x399]);
    (0x1F94, [0x1F2C; 0x399]); (0x1F95, [0x1F2D; 0x399]);
    (0x1F96, [0x1F2E; 0x399]); (0x1F97, [0x1F2F; 0x399]);
    (0x1F98, [0x1F28; 0x399]); (0x1F99, [0x1F29; 0x399]);
    (0x1F9A, [0x1F2A; 0x399]); (0x1F9B, [0x1F2B; 0x399]);
    (0x1F9C, [0x1F2C; 0x399]); (0x1F9D, [0x1F2D; 0x399]);
    (0x1F9E, [0x1F2E; 0x399]); (0x1F9F, [0x1F2F; 0x399]);
    (0x1FA0, [0x1F68; 0x399]); (0x1FA1, [0x1F69; 0x399]);
    (0x1FA2, [0x1F6A; 0x399]); (0x1FA3, [0x1F6B; 0x399]);
    (0x1FA4, [0x1F6C; 0x399]); (0x1FA5, [0x1F6D; 0x399]);
    (0x1FA6, [0x1F6E; 0x399]); (0x1FA7, [0x1F6F; 0x399]);
    (0x1FA8, [0x1F68; 0x399]); (0x1FA9, [0x1F69; 0x399]);
    (0x1FAA, [0x1F6A; 0x399]); (0x1FAB, [0x1F6B; 0x399]);
    (0x1FAC, [0x1F6C; 0x399]); (0x1FAD, [0x1F6D; 0x399]);
    (0x1FAE, [0x1F6E; 0x399]); (0x1FAF, [0x1F6F; 0x399]);
    (0x1FB2, [0x1FBA; 0x399]); (0x1FB3, [0x391; 0x399]);
    (0x1FB4, [0x386; 0x399]); (0x1FB6, [0x391; 0x342]);
    (0x1FB7, [0x391; 0x342; 0x399]); (0x1FBC, [0x391; 0x399]);
    (0x1FC2, [0x1FCA; 0x399]); (0x1FC3, [0x397; 0x399]);
    (0x1FC4, [0x389; 0x399]); (0x1FC6, [0x397; 0x342]);
    (0x1FC7, [0x397; 0x342; 0x399]); (0x1FCC, [0x397; 0x399]);
    (0x1FD2, [0x399; 0x308; 0x300]); (0x1FD3, [0x399; 0x308; 0x301]);
    (0x1FD6, [0x399; 0x342]); (0x1FD7, [0x399; 0x308; 0x342]);
    (0x1FE2, [0x3A5; 0x308; 0x300]); (0x1FE3, [0x3A5; 0x308; 0x301]);
    (0x1FE4, [0x3A1; 0x313]); (0x1FE6, [0x3A5; 0x342]);
    (0x1FE7, [0x3A5; 0x308; 0x342]); (0x1FF2, [0x1FFA; 0x399]);
    (0x1FF3, [0x3A9; 0x399]); (0x1FF4, [0x38F; 0x399]);
    (0x1FF6, [0x3A9; 0x342]); (0x1FF7, [0x3A9; 0x342; 0x399]);
    (0x1FFC, [0x3A9; 0x399]); (0xFB00, [0x46; 0x46]); (0xFB01, [0x46; 0x49]);
    (0xFB02, [0x46; 0x4C]); (0xFB03, [0x46; 0x46; 0x49]);
    (0xFB04, [0x46; 0x46; 0x4C]); (0xFB05, [0x53; 0x54]);
    (0xFB06, [0x53; 0x54]); (0xFB13, [0x544; 0x546]);
    (0xFB14, [0x544; 0x535]); (0xFB15, [0x544; 0x53B]);
    (0xFB16, [0x54E; 0x546]); (0xFB17, [0x544; 0x53D]) ].

(** The same for the lower case. U+03A3 is listed with its image out of
    context; [lower] decides it by the context. *)
Definition to_lower_runs : list (N * N * N * N) :=
  [(0x41, 0x5A, 1, 0x61); (0xC0, 0xD6, 1, 0xE0); (0xD8, 0xDE, 1, 0xF8);
    (0x100, 0x12E, 2, 0x101); (0x132, 0x136, 2, 0x133);
    (0x139, 0x147, 2, 0x13A); (0x14A, 0x176, 2, 0x14B);
    (0x178, 0x178, 1, 0xFF); (0x179, 0x17D, 2, 0x17A);
    (0x181, 0x181, 1, 0x253); (0x182, 0x184, 2, 0x183);
    (0x186, 0x186, 1, 0x254); (0x187, 0x187, 1, 0x188);
    (0x189, 0x18A, 1, 0x256); (0x18B, 0x18B, 1, 0x18C);
    (0x18E, 0x18E, 1, 0x1DD); (0x18F, 0x18F, 1, 0x259);
    (0x190, 0x190, 1, 0x25B); (0x191, 0x191, 1, 0x192);
    (0x193, 0x193, 1, 0x260); (0x194, 0x194, 1, 0x263);
    (0x196, 0x196, 1, 0x269); (0x197, 0x197, 1, 0x268);
    (0x198, 0x198, 1, 0x199); (0x19C, 0x19C, 1, 0x26F);
    (0x19D, 0x19D, 1, 0x272); (0x19F, 0x19F, 1, 0x275);
    (0x1A0, 0x1A4, 2, 0x1A1); (0x1A6, 0x1A6, 1, 0x280);
    (0x1A7, 0x1A7, 1, 0x1A8); (0x1A9, 0x1A9, 1, 0x283);
    (0x1AC, 0x1AC, 1, 0x1AD); (0x1AE, 0x1AE, 1, 0x288);
    (0x1AF, 0x1AF, 1, 0x1B0); (0x1B1, 0x1B2, 1, 0x28A);
    (0x1B3, 0x1B5, 2, 0x1B4); (0x1B7, 0x1B7, 1, 0x292);
    (0x1B8, 0x1B8, 1, 0x1B9); (0x1BC, 0x1BC, 1, 0x1BD);
    (0x1C4, 0x1C4, 1, 0x1C6); (0x1C5, 0x1C5, 1, 0x1C6);
    (0x1C7, 0x1C7, 1, 0x1C9); (0x1C8, 0x1C8, 1, 0x1C9);
    (0x1CA, 0x1CA, 1, 0x1CC); (0x1CB, 0x1DB, 2, 0x1CC);
    (0x1DE, 0x1EE, 2, 0x1DF); (0x1F1, 0x1F1, 1, 0x1F3);
    (0x1F2, 0x1F4, 2, 0x1F3); (0x1F6, 0x1F6, 1, 0x195);
    (0x1F7, 0x1F7, 1, 0x1BF); (0x1F8, 0x21E, 2, 0x1F9);
    (0x220, 0x220, 1, 0x19E); (0x222, 0x232, 2, 0x223);
    (0x23A, 0x23A, 1, 0x2C65); (0x23B, 0x23B, 1, 0x23C);
    (0x23D, 0x23D, 1, 0x19A); (0x23E, 0x23E, 1, 0x2C66);
    (0x241, 0x241, 1, 0x242); (0x243, 0x243, 1, 0x180);
    (0x244, 0x244, 1, 0x289); (0x245, 0x245, 1, 0x28C);
    (0x246, 0x24E, 2, 0x247); (0x370, 0x372, 2, 0x371);
    (0x376, 0x376, 1, 0x377); (0x37F, 0x37F, 1, 0x3F3);
    (0x386, 0x386, 1, 0x3AC); (0x388, 0x38A, 1, 0x3AD);
    (0x38C, 0x38C, 1, 0x3CC); (0x38E, 0x38F, 1, 0x3CD);
    (0x391, 0x3A1, 1, 0x3B1); (0x3A3, 0x3AB, 1, 0x3C3);
    (0x3CF, 0x3CF, 1, 0x3D7); (0x3D8, 0x3EE, 2, 0x3D9);
    (0x3F4, 0x3F4, 1, 0x3B8); (0x3F7, 0x3F7, 1, 0x3F8);
    (0x3F9, 0x3F9, 1, 0x3F2); (0x3FA, 0x3FA, 1, 0x3FB);
    (0x3FD, 0x3FF, 1, 0x37B); (0x400, 0x40F, 1, 0x450);
    (0x410, 0x42F, 1, 0x430); (0x460, 0x480, 2, 0x461);
    (0x48A, 0x4BE, 2, 0x48B); (0x4C0, 0x4C0, 1, 0x4CF);
    (0x4C1, 0x4CD, 2, 0x4C2); (0x4D0, 0x52E, 2, 0x4D1);
    (0x531, 0x556, 1, 0x561); (0x10A0, 0x10C5, 1, 0x2D00);
    (0x10C7, 0x10C7, 1, 0x2D27); (0x10CD, 0x10CD, 1, 0x2D2D);
    (0x13A0, 0x13EF, 1, 0xAB70); (0x13F0, 0x13F5, 1, 0x13F8);
    (0x1C90, 0x1CBA, 1, 0x10D0); (0x1CBD, 0x1CBF, 1, 0x10FD);
    (0x1E00, 0x1E94, 2, 0x1E01); (0x1E9E, 0x1E9E, 1, 0xDF);
    (0x1EA0, 0x1EFE, 2, 0x1EA1); (0x1F08, 0x1F0F, 1, 0x1F00);
    (0x1F18, 0x1F1D, 1, 0x1F10); (0x1F28, 0x1F2F, 1, 0x1F20);
    (0x1F38, 0x1F3F, 1, 0x1F30); (0x1F48, 0x1F4D, 1, 0x1F40);
    (0x1F59, 0x1F5F, 2, 0x1F51); (0x1F68, 0x1F6F, 1, 0x1F60);
    (0x1F88, 0x1F8F, 1, 0x1F80); (0x1F98, 0x1F9F, 1, 0x1F90);
    (0x1FA8, 0x1FAF, 1, 0x1FA0); (0x1FB8, 0x1FB9, 1, 0x1FB0);
    (0x1FBA, 0x1FBB, 1, 0x1F70); (0x1FBC, 0x1FBC, 1, 0x1FB3);
    (0x1FC8, 0x1FCB, 1, 0x1F72); (0x1FCC, 0x1FCC, 1, 0x1FC3);
    (0x1FD8, 0x1FD9, 1, 0x1FD0); (0x1FDA, 0x1FDB, 1, 0x1F76);
    (0x1FE8, 0x1FE9, 1, 0x1FE0); (0x1FEA, 0x1FEB, 1, 0x1F7A);
    (0x1FEC, 0x1FEC, 1, 0x1FE5); (0x1FF8, 0x1FF9, 1, 0x1F78);
    (0x1FFA, 0x1FFB, 1, 0x1F7C); (0x1FFC, 0x1FFC, 1, 0x1FF3);
    (0x2126, 0x2126, 1, 0x3C9); (0x212A, 0x212A, 1, 0x6B);
    (0x212B, 0x212B, 1, 0xE5); (0x2132, 0x2132, 1, 0x214E);
    (0x2160, 0x216F, 1, 0x2170); (0x2183, 0x2183, 1, 0x2184);
    (0x24B6, 0x24CF, 1, 0x24D0); (0x2C00, 0x2C2F, 1, 0x2C30);
    (0x2C60, 0x2C60, 1, 0x2C61); (0x2C62, 0x2C62, 1, 0x26B);
    (0x2C63, 0x2C63, 1, 0x1D7D); (0x2C64, 0x2C64, 1, 0x27D);
    (0x2C67, 0x2C6B, 2, 0x2C68); (0x2C6D, 0x2C6D, 1, 0x251);
    (0x2C6E, 0x2C6E, 1, 0x271); (0x2C6F, 0x2C6F, 1, 0x250);
    (0x2C70, 0x2C70, 1, 0x252); (0x2C72, 0x2C72, 1, 0x2C73);
    (0x2C75, 0x2C75, 1, 0x2C76); (0x2C7E, 0x2C7F, 1, 0x23F);
    (0x2C80, 0x2CE2, 2, 0x2C81); (0x2CEB, 0x2CED, 2, 0x2CEC);
    (0x2CF2, 0x2CF2, 1, 0x2CF3); (0xA640, 0xA66C, 2, 0xA641);
    (0xA680, 0xA69A, 2, 0xA681); (0xA722, 0xA72E, 2, 0xA723);
    (0xA732, 0xA76E, 2, 0xA733); (0xA779, 0xA77B, 2, 0xA77A);
    (0xA77D, 0xA77D, 1, 0x1D79); (0xA77E, 0xA786, 2, 0xA77F);
    (0xA78B, 0xA78B, 1, 0xA78C); (0xA78D, 0xA78D, 1, 0x265);
    (0xA790, 0xA792, 2, 0xA791); (0xA796, 0xA7A8, 2, 0xA797);
    (0xA7AA, 0xA7AA, 1, 0x266); (0xA7AB, 0xA7AB, 1, 0x25C);
    (0xA7AC, 0xA7AC, 1, 0x261); (0xA7AD, 0xA7AD, 1, 0x26C);
    (0xA7AE, 0xA7AE, 1, 0x26A); (0xA7B0, 0xA7B0, 1, 0x29E);
    (0xA7B1, 0xA7B1, 1, 0x287); (0xA7B2, 0xA7B2, 1, 0x29D);
    (0xA7B3, 0xA7B3, 1, 0xAB53); (0xA7B4, 0xA7C2, 2, 0xA7B5);
    (0xA7C4, 0xA7C4, 1, 0xA794); (0xA7C5, 0xA7C5, 1, 0x282);
    (0xA7C6, 0xA7C6, 1, 0x1D8E); (0xA7C7, 0xA7C9, 2, 0xA7C8);
    (0xA7D0, 0xA7D0, 1, 0xA7D1); (0xA7D6, 0xA7D8, 2, 0xA7D7);
    (0xA7F5, 0xA7F5, 1, 0xA7F6); (0xFF21, 0xFF3A, 1, 0xFF41);
    (0x10400, 0x10427, 1, 0x10428); (0x104B0, 0x104D3, 1, 0x104D8);
    (0x10570, 0x1057A, 1, 0x10597); (0x1057C, 0x1058A, 1, 0x105A3);
    (0x1058C, 0x10592, 1, 0x105B3); (0x10594, 0x10595, 1, 0x105BB);
    (0x10C80, 0x10CB2, 1, 0x10CC0); (0x118A0, 0x118BF, 1, 0x118C0);
    (0x16E40, 0x16E5F, 1, 0x16E60); (0x1E900, 0x1E921, 1, 0x1E922) ].

(** The code point with a lower case of several code points. *)
Definition to_lower_special : list (N * list N) :=
  [(0x130, [0x69; 0x307]) ].

(** The code points that the context of a sigma skips
    ([_PyUnicode_IsCaseIgnorable]), as intervals. *)
Definition case_ignorable_runs : list (N * N) :=
  [(0x27, 0x27); (0x2E, 0x2E); (0x3A, 0x3A); (0x5E, 0x5E); (0x60, 0x60);
    (0xA8, 0xA8); (0xAD, 0xAD); (0xAF, 0xAF); (0xB4, 0xB4); (0xB7, 0xB8);
    (0x2B0, 0x36F); (0x374, 0x375); (0x37A, 0x37A); (0x384, 0x385);
    (0x387, 0x387); (0x483, 0x489); (0x559, 0x559); (0x55F, 0x55F);
    (0x591, 0x5BD); (0x5BF, 0x5BF); (0x5C1, 0x5C2); (0x5C4, 0x5C5);
    (0x5C7, 0x5C7); (0x5F4, 0x5F4); (0x600, 0x605); (0x610, 0x61A);
    (0x61C, 0x61C); (0x640, 0x640); (0x64B, 0x65F); (0x670, 0x670);
    (0x6D6, 0x6DD); (0x6DF, 0x6E8); (0x6EA, 0x6ED); (0x70F, 0x70F);
    (0x711, 0x711); (0x730, 0x74A); (0x7A6, 0x7B0); (0x7EB, 0x7F5);
    (0x7FA, 0x7FA); (0x7FD, 0x7FD); (0x816, 0x82D); (0x859, 0x85B);
    (0x888, 0x888); (0x890, 0x891); (0x898, 0x89F); (0x8C9, 0x902);
    (0x93A, 0x93A); (0x93C, 0x93C); (0x941, 0x948); (0x94D, 0x94D);
    (0x951, 0x957); (0x962, 0x963); (0x971, 0x971); (0x981, 0x981);
    (0x9BC, 0x9BC); (0x9C1, 0x9C4); (0x9CD, 0x9CD); (0x9E2, 0x9E3);
    (0x9FE, 0x9FE); (0xA01, 0xA02); (0xA3C, 0xA3C); (0xA41, 0xA42);
    (0xA47, 0xA48); (0xA4B, 0xA4D); (0xA51, 0xA51); (0xA70, 0xA71);
    (0xA75, 0xA75); (0xA81, 0xA82); (0xABC, 0xABC); (0xAC1, 0xAC5);
    (0xAC7, 0xAC8); (0xACD, 0xACD); (0xAE2, 0xAE3); (0xAFA, 0xAFF);
    (0xB01, 0xB01); (0xB3C, 0xB3C); (0xB3F, 0xB3F); (0xB41, 0xB44);
    (0xB4D, 0xB4D); (0xB55, 0xB56); (0xB62, 0xB63); (0xB82, 0xB82);
    (0xBC0, 0xBC0); (0xBCD, 0xBCD); (0xC00, 0xC00); (0xC04, 0xC04);
    (0xC3C, 0xC3C); (0xC3E, 0xC40); (0xC46, 0xC48); (0xC4A, 0xC4D);
    (0xC55, 0xC56); (0xC62, 0xC63); (0xC81, 0xC81); (0xCBC, 0xCBC);
    (0xCBF, 0xCBF); (0xCC6, 0xCC6); (0xCCC, 0xCCD); (0xCE2, 0xCE3);
    (0xD00, 0xD01); (0xD3B, 0xD3C); (0xD41, 0xD44); (0xD4D, 0xD4D);
    (0xD62, 0xD63); (0xD81, 0xD81); (0xDCA, 0xDCA); (0xDD2, 0xDD4);
    (0xDD6, 0xDD6); (0xE31, 0xE31); (0xE34, 0xE3A); (0xE46, 0xE4E);
    (0xEB1, 0xEB1); (0xEB4, 0xEBC); (0xEC6, 0xEC6); (0xEC8, 0xECD);
    (0xF18, 0xF19); (0xF35, 0xF35); (0xF37, 0xF37); (0xF39, 0xF39);
    (0xF71, 0xF7E); (0xF80, 0xF84); (0xF86, 0xF87); (0xF8D, 0xF97);
    (0xF99, 0xFBC); (0xFC6, 0xFC6); (0x102D, 0x1030); (0x1032, 0x1037);
    (0x1039, 0x103A); (0x103D, 0x103E); (0x1058, 0x1059); (0x105E, 0x1060);
    (0x1071, 0x1074); (0x1082, 0x1082); (0x1085, 0x1086); (0x108D, 0x108D);
    (0x109D, 0x109D); (0x10FC, 0x10FC); (0x135D, 0x135F); (0x1712, 0x1714);
    (0x1732, 0x1733); (0x1752, 0x1753); (0x1772, 0x1773); (0x17B4, 0x17B5);
    (0x17B7, 0x17BD); (0x17C6, 0x17C6); (0x17C9, 0x17D3); (0x17D7, 0x17D7);
    (0x17DD, 0x17DD); (0x180B, 0x180F); (0x1843, 0x1843); (0x1885, 0x1886);
    (0x18A9, 0x18A9); (0x1920, 0x1922); (0x1927, 0x1928); (0x1932, 0x1932);
    (0x1939, 0x193B); (0x1A17, 0x1A18); (0x1A1B, 0x1A1B); (0x1A56, 0x1A56);
    (0x1A58, 0x1A5E); (0x1A60, 0x1A60); (0x1A62, 0x1A62); (0x1A65, 0x1A6C);
    (0x1A73, 0x1A7C); (0x1A7F, 0x1A7F); (0x1AA7, 0x1AA7); (0x1AB0, 0x1ACE);
    (0x1B00, 0x1B03); (0x1B34, 0x1B34); (0x1B36, 0x1B3A); (0x1B3C, 0x1B3C);
    (0x1B42, 0x1B42); (0x1B6B, 0x1B73); (0x1B80, 0x1B81); (0x1BA2, 0x1BA5);
    (0x1BA8, 0x1BA9); (0x1BAB, 0x1BAD); (0x1BE6, 0x1BE6); (0x1BE8, 0x1BE9);
    (0x1BED, 0x1BED); (0x1BEF, 0x1BF1); (0x1C2C, 0x1C33); (0x1C36, 0x1C37);
    (0x1C78, 0x1C7D); (0x1CD0, 0x1CD2); (0x1CD4, 0x1CE0); (0x1CE2, 0x1CE8);
    (0x1CED, 0x1CED); (0x1CF4, 0x1CF4); (0x1CF8, 0x1CF9); (0x1D2C, 0x1D6A);
    (0x1D78, 0x1D78); (0x1D9B, 0x1DFF); (0x1FBD, 0x1FBD); (0x1FBF, 0x1FC1);
    (0x1FCD, 0x1FCF); (0x1FDD, 0x1FDF); (0x1FED, 0x1FEF); (0x1FFD, 0x1FFE);
    (0x200B, 0x200F); (0x2018, 0x2019); (0x2024, 0x2024); (0x2027, 0x2027);
    (0x202A, 0x202E); (0x2060, 0x2064); (0x2066, 0x206F); (0x2071, 0x2071);
    (0x207F, 0x207F); (0x2090, 0x209C); (0x20D0, 0x20F0); (0x2C7C, 0x2C7D);
    (0x2CEF, 0x2CF1); (0x2D6F, 0x2D6F); (0x2D7F, 0x2D7F); (0x2DE0, 0x2DFF);
    (0x2E2F, 0x2E2F); (0x3005, 0x3005); (0x302A, 0x302D); (0x3031, 0x3035);
    (0x303B, 0x303B); (0x3099, 0x309E); (0x30FC, 0x30FE); (0xA015, 0xA015);
    (0xA4F8, 0xA4FD); (0xA60C, 0xA60C); (0xA66F, 0xA672); (0xA674, 0xA67D);
    (0xA67F, 0xA67F); (0xA69C, 0xA69F); (0xA6F0, 0xA6F1); (0xA700, 0xA721);
    (0xA770, 0xA770); (0xA788, 0xA78A); (0xA7F2, 0xA7F4); (0xA7F8, 0xA7F9);
    (0xA802, 0xA802); (0xA806, 0xA806); (0xA80B, 0xA80B); (0xA825, 0xA826);
    (0xA82C, 0xA82C); (0xA8C4, 0xA8C5); (0xA8E0, 0xA8F1); (0xA8FF, 0xA8FF);
    (0xA926, 0xA92D); (0xA947, 0xA951); (0xA980, 0xA982); (0xA9B3, 0xA9B3);
    (0xA9B6, 0xA9B9); (0xA9BC, 0xA9BD); (0xA9CF, 0xA9CF); (0xA9E5, 0xA9E6);
    (0xAA29, 0xAA2E); (0xAA31, 0xAA32); (0xAA35, 0xAA36); (0xAA43, 0xAA43);
    (0xAA4C, 0xAA4C); (0xAA70, 0xAA70); (0xAA7C, 0xAA7C); (0xAAB0, 0xAAB0);
    (0xAAB2, 0xAAB4); (0xAAB7, 0xAAB8); (0xAABE, 0xAABF); (0xAAC1, 0xAAC1);
    (0xAADD, 0xAADD); (0xAAEC, 0xAAED); (0xAAF3, 0xAAF4); (0xAAF6, 0xAAF6);
    (0xAB5B, 0xAB5F); (0xAB69, 0xAB6B); (0xABE5, 0xABE5); (0xABE8, 0xABE8);
    (0xABED, 0xABED); (0xFB1E, 0xFB1E); (0xFBB2, 0xFBC2); (0xFE00, 0xFE0F);
    (0xFE13, 0xFE13); (0xFE20, 0xFE2F); (0xFE52, 0xFE52); (0xFE55, 0xFE55);
    (0xFEFF, 0xFEFF); (0xFF07, 0xFF07); (0xFF0E, 0xFF0E); (0xFF1A, 0xFF1A);
    (0xFF3E, 0xFF3E); (0xFF40, 0xFF40); (0xFF70, 0xFF70); (0xFF9E, 0xFF9F);
    (0xFFE3, 0xFFE3); (0xFFF9, 0xFFFB); (0x101FD, 0x101FD);
    (0x102E0, 0x102E0); (0x10376, 0x1037A); (0x10780, 0x10785);
    (0x10787, 0x107B0); (0x107B2, 0x107BA); (0x10A01, 0x10A03);
    (0x10A05, 0x10A06); (0x10A0C, 0x10A0F); (0x10A38, 0x10A3A);
    (0x10A3F, 0x10A3F); (0x10AE5, 0x10AE6); (0x10D24, 0x10D27);
    (0x10EAB, 0x10EAC); (0x10F46, 0x10F50); (0x10F82, 0x10F85);
    (0x11001, 0x11001); (0x11038, 0x11046); (0x11070, 0x11070);
    (0x11073, 0x11074); (0x1107F, 0x11081); (0x110B3, 0x110B6);
    (0x110B9, 0x110BA); (0x110BD, 0x110BD); (0x110C2, 0x110C2);
    (0x110CD, 0x110CD); (0x11100, 0x11102); (0x11127, 0x1112B);
    (0x1112D, 0x11134); (0x11173, 0x11173); (0x11180, 0x11181);
    (0x111B6, 0x111BE); (0x111C9, 0x111CC); (0x111CF, 0x111CF);
    (0x1122F, 0x11231); (0x11234, 0x11234); (0x11236, 0x11237);
    (0x1123E, 0x1123E); (0x112DF, 0x112DF); (0x112E3, 0x112EA);
    (0x11300, 0x11301); (0x1133B, 0x1133C); (0x11340, 0x11340);
    (0x11366, 0x1136C); (0x11370, 0x11374); (0x11438, 0x1143F);
    (0x11442, 0x11444); (0x11446, 0x11446); (0x1145E, 0x1145E);
    (0x114B3, 0x114B8); (0x114BA, 0x114BA); (0x114BF, 0x114C0);
    (0x114C2, 0x114C3); (0x115B2, 0x115B5); (0x115BC, 0x115BD);
    (0x115BF, 0x115C0); (0x115DC, 0x115DD); (0x11633, 0x1163A);
    (0x1163D, 0x1163D); (0x1163F, 0x11640); (0x116AB, 0x116AB);
    (0x116AD, 0x116AD); (0x116B0, 0x116B5); (0x116B7, 0x116B7);
    (0x1171D, 0x1171F); (0x11722, 0x11725); (0x11727, 0x1172B);
    (0x1182F, 0x11837); (0x11839, 0x1183A); (0x1193B, 0x1193C);
    (0x1193E, 0x1193E); (0x11943, 0x11943); (0x119D4, 0x119D7);
    (0x119DA, 0x119DB); (0x119E0, 0x119E0); (0x11A01, 0x11A0A);
    (0x11A33, 0x11A38); (0x11A3B, 0x11A3E); (0x11A47, 0x11A47);
    (0x11A51, 0x11A56); (0x11A59, 0x11A5B); (0x11A8A, 0x11A96);
    (0x11A98, 0x11A99); (0x11C30, 0x11C36); (0x11C38, 0x11C3D);
    (0x11C3F, 0x11C3F); (0x11C92, 0x11CA7); (0x11CAA, 0x11CB0);
    (0x11CB2, 0x11CB3); (0x11CB5, 0x11CB6); (0x11D31, 0x11D36);
    (0x11D3A, 0x11D3A); (0x11D3C, 0x11D3D); (0x11D3F, 0x11D45);
    (0x11D47, 0x11D47); (0x11D90, 0x11D91); (0x11D95, 0x11D95);
    (0x11D97, 0x11D97); (0x11EF3, 0x11EF4); (0x13430, 0x13438);
    (0x16AF0, 0x16AF4); (0x16B30, 0x16B36); (0x16B40, 0x16B43);
    (0x16F4F, 0x16F4F); (0x16F8F, 0x16F9F); (0x16FE0, 0x16FE1);
    (0x16FE3, 0x16FE4); (0x1AFF0, 0x1AFF3); (0x1AFF5, 0x1AFFB);
    (0x1AFFD, 0x1AFFE); (0x1BC9D, 0x1BC9E); (0x1BCA0, 0x1BCA3);
    (0x1CF00, 0x1CF2D); (0x1CF30, 0x1CF46); (0x1D167, 0x1D169);
    (0x1D173, 0x1D182); (0x1D185, 0x1D18B); (0x1D1AA, 0x1D1AD);
    (0x1D242, 0x1D244); (0x1DA00, 0x1DA36); (0x1DA3B, 0x1DA6C);
    (0x1DA75, 0x1DA75); (0x1DA84, 0x1DA84); (0x1DA9B, 0x1DA9F);
    (0x1DAA1, 0x1DAAF); (0x1E000, 0x1E006); (0x1E008, 0x1E018);
    (0x1E01B, 0x1E021); (0x1E023, 0x1E024); (0x1E026, 0x1E02A);
    (0x1E130, 0x1E13D); (0x1E2AE, 0x1E2AE); (0x1E2EC, 0x1E2EF);
    (0x1E8D0, 0x1E8D6); (0x1E944, 0x1E94B); (0x1F3FB, 0x1F3FF);
    (0xE0001, 0xE0001); (0xE0020, 0xE007F); (0xE0100, 0xE01EF) ].

(** The cased code points ([_PyUnicode_IsCased]) among those that are
    not skipped, as intervals. *)
Definition cased_runs : list (N * N) :=
  [(0x41, 0x5A); (0x61, 0x7A); (0xAA, 0xAA); (0xB5, 0xB5); (0xBA, 0xBA);
    (0xC0, 0xD6); (0xD8, 0xF6); (0xF8, 0x1BA); (0x1BC, 0x1BF);
    (0x1C4, 0x293); (0x295, 0x2AF); (0x370, 0x373); (0x376, 0x377);
    (0x37B, 0x37D); (0x37F, 0x37F); (0x386, 0x386); (0x388, 0x38A);
    (0x38C, 0x38C); (0x38E, 0x3A1); (0x3A3, 0x3F5); (0x3F7, 0x481);
    (0x48A, 0x52F); (0x531, 0x556); (0x560, 0x588); (0x10A0, 0x10C5);
    (0x10C7, 0x10C7); (0x10CD, 0x10CD); (0x10D0, 0x10FA); (0x10FD, 0x10FF);
    (0x13A0, 0x13F5); (0x13F8, 0x13FD); (0x1C80, 0x1C88); (0x1C90, 0x1CBA);
    (0x1CBD, 0x1CBF); (0x1D00, 0x1D2B); (0x1D6B, 0x1D77); (0x1D79, 0x1D9A);
    (0x1E00, 0x1F15); (0x1F18, 0x1F1D); (0x1F20, 0x1F45); (0x1F48, 0x1F4D);
    (0x1F50, 0x1F57); (0x1F59, 0x1F59); (0x1F5B, 0x1F5B); (0x1F5D, 0x1F5D);
    (0x1F5F, 0x1F7D); (0x1F80, 0x1FB4); (0x1FB6, 0x1FBC); (0x1FBE, 0x1FBE);
    (0x1FC2, 0x1FC4); (0x1FC6, 0x1FCC); (0x1FD0, 0x1FD3); (0x1FD6, 0x1FDB);
    (0x1FE0, 0x1FEC); (0x1FF2, 0x1FF4); (0x1FF6, 0x1FFC); (0x2102, 0x2102);
    (0x2107, 0x2107); (0x210A, 0x2113); (0x2115, 0x2115); (0x2119, 0x211D);
    (0x2124, 0x2124); (0x2126, 0x2126); (0x2128, 0x2128); (0x212A, 0x212D);
    (0x212F, 0x2134); (0x2139, 0x2139); (0x213C, 0x213F); (0x2145, 0x2149);
    (0x214E, 0x214E); (0x2160, 0x217F); (0x2183, 0x2184); (0x24B6, 0x24E9);
    (0x2C00, 0x2C7B); (0x2C7E, 0x2CE4); (0x2CEB, 0x2CEE); (0x2CF2, 0x2CF3);
    (0x2D00, 0x2D25); (0x2D27, 0x2D27); (0x2D2D, 0x2D2D); (0xA640, 0xA66D);
    (0xA680, 0xA69B); (0xA722, 0xA76F); (0xA771, 0xA787); (0xA78B, 0xA78E);
    (0xA790, 0xA7CA); (0xA7D0, 0xA7D1); (0xA7D3, 0xA7D3); (0xA7D5, 0xA7D9);
    (0xA7F5, 0xA7F6); (0xA7FA, 0xA7FA); (0xAB30, 0xAB5A); (0xAB60, 0xAB68);
    (0xAB70, 0xABBF); (0xFB00, 0xFB06); (0xFB13, 0xFB17); (0xFF21, 0xFF3A);
    (0xFF41, 0xFF5A); (0x10400, 0x1044F); (0x104B0, 0x104D3);
    (0x104D8, 0x104FB); (0x10570, 0x1057A); (0x1057C, 0x1058A);
    (0x1058C, 0x10592); (0x10594, 0x10595); (0x10597, 0x105A1);
    (0x105A3, 0x105B1); (0x105B3, 0x105B9); (0x105BB, 0x105BC);
    (0x10C80, 0x10CB2); (0x10CC0, 0x10CF2); (0x118A0, 0x118DF);
    (0x16E40, 0x16E7F); (0x1D400, 0x1D454); (0x1D456, 0x1D49C);
    (0x1D49E, 0x1D49F); (0x1D4A2, 0x1D4A2); (0x1D4A5, 0x1D4A6);
    (0x1D4A9, 0x1D4AC); (0x1D4AE, 0x1D4B9); (0x1D4BB, 0x1D4BB);
    (0x1D4BD, 0x1D4C3); (0x1D4C5, 0x1D505); (0x1D507, 0x1D50A);
    (0x1D50D, 0x1D514); (0x1D516, 0x1D51C); (0x1D51E, 0x1D539);
    (0x1D53B, 0x1D53E); (0x1D540, 0x1D544); (0x1D546, 0x1D546);
    (0x1D54A, 0x1D550); (0x1D552, 0x1D6A5); (0x1D6A8, 0x1D6C0);
    (0x1D6C2, 0x1D6DA); (0x1D6DC, 0x1D6FA); (0x1D6FC, 0x1D714);
    (0x1D716, 0x1D734); (0x1D736, 0x1D74E); (0x1D750, 0x1D76E);
    (0x1D770, 0x1D788); (0x1D78A, 0x1D7A8); (0x1D7AA, 0x1D7C2);
    (0x1D7C4, 0x1D7CB); (0x1DF00, 0x1DF09); (0x1DF0B, 0x1DF1E);
    (0x1E900, 0x1E943); (0x1F130, 0x1F149); (0x1F150, 0x1F169);
    (0x1F170, 0x1F189) ].

Fixpoint simple_image (c : N) (runs : list (N * N * N * N)) : option N :=
  match runs with
  | [] => None
  | (first, last, step, image) :: rest =>
      if (first <=? c) && (c <=? last) && ((c - first) mod step =? 0)
      then Some (image + (c - first))
      else simple_image c rest
  end.

Fixpoint special_image (c : N) (table : list (N * list N)) : option (list N) :=
  match table with
  | [] => None
  | (c', image) :: rest => if c' =? c then Some image else special_image c rest
  end.

Fixpoint in_runs (c : N) (runs : list (N * N)) : bool :=
  match runs with
  | [] => false
  | (first, last) :: rest => (first <=? c) && (c <=? last) || in_runs c rest
  end.

(** The full upper case and lower case of one code point
    ([_PyUnicode_ToUpperFull], [_PyUnicode_ToLowerFull]). *)
Definition to_upper_full (c : N) : list N :=
  match special_image c to_upper_special with
  | Some image => image
  | None =>
      match simple_image c to_upper_runs with
      | Some u => [u]
      | None => [c]
      end
  end.

Definition to_lower_full (c : N) : list N :=
  match special_image c to_lower_special with
  | Some image => image
  | None =>
      match simple_image c to_lower_runs with
      | Some l => [l]
      | None => [c]
      end
  end.

Definition case_ignorable (c : N) : bool := in_runs c case_ignorable_runs.
Definition cased (c : N) : bool := in_runs c cased_runs.

(** [s.upper()]. *)
Definition upper (s : ustring) : ustring := flat_map to_upper_full s.

(** The context of a capital sigma ([handle_capital_sigma]): it is final
    when a cased code point comes before it, code points that are skipped
    apart, and none comes after it in the same way. [before] holds the
    code points before the sigma, the nearest first. *)
Fixpoint skip_case_ignorable (s : list N) : list N :=
  match s with
  | [] => []
  | c :: rest => if case_ignorable c then skip_case_ignorable rest else s
  end.

Definition final_sigma (before after : list N) : bool :=
  match skip_case_ignorable before with
  | [] => false
  | c :: _ =>
      cased c
      && match skip_case_ignorable after with
         | [] => true
         | d :: _ => negb (cased d)
         end
  end.

Fixpoint lower_from (before : list N) (s : ustring) : ustring :=
  match s with
  | [] => []
  | c :: rest =>
      ((if c =? 0x3A3
        then [if final_sigma before rest then 0x3C2 else 0x3C3]
        else to_lower_full c)
       ++ lower_from (c :: before) rest)%list
  end.

(** [s.lower()]. *)
Definition lower (s : ustring) : ustring := lower_from [] s.

(** The two mappings on the code points below 128. *)
Definition lower_ascii (c : N) : N :=
  if (65 <=? c) && (c <=? 90) then c + 32 else c.
Definition upper_ascii (c : N) : N :=
  if (97 <=? c) && (c <=? 122) then c - 32 else c.

(** A code point that no key of the mapping of extensions holds: one
    outside ASCII, or [k]. *)
Definition foreign (x : N) : bool := (128 <=? x) || (x =? 0x6B).

(** Two code points that are the same, or both outside ASCII. *)
Definition alike (x y : N) : Prop :=
  x = y \/ (128 <= x /\ 128 <= y).

(** *** The classifier over strings of code points *)

Definition dot : N := 46.

Definition len (s : ustring) : Z := Z.of_nat (List.length s).

(** [s.rfind('.')]. *)
Fixpoint rfind_dot (s : ustring) : Z :=
  match s with
  | [] => (-1)%Z
  | c :: s' =>
      let r := rfind_dot s' in
      if (0 <=? r)%Z then (r + 1)%Z
      else if c =? dot then 0%Z else (-1)%Z
  end.

Definition Path : Type := list ustring.

Definition name (p : Path) : ustring := List.last p [].

(** [PurePath.suffix], as [Models.suffix_of_name]. *)
Definition suffix_of_name (n : ustring) : ustring :=
  let i := rfind_dot n in
  if ((0 <? i) && (i <? len n - 1))%Z then skipn (Z.to_nat i) n else [].

Definition suffix (p : Path) : ustring := suffix_of_name (name p).

(** [FileCategory.get_extensions()]: the keys are those of
    [Models.get_extensions]. *)
Definition get_extensions : list (ustring * FileCategory) :=
  List.map (fun kv => (of_string (fst kv), snd kv)) Models.get_extensions.

Fixpoint dict_get {V : Type} (d : list (ustring * V)) (k : ustring) : option V :=
  match d with
  | [] => None
  | (k', v) :: d' => if ustring_eqb k' k then Some v else dict_get d' k
  end.

(** [FileCategory.categorize_file]. *)
Definition categorize_file (file_path : Path) : option FileCategory :=
  let extension := lower (suffix file_path) in
  let extensions_map := get_extensions in
  dict_get extensions_map extension.

(** The path with its extension rewritten by [f]. *)
Definition with_name (p : Path) (n : ustring) : Path :=
  (List.removelast p ++ [n])%list.

Definition stem_of_name (n : ustring) : ustring :=
  firstn (Z.to_nat (len n - len (suffix_of_name n))) n.

Definition map_extension (f : ustring -> ustring) (p : Path) : Path :=
  match p with
  | [] => []
  | _ => with_name p (stem_of_name (name p) ++ f (suffix p))%list
  end.

End Unicode.

(* ================================================================== *)
(** ** scanner.py *)

Module Scanner.
Import Models.

(** What [stat] finds at a path. *)
Inductive Node : Type :=
| RegularFile (st_size : Z) (st_mtime : datetime)
| Directory
| Special.  (* broken link, socket, device: neither file nor directory *)

(** The tree below the scan root: every path that exists there, relative
    to the root, with its node. A directory and the entries inside it are
    separate members, as [Path.glob] reports them. An entry is there with
    its node or it is not: a [stat] that fails half-way through a walk
    (permissions, a file deleted meanwhile) is not part of the model. *)
Definition Tree : Type := list (Path * Node).

(** [item.is_file()]. *)
Definition is_file (item : Path * Node) : bool :=
  match snd item with RegularFile _ _ => true | _ => false end.

(** [path.glob(pattern)] for the two patterns of [scan_files]: ["**/*"]
    gives every entry below the root, hidden ones and the contents of
    hidden directories included; ["*"] gives the root's own entries. *)
Definition glob (tree : Tree) (recursive_pattern : bool) : list (Path * Node) :=
  if recursive_pattern then tree
  else filter (fun item => (List.length (fst item) =? 1)%nat) tree.

Section Scan.
(** The resolved scan root, the identifier [uuid.uuid4()] draws and the
    clock [datetime.now()] reads when the record of a path is created,
    and the cancellation flag as the loop finds it before its [i]-th
    item. *)
Variable root : string.
Variable uuid4 : Path -> string.
Variable now : Path -> datetime.
Variable _cancelled : nat -> bool.

(** [FileRecord.create(file_path, category)]. *)
Definition create (item : Path) (st_size : Z) (st_mtime : datetime)
                  (category : FileCategory) : FileRecord :=
  {| id := uuid4 item;
     path := String.concat "/" (root :: item);
     filename := name item;
     category := category;
     size := st_size;
     modified_date := st_mtime;
     scanned_date := now item;
     exists_ := true |}.

(** [FileScanner.get_file_metadata]. *)
Definition get_file_metadata (item : Path * Node) : option FileRecord :=
  match snd item with
  | RegularFile st_size st_mtime =>
      match categorize_file (fst item) with
      | None => None
      | Some category => Some (create (fst item) st_size st_mtime category)
      end
  | _ => None
  end.

(** [depth = len(relative_path.parts) - 1]. *)
Definition depth (item : Path * Node) : Z :=
  Z.of_nat (List.length (fst item)) - 1.

(** The loop of [scan_files] from its [i]-th item on; the result is
    the sequence of the records it yields. *)
Fixpoint scan_loop (options : ScanOptions) (i : nat)
                   (items : list (Path * Node)) : list FileRecord :=
  match items with
  | [] => []
  | item :: rest =>
      if _cancelled i then []
      else if negb (is_file item) then scan_loop options (S i) rest
      else if negb (include_hidden options)
              && Str.startswith_dot (name (fst item))
           then scan_loop options (S i) rest
      else if match max_depth options with
              | Some d => d <? depth item
              | None => false
              end
           then scan_loop options (S i) rest
      else match get_file_metadata item with
           | Some file_record => file_record :: scan_loop options (S i) rest
           | None => scan_loop options (S i) rest
           end
  end.

(** [FileScanner.scan_files]. *)
Definition scan_files (tree : Tree) (options : ScanOptions) : list FileRecord :=
  scan_loop options 0%nat (glob tree (recursive options)).

(** The entries a walk keeps: regular files that pass the hidden-name
    test and the depth test and that the classifier knows. *)
Definition kept (options : ScanOptions) (item : Path * Node) : bool :=
  is_file item
  && (include_hidden options || negb (Str.startswith_dot (name (fst item))))
  && match max_depth options with
     | Some d => depth item <=? d
     | None => true
     end
  && match categorize_file (fst item) with Some _ => true | None => false end.

(** A regular file the classifier knows. *)
Definition categorizable_file (item : Path * Node) : bool :=
  is_file item
  && match categorize_file (fst item) with Some _ => true | None => false end.

(** [@dataclass ScanResult]; [duration] is a difference of clock
    readings. *)
Record ScanResult : Type := mkScanResult {
  total_files : Z;
  categorized_files : Z;
  new_files : Z;
  updated_files : Z;
  scan_errors : list string;
  duration : Z
}.

(** What [_validate_scan_path] finds at the root. A listing that is
    refused raises the built-in [PermissionError], which the module's own
    class of that name does not catch: it falls to [except OSError]. *)
Inductive RootStatus : Type :=
| RootMissing
| RootNotADirectory
| RootUnlistable (reason : string)
| RootReadable.

(** [_validate_scan_path]: the message of the exception raised, if any. *)
Definition _validate_scan_path (status : RootStatus) : option string :=
  match status with
  | RootMissing => Some ("Path does not exist: " ++ root)
  | RootNotADirectory => Some ("Path is not a directory: " ++ root)
  | RootUnlistable reason =>
      Some ("Cannot access directory " ++ root ++ ": " ++ reason)
  | RootReadable => None
  end.

(** The [for] loop of [scan_directory] over the records that [scan_files]
    yields; [seen k] is the flag as the loop finds it at the record of
    index [k]. The three counters and the errors. *)
Fixpoint count_records (seen : nat -> bool) (k : nat)
    (records : list FileRecord) (total categorized new : Z)
  : Z * Z * Z * list string :=
  match records with
  | [] => (total, categorized, new, [])
  | _ :: rest =>
      if seen k then (total, categorized, new, ["Scan was cancelled by user"])
      else count_records seen (S k) rest (total + 1) (categorized + 1) (new + 1)
  end.

(** [FileScanner.scan_directory]. *)
Definition scan_directory (status : RootStatus) (seen : nat -> bool)
    (elapsed : Z) (tree : Tree) (options : ScanOptions) : ScanResult :=
  match _validate_scan_path status with
  | Some message =>
      {| total_files := 0; categorized_files := 0; new_files := 0;
         updated_files := 0; scan_errors := [message]; duration := elapsed |}
  | None =>
      let '(total, categorized, new, errs) :=
        count_records seen 0%nat (scan_files tree options) 0 0 0 in
      {| total_files := total; categorized_files := categorized;
         new_files := new; updated_files := 0; scan_errors := errs;
         duration := elapsed |}
  end.

End Scan.

End Scanner.

(* ================================================================== *)
(** ** error_handler.py: the circuit breaker *)

Module ErrorHandler.

(** [self.state]: ["closed"], ["open"] or ["half-open"]. *)
Inductive BreakerState : Type := closed | open | half_open.

(** The attributes of a [CircuitBreaker]. Times are clock readings. *)
Record CircuitBreaker : Type := mkCircuitBreaker {
  failure_threshold : Z;
  recovery_timeout : Z;
  failure_count : Z;
  last_failure_time : option Z;
  state : BreakerState
}.

(** [CircuitBreaker.__init__]. *)
Definition init (failure_threshold recovery_timeout : Z) : CircuitBreaker :=
  {| failure_threshold := failure_threshold;
     recovery_timeout := recovery_timeout;
     failure_count := 0;
     last_failure_time := None;
     state := closed |}.

Definition set_state (s : BreakerState) (cb : CircuitBreaker) : CircuitBreaker :=
  {| failure_threshold := failure_threshold cb;
     recovery_timeout := recovery_timeout cb;
     failure_count := failure_count cb;
     last_failure_time := last_failure_time cb;
     state := s |}.

(** [_should_attempt_reset], [now] being [time.time()]. *)
Definition _should_attempt_reset (cb : CircuitBreaker) (now : Z) : bool :=
  match last_failure_time cb with
  | None => true
  | Some t => recovery_timeout cb <=? now - t
  end.

(** [_on_success]. *)
Definition _on_success (cb : CircuitBreaker) : CircuitBreaker :=
  {| failure_threshold := failure_threshold cb;
     recovery_timeout := recovery_timeout cb;
     failure_count := 0;
     last_failure_time := last_failure_time cb;
     state := closed |}.

(** [_on_failure], [now] being [time.time()]. *)
Definition _on_failure (cb : CircuitBreaker) (now : Z) : CircuitBreaker :=
  let count := failure_count cb + 1 in
  {| failure_threshold := failure_threshold cb;
     recovery_timeout := recovery_timeout cb;
     failure_count := count;
     last_failure_time := Some now;
     state := if failure_threshold cb <=? count then open else state cb |}.

(** What a call through the breaker gives its caller: the function's
    result, what the function raised (re-raised by the handler or passing
    through it), or the breaker's own
    [FileCategorizeError("Circuit breaker is open")]. *)
Inductive Outcome (A E : Type) : Type :=
| Returned (a : A)
| Raised (e : E)
| CircuitOpen.
Arguments Returned {A E} a.
Arguments Raised {A E} e.
Arguments CircuitOpen {A E}.

Section Call.
(** The wrapped function acts on a world [W], which also carries the
    clock that [time.time()] reads. *)
Context {W A E : Type}.
Variable time_ : W -> Z.

(** The guard at the head of [call]: [None] when the call is refused,
    otherwise the breaker as the wrapped function finds it. *)
Definition let_through (cb : CircuitBreaker) (w : W) : option CircuitBreaker :=
  match state cb with
  | open =>
      if _should_attempt_reset cb (time_ w)
      then Some (set_state half_open cb)
      else None
  | _ => Some cb
  end.

(** [isinstance(e, Exception)] for what the wrapped function raises. A
    [BaseException] of another kind, such as [KeyboardInterrupt], is not
    caught by [except Exception]: it leaves [call] with neither
    [_on_success] nor [_on_failure] run. *)
Variable is_exception : E -> bool.

(** [CircuitBreaker.call]. *)
Definition call (cb : CircuitBreaker) (func : W -> (A + E) * W) (w : W)
  : Outcome A E * CircuitBreaker * W :=
  match let_through cb w with
  | None => (CircuitOpen, cb, w)
  | Some cb1 =>
      match func w with
      | (inl result, w') => (Returned result, _on_success cb1, w')
      | (inr e, w') =>
          if is_exception e
          then (Raised e, _on_failure cb1 (time_ w'), w')
          else (Raised e, cb1, w')
      end
  end.

(** Calls made one after the other. *)
Fixpoint calls (cb : CircuitBreaker) (funcs : list (W -> (A + E) * W)) (w : W)
  : CircuitBreaker * W :=
  match funcs with
  | [] => (cb, w)
  | func :: rest =>
      let '(_, cb', w') := call cb func w in calls cb' rest w'
  end.

(** [func] raises an [Exception] whatever the world is. *)
Definition always_fails (func : W -> (A + E) * W) : Prop :=
  forall w, exists e w', func w = (inr e, w') /\ is_exception e = true.

(** [func] ends by returning or by raising an [Exception]. *)
Definition ordinary (func : W -> (A + E) * W) : Prop :=
  forall w e w', func w = (inr e, w') -> is_exception e = true.

End Call.

(** *** [retry_on_error] *)

(** How a call through the decorator ends: with the function's result,
    with an exception of the function re-raised, or, when the loop has
    nothing to run, with the [TypeError] of [raise None]. *)
Inductive RetryOutcome (A E : Type) : Type :=
| Done (a : A)
| Failed (e : E)
| RaisedNone.
Arguments Done {A E} a.
Arguments Failed {A E} e.
Arguments RaisedNone {A E}.

(** What a call through the decorator leaves behind: how it ended, the
    world, the delays slept in order, and how often the function ran. *)
Record Retried (W A E : Type) : Type := mkRetried {
  outcome : RetryOutcome A E;
  world : W;
  slept : list Z;
  invoked : nat
}.
Arguments mkRetried {W A E}.
Arguments outcome {W A E}.
Arguments world {W A E}.
Arguments slept {W A E}.
Arguments invoked {W A E}.

Section Retry.
Context {W A E : Type}.
(** [isinstance(e, exceptions)], and what [time.sleep(d)] does to the
    world. Delays are exact numbers. The [increment_retry] that the loop
    calls on the exception object is not part of the model. *)
Variable retryable : E -> bool.
Variable sleep : Z -> W -> W.
Variable max_retries : Z.
Variable backoff_factor : Z.
Variable func : W -> (A + E) * W.

(** The [for attempt in range(max_retries + 1)] loop of [wrapper], from
    the attempts still to make. *)
Fixpoint retry_loop (attempts : list nat) (current_delay : Z)
    (last_exception : option E) (w : W) (trace : list Z) (n : nat)
  : Retried W A E :=
  match attempts with
  | [] =>
      mkRetried
        match last_exception with Some e => Failed e | None => RaisedNone end
        w trace n
  | attempt :: rest =>
      match func w with
      | (inl result, w') => mkRetried (Done result) w' trace (S n)
      | (inr e, w') =>
          if retryable e then
            if Z.of_nat attempt =? max_retries
            then mkRetried (Failed e) w' trace (S n)
            else retry_loop rest (current_delay * backoff_factor) (Some e)
                   (sleep current_delay w')
                   (trace ++ [current_delay])%list (S n)
          else mkRetried (Failed e) w' trace (S n)
      end
  end.

(** The [wrapper] that [retry_on_error(max_retries, delay, backoff_factor,
    exceptions)] puts around [func]. *)
Definition retry_on_error (delay : Z) (w : W) : Retried W A E :=
  retry_loop (seq 0 (Z.to_nat (max_retries + 1))) delay None w [] 0%nat.

End Retry.

(** The delays [delay], [delay * factor], [delay * factor^2], ... *)
Fixpoint schedule (delay factor : Z) (n : nat) : list Z :=
  match n with
  | O => []
  | S n' => delay :: schedule (delay * factor) factor n'
  end.

(** The count is not negative, and whenever the breaker is not closed it
    has counted at least the threshold. *)
Definition breaker_inv (cb : CircuitBreaker) : Prop :=
  0 <= failure_count cb /\
  (state cb <> closed -> failure_threshold cb <= failure_count cb).

End ErrorHandler.

(* ================================================================== *)
(** ** database.py *)

Module Database.
Import Models.

(** A row of the [files] table. [file_exists] is only ever written as 1
    or 0 and read through [bool(...)] or [= 1], so it is a [bool]. *)
Record Row : Type := mkRow {
  row_id : string;                (* id TEXT PRIMARY KEY *)
  row_path : string;              (* path TEXT UNIQUE NOT NULL *)
  row_filename : string;
  row_category : FileCategory;
  row_size : Z;
  row_modified_date : Z;
  row_scanned_date : Z;
  row_file_exists : bool
}.

(** The table: its rows in rowid order. A new row gets the largest rowid,
    so it goes to the end. *)
Definition Store : Type := list Row.

(** What the schema enforces: no two rows share an id or a path. *)
Definition store_ok (st : Store) : Prop :=
  NoDup (List.map row_id st) /\ NoDup (List.map row_path st).

(** *** SQL primitives *)

(** An existing row stands in the way of [new] when it has the same
    primary key or the same unique path. *)
Definition conflicts (new old : Row) : bool :=
  String.eqb (row_id old) (row_id new)
  || String.eqb (row_path old) (row_path new).

(** [INSERT OR REPLACE INTO files VALUES (...)]: the rows in the way are
    deleted, then the new row is inserted. *)
Definition insert_or_replace (st : Store) (new : Row) : Store :=
  (filter (fun old => negb (conflicts new old)) st ++ [new])%list.

(** [cursor.executemany("INSERT OR REPLACE ...", batch_data)]. *)
Definition executemany_insert (st : Store) (batch_data : list Row) : Store :=
  fold_left insert_or_replace batch_data st.

(** [UPDATE files SET file_exists = ? WHERE id = ?]. *)
Definition set_file_exists (v : bool) (r : Row) : Row :=
  {| row_id := row_id r; row_path := row_path r;
     row_filename := row_filename r; row_category := row_category r;
     row_size := row_size r; row_modified_date := row_modified_date r;
     row_scanned_date := row_scanned_date r; row_file_exists := v |}.

Definition update_file_exists (st : Store) (upd : bool * string) : Store :=
  List.map (fun r => if String.eqb (row_id r) (snd upd)
                     then set_file_exists (fst upd) r else r) st.

Definition executemany_update (st : Store) (updates : list (bool * string)) : Store :=
  fold_left update_file_exists updates st.

(** [DELETE FROM files WHERE id = ?]. *)
Definition delete_by_id (st : Store) (file_id : string) : Store :=
  filter (fun r => negb (String.eqb (row_id r) file_id)) st.

Definition executemany_delete (st : Store) (ids : list string) : Store :=
  fold_left delete_by_id ids st.

(** [ORDER BY id]: text compared byte by byte. *)
Fixpoint insert_by_id (r : Row) (l : list Row) : list Row :=
  match l with
  | [] => [r]
  | x :: l' => if String.leb (row_id r) (row_id x) then r :: l
               else x :: insert_by_id r l'
  end.

Fixpoint order_by_id (l : list Row) : list Row :=
  match l with
  | [] => []
  | r :: l' => insert_by_id r (order_by_id l')
  end.

(** [LIMIT ? OFFSET ?]: a negative limit is no limit, a negative offset
    is no offset. *)
Definition limit_offset {X : Type} (lim off : Z) (l : list X) : list X :=
  let l' := skipn (Z.to_nat off) l in
  if lim <? 0 then l' else firstn (Z.to_nat lim) l'.

(** [x LIKE pattern]: [%] stands for any run of characters, [_] for one
    character, letters match whatever their case. *)
Fixpoint like (pattern s : string) : bool :=
  match pattern with
  | EmptyString => match s with EmptyString => true | _ => false end
  | String c pattern' =>
      if Ascii.eqb c "%" then
        (fix any_run (s : string) : bool :=
           like pattern' s
           || match s with
              | EmptyString => false
              | String _ s' => any_run s'
              end) s
      else
        match s with
        | EmptyString => false
        | String d s' =>
            (Ascii.eqb c "_"
             || Ascii.eqb (Str.lower_ascii c) (Str.lower_ascii d))
            && like pattern' s'
        end
  end.

(** [ORDER BY modified_date DESC] names one key. What the statement
    promises of the rows it returns: they are the selected rows, most
    recent first; how rows of equal [modified_date] follow each other is
    left to the engine. *)
Definition modified_desc (a b : Row) : Prop :=
  row_modified_date b <= row_modified_date a.

Definition order_by_modified_desc_ok (plan : list Row -> list Row) : Prop :=
  forall rows, Permutation rows (plan rows)
               /\ StronglySorted modified_desc (plan rows).

(** Two ways the engine has to produce that order. The first reads the
    table in rowid order and sorts it, keeping rows of equal key in the
    order read. *)
Fixpoint insert_desc (r : Row) (l : list Row) : list Row :=
  match l with
  | [] => [r]
  | x :: l' => if row_modified_date x <? row_modified_date r then r :: l
               else x :: insert_desc r l'
  end.

Definition plan_sorter (rows : list Row) : list Row :=
  fold_right insert_desc [] (rev rows).

(** The second walks [idx_modified_date], which [initialize] creates,
    from its end: the index holds (modified_date, rowid) in ascending
    order, so rows of equal key come out latest rowid first. *)
Fixpoint insert_asc (r : Row) (l : list Row) : list Row :=
  match l with
  | [] => [r]
  | x :: l' => if row_modified_date r <? row_modified_date x then r :: l
               else x :: insert_asc r l'
  end.

Definition idx_modified_date (rows : list Row) : list Row :=
  fold_right insert_asc [] (rev rows).

Definition plan_index (rows : list Row) : list Row :=
  rev (idx_modified_date rows).

Definition modified_asc (a b : Row) : Prop :=
  row_modified_date a <= row_modified_date b.

(** The last tuple of a batch written to a path. *)
Definition last_with_path (p : string) (rows : list Row) : option Row :=
  find (fun r => String.eqb (row_path r) p) (rev rows).

(** No tuple of the batch stands in the way of the row. *)
Definition clear_of (batch : list Row) (old : Row) : bool :=
  forallb (fun new => negb (conflicts new old)) batch.

(** The tuples of a batch that no later tuple of the batch stands in the
    way of, in the order written. *)
Fixpoint survivors (batch : list Row) : list Row :=
  match batch with
  | [] => []
  | t :: rest =>
      if clear_of rest t then t :: survivors rest else survivors rest
  end.

(** *** The operations *)

Section Operations.
(** [int(d.timestamp())], [None] when the conversion raises. *)
Variable timestamp : datetime -> option Z.

(** [datetime.fromtimestamp(s)]. *)
Definition fromtimestamp (s : Z) : datetime := s * 1000000.

(** One tuple of [batch_data]; [None] when the record is skipped. *)
Definition batch_tuple (record : FileRecord) : option Row :=
  match timestamp (modified_date record), timestamp (scanned_date record) with
  | Some modified_timestamp, Some scanned_timestamp =>
      Some {| row_id := id record;
              row_path := path record;
              row_filename := filename record;
              row_category := category record;
              row_size := size record;
              row_modified_date := modified_timestamp;
              row_scanned_date := scanned_timestamp;
              row_file_exists := exists_ record |}
  | _, _ => None
  end.

Fixpoint batch_data_of (chunk : list FileRecord) : list Row :=
  match chunk with
  | [] => []
  | record :: rest =>
      match batch_tuple record with
      | Some t => t :: batch_data_of rest
      | None => batch_data_of rest
      end
  end.

Definition chunk_size : nat := 100.

(** [range(0, len(file_records), chunk_size)]. *)
Definition chunk_starts (n : nat) : list nat :=
  List.map (fun k => (k * chunk_size)%nat)
           (seq 0 ((n + chunk_size - 1) / chunk_size)).

(** The body of the chunk loop: [chunk = file_records[i:i + chunk_size]],
    its tuples, one [executemany] and [commit] when there are any. *)
Definition add_chunk (file_records : list FileRecord) (st : Store) (i : nat)
  : Store :=
  let chunk := firstn chunk_size (skipn i file_records) in
  match batch_data_of chunk with
  | [] => st
  | batch_data => executemany_insert st batch_data
  end.

(** The inner [_add_files_batch]. *)
Definition _add_files_batch (file_records : list FileRecord) (st : Store)
  : Store :=
  fold_left (add_chunk file_records)
            (chunk_starts (List.length file_records)) st.

(** [DatabaseManager.add_files_batch]: nothing to do for an empty list,
    otherwise the inner function goes through the circuit breaker. The
    world is the clock and the table. A refusal of the breaker reaches
    the caller as a [DatabaseError] without a retry. Whatever the inner
    function raises here is an [Exception]. *)
Definition add_files_batch (file_records : list FileRecord)
    (cb : ErrorHandler.CircuitBreaker) (w : Z * Store)
  : ErrorHandler.Outcome unit string * ErrorHandler.CircuitBreaker * (Z * Store) :=
  match file_records with
  | [] => (ErrorHandler.Returned tt, cb, w)
  | _ =>
      ErrorHandler.call fst (fun _ => true) cb
        (fun w => (inl tt, (fst w, _add_files_batch file_records (snd w)))) w
  end.

(** [_row_to_file_record]. *)
Definition _row_to_file_record (row : Row) : FileRecord :=
  {| id := row_id row;
     path := row_path row;
     filename := row_filename row;
     category := row_category row;
     size := row_size row;
     modified_date := fromtimestamp (row_modified_date row);
     scanned_date := fromtimestamp (row_scanned_date row);
     exists_ := row_file_exists row |}.

(** The [WHERE] clause that [search_files] builds, given the two
    converted time bounds. *)
Definition where_clause (criteria : SearchCriteria)
    (after before : option Z) (r : Row) : bool :=
  match query criteria with
  | Some q =>
      if String.eqb q "" then true
      else
        let search_term := "%" ++ q ++ "%" in
        like search_term (row_filename r) || like search_term (row_path r)
  | None => true
  end
  && match crit_category criteria with
     | Some c => FileCategory_eqb (row_category r) c
     | None => true
     end
  && match min_size criteria with
     | Some m => m <=? row_size r
     | None => true
     end
  && match max_size criteria with
     | Some m => row_size r <=? m
     | None => true
     end
  && match after with
     | Some t => t <=? row_modified_date r
     | None => true
     end
  && match before with
     | Some t => row_modified_date r <=? t
     | None => true
     end.

(** The pagination that [search_files] appends: [LIMIT] when
    [criteria.limit] is truthy, and then [OFFSET] when
    [criteria.offset > 0]. *)
Definition paginate (criteria : SearchCriteria) (rows : list Row) : list Row :=
  match limit criteria with
  | Some l =>
      if l =? 0 then rows
      else if 0 <? offset criteria then limit_offset l (offset criteria) rows
      else limit_offset l 0 rows
  | None => rows
  end.

(** The criteria with another page: [limit] and [offset] replaced. *)
Definition with_page (criteria : SearchCriteria) (l o : Z) : SearchCriteria :=
  {| query := query criteria;
     crit_category := crit_category criteria;
     min_size := min_size criteria;
     max_size := max_size criteria;
     modified_after := modified_after criteria;
     modified_before := modified_before criteria;
     limit := Some l;
     offset := o |}.

(** The conversion of an optional time bound; the outer [None] is the
    exception of [timestamp]. *)
Definition bound (d : option datetime) : option (option Z) :=
  match d with
  | None => Some None
  | Some d' => match timestamp d' with
               | Some t => Some (Some t)
               | None => None
               end
  end.

(** [DatabaseManager.search_files], the engine ordering its rows by
    [plan]. [None] is an exception while the query is built. *)
Definition search_files (plan : list Row -> list Row)
    (criteria : SearchCriteria) (st : Store) : option (list FileRecord) :=
  match bound (modified_after criteria), bound (modified_before criteria) with
  | Some after, Some before =>
      let selected := filter (where_clause criteria after before) st in
      Some (List.map _row_to_file_record (paginate criteria (plan selected)))
  | _, _ => None
  end.

(** *** Reconciliation *)

(** [Path(file_path).exists()]: [None] when it raises one of the
    exceptions the loops catch. *)
Variable path_exists : string -> option bool.

(** Running state of the two sweeps. *)
Record Sweep : Type := mkSweep {
  sw_store : Store;
  sw_files : list string;     (* updated_files / removed_files *)
  sw_errors : list string;
  sw_processed : Z
}.

Definition error_message (file_path : string) : string :=
  "Error checking " ++ file_path.

(** The [for] loop of [verify_and_update_existence] over one batch:
    the paths found changed, the errors, and [batch_updates]. *)
Fixpoint check_batch (batch_files : list Row)
  : list string * list string * list (bool * string) :=
  match batch_files with
  | [] => ([], [], [])
  | r :: rest =>
      let '(files, errs, updates) := check_batch rest in
      match path_exists (row_path r) with
      | Some actual_exists =>
          if Bool.eqb (row_file_exists r) actual_exists
          then (files, errs, updates)
          else (row_path r :: files, errs, (actual_exists, row_id r) :: updates)
      | None => (files, error_message (row_path r) :: errs, updates)
      end
  end.

(** The [while] loop of [verify_and_update_existence]; [None] when the
    fuel runs out before the loop ends. *)
Fixpoint verify_loop (fuel : nat) (dry_run : bool)
    (batch_size total_count offset : Z) (sw : Sweep) : option Sweep :=
  match fuel with
  | O => None
  | S fuel' =>
      if offset <? total_count then
        match limit_offset batch_size offset (order_by_id (sw_store sw)) with
        | [] => Some sw
        | batch_files =>
            let '(files, errs, batch_updates) := check_batch batch_files in
            let st' :=
              match batch_updates with
              | [] => sw_store sw
              | _ => if dry_run then sw_store sw
                     else executemany_update (sw_store sw) batch_updates
              end in
            verify_loop fuel' dry_run batch_size total_count
              (offset + batch_size)
              {| sw_store := st';
                 sw_files := (sw_files sw ++ files)%list;
                 sw_errors := (sw_errors sw ++ errs)%list;
                 sw_processed :=
                   sw_processed sw + Z.of_nat (List.length batch_files) |}
        end
      else Some sw
  end.

Definition result_of (dry_run : bool) (sw : Sweep) : CleanupResult * Store :=
  ({| total_checked := sw_processed sw;
      removed_count := Z.of_nat (List.length (sw_files sw));
      removed_files := sw_files sw;
      errors := sw_errors sw;
      Models.dry_run := dry_run |},
   sw_store sw).

(** [DatabaseManager.verify_and_update_existence]: the result and the
    table after the call. *)
Definition verify_and_update_existence (fuel : nat) (dry_run : bool)
    (batch_size : Z) (st : Store) : option (CleanupResult * Store) :=
  let total_count := Z.of_nat (List.length st) in
  option_map (result_of dry_run)
    (verify_loop fuel dry_run batch_size total_count 0
       {| sw_store := st; sw_files := []; sw_errors := [];
          sw_processed := 0 |}).

(** The [for] loop of [cleanup_database] over one batch: the paths
    found missing, the errors, and [batch_to_remove]. *)
Fixpoint check_missing (batch_files : list Row)
  : list string * list string * list string :=
  match batch_files with
  | [] => ([], [], [])
  | r :: rest =>
      let '(files, errs, to_remove) := check_missing rest in
      match path_exists (row_path r) with
      | Some true => (files, errs, to_remove)
      | Some false => (row_path r :: files, errs, row_id r :: to_remove)
      | None => (files, error_message (row_path r) :: errs, to_remove)
      end
  end.

(** [SELECT ... WHERE file_exists = 1]. *)
Definition flagged (st : Store) : list Row := filter row_file_exists st.

(** The [while] loop of [cleanup_database]. *)
Fixpoint cleanup_loop (fuel : nat) (dry_run : bool)
    (batch_size total_count offset : Z) (sw : Sweep) : option Sweep :=
  match fuel with
  | O => None
  | S fuel' =>
      if offset <? total_count then
        match limit_offset batch_size offset
                (order_by_id (flagged (sw_store sw))) with
        | [] => Some sw
        | batch_files =>
            let '(files, errs, batch_to_remove) := check_missing batch_files in
            let st' :=
              match batch_to_remove with
              | [] => sw_store sw
              | _ => if dry_run then sw_store sw
                     else executemany_delete (sw_store sw) batch_to_remove
              end in
            cleanup_loop fuel' dry_run batch_size total_count
              (offset + batch_size)
              {| sw_store := st';
                 sw_files := (sw_files sw ++ files)%list;
                 sw_errors := (sw_errors sw ++ errs)%list;
                 sw_processed :=
                   sw_processed sw + Z.of_nat (List.length batch_files) |}
        end
      else Some sw
  end.

(** [DatabaseManager.cleanup_database]. *)
Definition cleanup_database (fuel : nat) (dry_run : bool)
    (batch_size : Z) (st : Store) : option (CleanupResult * Store) :=
  let total_count := Z.of_nat (List.length (flagged st)) in
  option_map (result_of dry_run)
    (cleanup_loop fuel dry_run batch_size total_count 0
       {| sw_store := st; sw_files := []; sw_errors := [];
          sw_processed := 0 |}).

(** The row as the file system has it: the flag follows the probe when the
    probe answers. *)
Definition reconcile (r : Row) : Row :=
  match path_exists (row_path r) with
  | Some actual_exists => set_file_exists actual_exists r
  | None => r
  end.

(** The rows with an id in [ids] reconciled, the others as they are. *)
Definition touched (ids : list string) (r : Row) : Row :=
  if existsb (String.eqb (row_id r)) ids then reconcile r else r.

(** [DatabaseManager.add_file]: the two timestamps are converted without
    a guard, so a conversion that raises is an exception of the inner
    function; it goes through the circuit breaker like the batch. *)
Definition _add_file (file_record : FileRecord) (st : Store)
  : (unit + string) * Store :=
  match batch_tuple file_record with
  | Some t => (inl tt, insert_or_replace st t)
  | None => (inr "timestamp out of range", st)
  end.

Definition add_file (file_record : FileRecord)
    (cb : ErrorHandler.CircuitBreaker) (w : Z * Store)
  : ErrorHandler.Outcome unit string * ErrorHandler.CircuitBreaker * (Z * Store) :=
  ErrorHandler.call fst (fun _ => true) cb
    (fun w => let '(r, st') := _add_file file_record (snd w) in
              (r, (fst w, st'))) w.

(** The rows a statement [... WHERE id = ?] touches. *)
Definition count_id (st : Store) (file_id : string) : Z :=
  Z.of_nat (List.length (filter (fun r => String.eqb (row_id r) file_id) st)).

(** [DatabaseManager.remove_file]: [cursor.rowcount > 0] and the table
    after the [DELETE]. *)
Definition remove_file (st : Store) (file_id : string) : bool * Store :=
  (0 <? count_id st file_id, delete_by_id st file_id).

(** [DatabaseManager.mark_files_nonexistent]: the [rowcount] that
    [executemany] sums up over its statements, and the table after them. *)
Definition mark_files_nonexistent (st : Store) (file_ids : list string)
  : Z * Store :=
  match file_ids with
  | [] => (0, st)
  | _ =>
      fold_left
        (fun acc file_id =>
           (fst acc + count_id (snd acc) file_id,
            update_file_exists (snd acc) (false, file_id)))
        file_ids (0, st)
  end.

(** A row once the ids in [file_ids] have been marked. *)
Definition marked (file_ids : list string) (r : Row) : Row :=
  if existsb (String.eqb (row_id r)) file_ids then set_file_exists false r else r.

(** What a destructive sweep keeps true of its running state: the table is
    the original [st] without the rows of some ids, and each of those rows
    was flagged, its file gone and its path reported. *)
Definition safe (st : Store) (sw : Sweep) : Prop :=
  exists ids,
    sw_store sw
    = filter (fun r => negb (existsb (String.eqb (row_id r)) ids)) st
    /\ forall i r, In i ids -> In r st -> row_id r = i ->
         row_file_exists r = true
         /\ path_exists (row_path r) = Some false
         /\ In (row_path r) (sw_files sw).

(** The paths of the rows whose flag the probe contradicts. *)
Definition changed_paths (rows : list Row) : list string :=
  List.map row_path
    (filter (fun r => match path_exists (row_path r) with
                      | Some actual_exists =>
                          negb (Bool.eqb (row_file_exists r) actual_exists)
                      | None => false
                      end) rows).

(** The messages for the rows whose probe raises. *)
Definition probe_errors (rows : list Row) : list string :=
  List.map (fun r => error_message (row_path r))
    (filter (fun r => match path_exists (row_path r) with
                      | Some _ => false
                      | None => true
                      end) rows).

(** The paths of the rows whose file the probe finds gone. *)
Definition missing_paths (rows : list Row) : list string :=
  List.map row_path
    (filter (fun r => match path_exists (row_path r) with
                      | Some false => true
                      | _ => false
                      end) rows).

(** The ids in the order of [ORDER BY id]. *)
Definition sorted_ids (st : Store) : list string :=
  List.map row_id (order_by_id st).

(** The table once a run has visited the first [o] rows in id order. *)
Definition visited (dry_run : bool) (st : Store) (o : nat) : Store :=
  if dry_run then st else List.map (touched (firstn o (sorted_ids st))) st.

End Operations.

End Database.

(* ================================================================== *)
(** ** web/blueprints/api.py: GET /files *)

Module Api.
Import Models.

(** The query string as [request.args.get] reads it: the two texts
    stripped, the numbers parsed ([None] when absent or not a number). *)
Record Request : Type := mkRequest {
  arg_query : string;
  arg_category : string;
  arg_min_size : option Z;
  arg_max_size : option Z;
  arg_limit : option Z;
  arg_offset : option Z
}.

(** [FileCategory(category_str)]; [None] is its [ValueError]. *)
Definition category_of_string (s : string) : option FileCategory :=
  if String.eqb s "graphics" then Some GRAPHICS
  else if String.eqb s "lightburn" then Some LIGHTBURN
  else if String.eqb s "vector" then Some VECTOR
  else None.

Definition default (d : Z) (o : option Z) : Z :=
  match o with Some v => v | None => d end.

(** The checks of [get_files] up to the construction of the criteria: the
    message of the [ValidationError] raised, or the criteria. *)
Definition validate (req : Request) : string + SearchCriteria :=
  let min_size := arg_min_size req in
  let max_size := arg_max_size req in
  let limit := default 50 (arg_limit req) in
  let offset := default 0 (arg_offset req) in
  if (limit <? 1) || (1000 <? limit) then
    inl "Limit must be between 1 and 1000"
  else if offset <? 0 then
    inl "Offset must be non-negative"
  else if match min_size with Some m => m <? 0 | None => false end then
    inl "Minimum size must be non-negative"
  else if match max_size with Some m => m <? 0 | None => false end then
    inl "Maximum size must be non-negative"
  else if match min_size, max_size with
          | Some lo, Some hi => hi <? lo
          | _, _ => false
          end then
    inl "Minimum size cannot be greater than maximum size"
  else
    match
      (if String.eqb (arg_category req) "" then Some None
       else option_map Some (category_of_string (arg_category req)))
    with
    | None =>
        inl ("Invalid category: " ++ arg_category req
             ++ ". Valid categories: ['graphics', 'lightburn', 'vector']")
    | Some category =>
        inr {| query := if String.eqb (arg_query req) "" then None
                        else Some (arg_query req);
               crit_category := category;
               min_size := min_size;
               max_size := max_size;
               modified_after := None;
               modified_before := None;
               limit := Some limit;
               offset := offset |}
    end.

(** The responses of [get_files]. *)
Inductive Response : Type :=
| Ok200 (files : list FileRecord) (count : Z) (offset limit : Z)
| BadRequest400 (message : string)
| InternalError500.

Section Handler.
Variable timestamp : datetime -> option Z.
Variable plan : list Database.Row -> list Database.Row.

(** [get_files]: the store is read only once the request is valid. *)
Definition get_files (req : Request) (st : Database.Store) : Response :=
  match validate req with
  | inl message => BadRequest400 message
  | inr criteria =>
      match Database.search_files timestamp plan criteria st with
      | Some files =>
          Ok200 files (Z.of_nat (List.length files))
                (offset criteria) (default 50 (arg_limit req))
      | None => InternalError500
      end
  end.
(** [SearchCriteria(category=category)]. *)
Definition category_criteria (c : FileCategory) : SearchCriteria :=
  {| query := None; crit_category := Some c; min_size := None;
     max_size := None; modified_after := None; modified_before := None;
     limit := None; offset := 0 |}.

(** The body that [get_file_stats] answers with. *)
Record Stats : Type := mkStats {
  stat_graphics : Z;
  stat_lightburn : Z;
  stat_vector : Z;
  stat_total : Z
}.

(** [get_file_stats]: one search for each category in the order of the
    enumeration, the total summed up on the way; any exception gives the
    body of zeros. *)
Definition get_file_stats (st : Database.Store) : Stats :=
  let count c :=
    option_map (fun files => Z.of_nat (List.length files))
      (Database.search_files timestamp plan (category_criteria c) st) in
  match count GRAPHICS, count LIGHTBURN, count VECTOR with
  | Some g, Some l, Some v =>
      {| stat_graphics := g; stat_lightburn := l; stat_vector := v;
         stat_total := 0 + g + l + v |}
  | _, _, _ =>
      {| stat_graphics := 0; stat_lightburn := 0; stat_vector := 0;
         stat_total := 0 |}
  end.

(** [SearchCriteria(limit=limit)]. *)
Definition limit_criteria (l : Z) : SearchCriteria :=
  {| query := None; crit_category := None; min_size := None;
     max_size := None; modified_after := None; modified_before := None;
     limit := Some l; offset := 0 |}.

(** [get_recent_files]: [limit] is [request.args.get('limit', 10,
    type=int)], so 10 when the argument is absent or not a number; any
    exception gives the empty list. *)
Definition get_recent_files (arg_limit : option Z) (st : Database.Store)
  : list FileRecord :=
  let limit := default 10 arg_limit in
  match Database.search_files timestamp plan (limit_criteria limit) st with
  | Some files => files
  | None => []
  end.

End Handler.

(** *** The scan worker of POST /scan *)

Inductive WorkerStatus : Type := completed | cancelled.

(** What [run_scan] leaves: the status and the counters of the progress,
    the records collected, and the table. *)
Record ScanRun : Type := mkScanRun {
  run_status : WorkerStatus;
  run_total_files : Z;
  run_categorized_files : Z;
  run_records : list FileRecord;
  run_store : Database.Store
}.

Section ScanWorker.
Variable root : string.
Variable uuid4 : Path -> string.
Variable now : Path -> datetime.
Variable timestamp : datetime -> option Z.
(** [_scan_state['active']] as the worker finds it at its successive
    reads. *)
Variable active : nat -> bool.

(** The second pass of [run_scan]: the records collected and the number
    of reads of the flag made so far. *)
Fixpoint collect (t : nat) (all_files : list (Path * Scanner.Node))
    (file_records : list FileRecord) : list FileRecord * nat :=
  match all_files with
  | [] => (file_records, t)
  | file_path :: rest =>
      if negb (active t) then (file_records, S t)
      else
        match Scanner.get_file_metadata root uuid4 now file_path with
        | Some file_record =>
            collect (S t) rest (file_records ++ [file_record])%list
        | None => collect (S t) rest file_records
        end
  end.

(** [run_scan], on the table [st]; [clock] is the time at which the batch
    is saved. The database manager is a new one, so its breaker is as
    constructed. *)
Definition run_scan (recursive include_hidden : bool) (clock : Z)
    (tree : Scanner.Tree) (st : Database.Store) : ScanRun :=
  let all_files := Scanner.glob tree recursive in
  let all_files := filter Scanner.is_file all_files in
  let all_files :=
    if negb include_hidden
    then filter (fun f => negb (Str.startswith_dot (name (fst f)))) all_files
    else all_files in
  let total_count := Z.of_nat (List.length all_files) in
  let '(file_records, t) := collect 0%nat all_files [] in
  let categorized_count := Z.of_nat (List.length file_records) in
  let '(st', t') :=
    match file_records with
    | [] => (st, t)
    | _ =>
        if active t
        then (snd (snd (Database.add_files_batch timestamp file_records
                          (ErrorHandler.init 5 30) (clock, st))),
              S t)
        else (st, S t)
    end in
  {| run_status := if active t' then completed else cancelled;
     run_total_files := total_count;
     run_categorized_files := categorized_count;
     run_records := file_records;
     run_store := st' |}.

End ScanWorker.

(** *** The cleanup worker of POST /cleanup *)

Section CleanupWorker.
Variable path_exists : string -> option bool.
(** [_cleanup_state['active']] at the worker's successive reads. *)
Variable active : nat -> bool.

(** The [for] loop of [run_cleanup] over one batch, with its [break]: the
    two running lists, [batch_to_remove], and the reads made so far. *)
Fixpoint probe_batch (t : nat) (batch_files : list Database.Row)
    (removed_files errors batch_to_remove : list string)
  : list string * list string * list string * nat :=
  match batch_files with
  | [] => (removed_files, errors, batch_to_remove, t)
  | r :: rest =>
      if negb (active t) then (removed_files, errors, batch_to_remove, S t)
      else
        match path_exists (Database.row_path r) with
        | Some true =>
            probe_batch (S t) rest removed_files errors batch_to_remove
        | Some false =>
            probe_batch (S t) rest
              (removed_files ++ [Database.row_path r])%list errors
              (batch_to_remove ++ [Database.row_id r])%list
        | None =>
            probe_batch (S t) rest removed_files
              (errors ++ [Database.error_message (Database.row_path r)])%list
              batch_to_remove
        end
  end.

(** The [while] loop of [run_cleanup]; [None] when the fuel runs out. *)
Fixpoint worker_loop (fuel : nat) (dry_run : bool)
    (batch_size total_count offset : Z) (t : nat) (sw : Database.Sweep)
  : option (Database.Sweep * nat) :=
  match fuel with
  | O => None
  | S fuel' =>
      if offset <? total_count then
        if negb (active t) then Some (sw, S t)
        else
          match Database.limit_offset batch_size offset
                  (Database.order_by_id
                     (Database.flagged (Database.sw_store sw))) with
          | [] => Some (sw, S t)
          | batch_files =>
              let '(removed_files, errors, batch_to_remove, t2) :=
                probe_batch (S t) batch_files (Database.sw_files sw)
                  (Database.sw_errors sw) [] in
              let '(st', t3) :=
                match batch_to_remove with
                | [] => (Database.sw_store sw, t2)
                | _ =>
                    if dry_run then (Database.sw_store sw, t2)
                    else if active t2
                         then (Database.executemany_delete
                                 (Database.sw_store sw) batch_to_remove, S t2)
                         else (Database.sw_store sw, S t2)
                end in
              worker_loop fuel' dry_run batch_size total_count
                (offset + batch_size) t3
                {| Database.sw_store := st';
                   Database.sw_files := removed_files;
                   Database.sw_errors := errors;
                   Database.sw_processed :=
                     Database.sw_processed sw
                     + Z.of_nat (List.length batch_files) |}
          end
      else Some (sw, t)
  end.

(** [run_cleanup]: the final status, the result, and the table. Leaving
    the [with] block commits what was deleted, also after a
    cancellation. *)
Definition run_cleanup (fuel : nat) (dry_run : bool) (batch_size : Z)
    (st : Database.Store)
  : option (WorkerStatus * CleanupResult * Database.Store) :=
  let total_count := Z.of_nat (List.length (Database.flagged st)) in
  match worker_loop fuel dry_run batch_size total_count 0 0%nat
          {| Database.sw_store := st; Database.sw_files := [];
             Database.sw_errors := []; Database.sw_processed := 0 |} with
  | None => None
  | Some (sw, t) =>
      let t' := if dry_run then t else S t in
      Some (if active t' then completed else cancelled,
            fst (Database.result_of dry_run sw),
            Database.sw_store sw)
  end.

End CleanupWorker.

End Api.

(* ================================================================== *)
(** ** cli/main.py *)

Module Cli.
Import Models.

Section Commands.
Variable timestamp : datetime -> option Z.
Variable plan : list Database.Row -> list Database.Row.

(** The [list] command, named [list_] here; [category] is the choice
    already converted, [None] when the option is not given. The result is
    what is displayed, [None] when the command aborts. *)
Definition list_ (category : option FileCategory) (limit : Z)
    (exists_only : bool) (st : Database.Store) : option (list FileRecord) :=
  let criteria :=
    {| query := None; crit_category := category; min_size := None;
       max_size := None; modified_after := None; modified_before := None;
       Models.limit := Some limit; offset := 0 |} in
  match Database.search_files timestamp plan criteria st with
  | Some results =>
      Some (if exists_only then filter exists_ results else results)
  | None => None
  end.

End Commands.

End Cli.

(* ================================================================== *)
(** ** Sample data *)

Module Samples.
Import Models Scanner Database Api.

(** A world that is just the clock, a function that takes one tick and
    raises, and one that takes one tick and returns. *)
Definition failing : Z -> (unit + string) * Z := fun w => (inr "boom"%string, w + 1).
Definition working : Z -> (unit + string) * Z := fun w => (inl tt, w + 1).

(** A function that is interrupted after one tick, and the test that tells
    the interruption from an [Exception]. *)
Definition interrupted : Z -> (unit + string) * Z :=
  fun w => (inr "KeyboardInterrupt"%string, w + 1).
Definition not_interrupt : string -> bool :=
  fun e => negb (String.eqb e "KeyboardInterrupt").

Definition no_cancel : nat -> bool := fun _ => false.

(** Two small trees: a hidden file next to two plain ones, and a file
    inside a hidden directory. *)
Definition tree_hidden_file : Tree :=
  [ ([".hidden.png"], RegularFile 10 0);
    (["a.jpg"], RegularFile 20 0);
    (["sub"], Directory);
    (["sub"; "b.svg"], RegularFile 30 0) ].

Definition tree_hidden_dir : Tree :=
  [ ([".cache"], Directory);
    ([".cache"; "logo.png"], RegularFile 5 7) ].

Definition default_depth (d : Z) : ScanOptions :=
  {| recursive := true; verbose := false;
     max_depth := Some d; include_hidden := false |}.

Definition ids : Path -> string := String.concat "-".
Definition clock : Path -> datetime := fun _ => 1000.

(** POSIX seconds of a time in microseconds. *)
Definition posix : datetime -> option Z := fun d => Some (d / 1000000).

Definition row (i p : string) (sz m : Z) (e : bool) : Row :=
  {| row_id := i; row_path := p; row_filename := p;
     row_category := GRAPHICS; row_size := sz;
     row_modified_date := m; row_scanned_date := 0;
     row_file_exists := e |}.

Definition any_criteria : SearchCriteria :=
  {| query := None; crit_category := None; min_size := None;
     max_size := None; modified_after := None; modified_before := None;
     limit := None; offset := 0 |}.

Definition with_limit (l : option Z) (o : Z) : SearchCriteria :=
  {| query := None; crit_category := None; min_size := None;
     max_size := None; modified_after := None; modified_before := None;
     limit := l; offset := o |}.

Definition with_sizes (lo hi : Z) : SearchCriteria :=
  {| query := None; crit_category := None; min_size := Some lo;
     max_size := Some hi; modified_after := None; modified_before := None;
     limit := None; offset := 0 |}.

(** Three rows in insertion order; the first two were modified at the
    same time. *)
Definition three_rows : Store :=
  [ row "id1" "/r/a.png" 10 100 true;
    row "id2" "/r/b.png" 20 100 true;
    row "id3" "/r/c.png" 30 200 true ].

Definition inverted_request : Request :=
  {| arg_query := ""; arg_category := ""; arg_min_size := Some 10;
     arg_max_size := Some 5; arg_limit := None; arg_offset := None |}.

Definition record (i p : string) (sz m : Z) : FileRecord :=
  {| id := i; path := p; filename := p; category := GRAPHICS; size := sz;
     modified_date := m; scanned_date := 5000000; exists_ := true |}.

(** A batch that writes the path [/r/a.png] twice, under two ids, and
    reuses the id of a stored row for another path. *)
Definition sample_batch : list FileRecord :=
  [ record "n1" "/r/a.png" 11 1000000;
    record "n2" "/r/a.png" 12 2000000;
    record "id2" "/r/z.png" 13 3000000 ].

(** A batch whose two records have the same id and different paths. *)
Definition shared_id_batch : list FileRecord :=
  [ record "n1" "/r/a.png" 11 1000000;
    record "n1" "/r/b.png" 12 2000000 ].

(** A file system in which [/r/a.png] is gone and everything else is
    there, and one in which nothing is there any more. *)
Definition a_png_gone (p : string) : option bool :=
  Some (negb (String.eqb p "/r/a.png")).

Definition all_gone (p : string) : option bool := Some false.

(** Two rows, both flagged as existing. *)
Definition two_rows : Store :=
  [ Samples.row "id1" "/r/a.png" 10 100 true;
    Samples.row "id2" "/r/b.png" 20 100 true ].

Definition page_request : Request :=
  {| arg_query := "png"; arg_category := "graphics"; arg_min_size := Some 15;
     arg_max_size := None; arg_limit := Some 1; arg_offset := None |}.

(** A function that raises a retryable error until the counter that is
    its world reaches 2, and a function that raises a fatal error. *)
Definition flaky : nat -> (nat + bool) * nat :=
  fun w => if (w <? 2)%nat then (inr true, S w) else (inl w, S w).
Definition fatal : nat -> (nat + bool) * nat := fun w => (inr false, S w).

(** Two rows; the one modified last is flagged as gone. *)
Definition newest_gone : Store :=
  [ Samples.row "id1" "/r/a.png" 10 100 true;
    Samples.row "id2" "/r/b.png" 20 200 false ].

(** A worker flag that is never cleared. *)
Definition always_active : nat -> bool := fun _ => true.

End Samples.

(* ================================================================== *)
(** ** Facts about strings *)

Module StrFacts.
Import Str.

Lemma lower_lower_ascii c : lower_ascii (lower_ascii c) = lower_ascii c.
Proof. destruct c as [[] [] [] [] [] [] [] []]; reflexivity. Qed.

Lemma lower_ascii_dot c : Ascii.eqb (lower_ascii c) "." = Ascii.eqb c ".".
Proof. destruct c as [[] [] [] [] [] [] [] []]; reflexivity. Qed.

Lemma map_map f g s : map f (map g s) = map (fun c => f (g c)) s.
Proof. induction s as [|c s IH]; simpl; [reflexivity|now rewrite IH]. Qed.

Lemma map_ext f g s : (forall c, f c = g c) -> map f s = map g s.
Proof.
  intros E. induction s as [|c s IH]; simpl; [reflexivity|now rewrite IH, E].
Qed.

Lemma lower_lower s : lower (lower s) = lower s.
Proof. unfold lower. rewrite map_map. apply map_ext, lower_lower_ascii. Qed.

Lemma length_map f s : String.length (map f s) = String.length s.
Proof. induction s as [|c s IH]; simpl; [reflexivity|now rewrite IH]. Qed.

Lemma length_app a b :
  String.length (a ++ b) = (String.length a + String.length b)%nat.
Proof. induction a as [|c a IH]; simpl; [reflexivity|now rewrite IH]. Qed.

Lemma rfind_dot_bounds s : -1 <= rfind_dot s < len s.
Proof.
  unfold len. induction s as [|c s IH]; simpl String.length; simpl rfind_dot.
  - lia.
  - destruct (0 <=? rfind_dot s) eqn:E.
    + apply Z.leb_le in E. lia.
    + destruct (Ascii.eqb c "."); lia.
Qed.

Lemma rfind_dot_map f s :
  (forall c, Ascii.eqb (f c) "." = Ascii.eqb c ".") ->
  rfind_dot (map f s) = rfind_dot s.
Proof.
  intros D. induction s as [|c s IH]; simpl; [reflexivity|].
  now rewrite IH, D.
Qed.

Lemma rfind_dot_app a b :
  rfind_dot (a ++ b) =
    if 0 <=? rfind_dot b then len a + rfind_dot b else rfind_dot a.
Proof.
  unfold len. induction a as [|c a IH].
  - simpl. destruct (0 <=? rfind_dot b) eqn:E; [reflexivity|].
    apply Z.leb_gt in E. pose proof (rfind_dot_bounds b). lia.
  - cbn [append rfind_dot String.length]. rewrite IH.
    destruct (0 <=? rfind_dot b) eqn:E.
    + apply Z.leb_le in E.
      replace (0 <=? Z.of_nat (String.length a) + rfind_dot b) with true
        by (symmetry; apply Z.leb_le; lia).
      lia.
    + reflexivity.
Qed.

Lemma take_drop k s : take k s ++ drop k s = s.
Proof.
  revert s. induction k as [|k IH]; intros [|c s]; simpl; try reflexivity.
  now rewrite IH.
Qed.

Lemma length_drop k s :
  String.length (drop k s) = (String.length s - k)%nat.
Proof.
  revert s. induction k as [|k IH]; intros [|c s]; simpl;
    try reflexivity; apply IH.
Qed.

Lemma length_take k s :
  (k <= String.length s)%nat -> String.length (take k s) = k.
Proof.
  revert s. induction k as [|k IH]; intros [|c s]; simpl; intros H;
    try reflexivity; try lia.
  rewrite IH; [reflexivity|lia].
Qed.

Lemma drop_app_length a b : drop (String.length a) (a ++ b) = b.
Proof. induction a as [|c a IH]; simpl; [now destruct b|exact IH]. Qed.

Lemma app_empty_r s : s ++ "" = s.
Proof. induction s as [|c s IH]; simpl; [reflexivity|now rewrite IH]. Qed.

End StrFacts.

(* ================================================================== *)
(** ** Properties of the classifier *)

Module ClassifierFacts.
Import Models.

Example categorize_jpg_upper :
  categorize_file ["photos"; "x.JPG"] = Some GRAPHICS.
Proof. reflexivity. Qed.

Example categorize_hidden_only : categorize_file [".png"] = None.
Proof. reflexivity. Qed.

Lemma name_with_name p n : name (with_name p n) = n.
Proof. unfold name, with_name. apply last_last. Qed.

Lemma dict_get_None {V} (d : list (string * V)) k :
  (forall v, ~ In (k, v) d) -> dict_get d k = None.
Proof.
  induction d as [|[k' v'] d IH]; intros H; simpl; [reflexivity|].
  destruct (String.eqb_spec k' k) as [->|N].
  - exfalso. apply (H v'). now left.
  - apply IH. intros v Hin. apply (H v). now right.
Qed.

End ClassifierFacts.

(* ================================================================== *)
(** ** Properties of the circuit breaker *)

Module BreakerFacts.
Import ErrorHandler Samples.

Section Facts.
Context {W A E : Type}.
Variable time_ : W -> Z.
Variable is_exception : E -> bool.
Local Abbreviation call := (@call W A E time_ is_exception).
Local Abbreviation calls := (@calls W A E time_ is_exception).
Local Abbreviation let_through := (@let_through W time_).
Local Abbreviation always_fails := (@always_fails W A E is_exception).
Local Abbreviation ordinary := (@ordinary W A E is_exception).

Lemma init_inv n t : breaker_inv (init n t).
Proof. split; simpl; [lia|congruence]. Qed.

(** The guard, case by case. *)
Lemma let_through_cases cb w :
  (state cb <> open /\ let_through cb w = Some cb)
  \/ (state cb = open /\ let_through cb w = None)
  \/ (state cb = open /\ let_through cb w = Some (set_state half_open cb)).
Proof.
  unfold let_through. destruct (state cb) eqn:S.
  - left. split; [discriminate|reflexivity].
  - destruct (_should_attempt_reset cb (time_ w)); auto.
  - left. split; [discriminate|reflexivity].
Qed.

(** A call keeps the invariant and the two settings. *)
Lemma call_inv cb func w :
  breaker_inv cb ->
  let '(_, cb', _) := call cb func w in
  breaker_inv cb' /\
  failure_threshold cb' = failure_threshold cb /\
  recovery_timeout cb' = recovery_timeout cb.
Proof.
  intros [Hc Ho]. unfold call.
  destruct (let_through_cases cb w) as [[S ->]|[[S ->]|[S ->]]].
  - destruct (func w) as [[a|e] w']; [|destruct (is_exception e)].
    + split; [split; cbn; [lia|congruence]|split; reflexivity].
    + split; [|split; reflexivity]. split; cbn; [lia|].
      destruct (failure_threshold cb <=? failure_count cb + 1) eqn:T.
      * intros _. now apply Z.leb_le.
      * intros N. specialize (Ho N). lia.
    + split; [split; assumption|split; reflexivity].
  - split; [split; assumption|split; reflexivity].
  - assert (T : failure_threshold cb <= failure_count cb)
      by (apply Ho; congruence).
    destruct (func w) as [[a|e] w']; [|destruct (is_exception e)].
    + split; [split; cbn; [lia|congruence]|split; reflexivity].
    + split; [|split; reflexivity]. split; cbn; [lia|intros _; lia].
    + split; [|split; reflexivity]. split; cbn; [lia|intros _; lia].
Qed.

(** A call whose function returns or raises an [Exception] does not leave
    the breaker half-open, whatever state it finds. *)
Lemma call_not_half_open cb func w :
  breaker_inv cb -> ordinary func ->
  let '(_, cb', _) := call cb func w in state cb' <> half_open.
Proof.
  intros [Hc Ho] Hf. unfold call.
  destruct (let_through_cases cb w) as [[S ->]|[[S ->]|[S ->]]].
  - destruct (func w) as [[a|e] w'] eqn:F; [cbn; discriminate|].
    rewrite (Hf w e w' F). cbn.
    destruct (failure_threshold cb <=? failure_count cb + 1) eqn:T;
      [discriminate|].
    intros N. apply Z.leb_gt in T.
    assert (failure_threshold cb <= failure_count cb)
      by (apply Ho; congruence). lia.
  - congruence.
  - destruct (func w) as [[a|e] w'] eqn:F; [cbn; discriminate|].
    rewrite (Hf w e w' F). cbn.
    assert (failure_threshold cb <= failure_count cb)
      by (apply Ho; congruence).
    replace (failure_threshold cb <=? failure_count cb + 1) with true
      by (symmetry; apply Z.leb_le; lia).
    discriminate.
Qed.

(** Calls one after the other keep the invariant and the settings. *)
Lemma calls_inv funcs : forall cb w,
  breaker_inv cb ->
  let cb' := fst (calls cb funcs w) in
  breaker_inv cb' /\
  failure_threshold cb' = failure_threshold cb /\
  recovery_timeout cb' = recovery_timeout cb.
Proof.
  induction funcs as [|func rest IH]; intros cb w I; cbv zeta.
  - simpl. auto.
  - cbn [ErrorHandler.calls].
    pose proof (call_inv cb func w I) as C.
    destruct (ErrorHandler.call time_ is_exception cb func w) as [[r cb1] w1].
    destruct C as (I1 & T1 & R1).
    destruct (IH cb1 w1 I1) as (a & b & c).
    split; [exact a|split; congruence].
Qed.

(** Failures counted from a closed breaker: below the threshold it stays
    closed, on reaching the threshold it opens. *)
Lemma failures_from_closed funcs :
  Forall always_fails funcs ->
  forall cb w,
    state cb = closed ->
    failure_count cb + Z.of_nat (List.length funcs) <= failure_threshold cb ->
    let '(cb', _) := calls cb funcs w in
    failure_count cb' = failure_count cb + Z.of_nat (List.length funcs) /\
    failure_threshold cb' = failure_threshold cb /\
    (funcs <> [] ->
     state cb' = if failure_threshold cb <=? failure_count cb' then open else closed).
Proof.
  induction 1 as [|func rest Hf _ IH]; intros cb w S B.
  - simpl. split; [lia|split; [reflexivity|congruence]].
  - cbn [ErrorHandler.calls]. unfold ErrorHandler.call, ErrorHandler.let_through.
    rewrite S.
    destruct (Hf w) as (e & w' & -> & ->).
    set (cb1 := _on_failure cb (time_ w')).
    cbn [List.length] in B. rewrite Nat2Z.inj_succ in B.
    assert (C1 : failure_count cb1 = failure_count cb + 1) by reflexivity.
    assert (T1 : failure_threshold cb1 = failure_threshold cb) by reflexivity.
    destruct rest as [|func2 rest2].
    + simpl. split; [lia|split; [reflexivity|]]. intros _. now rewrite S.
    + assert (S1 : state cb1 = closed).
      { simpl. rewrite S.
        replace (failure_threshold cb <=? failure_count cb + 1) with false;
          [reflexivity|]. symmetry. apply Z.leb_gt.
        cbn [List.length] in B. lia. }
      specialize (IH cb1 w' S1).
      destruct (ErrorHandler.calls time_ is_exception cb1 (func2 :: rest2) w')
        as [cb' w''].
      rewrite C1, T1 in IH.
      destruct IH as (I1 & I2 & I3); [lia|].
      cbn [List.length] in *. rewrite !Nat2Z.inj_succ in *.
      split; [lia|split; [lia|]].
      intros _. apply I3. discriminate.
Qed.

(** When the cooldown has elapsed the guard lets the call through with
    the breaker half-open and nothing else changed. *)
Lemma let_through_elapsed cb w t :
  state cb = open -> last_failure_time cb = Some t ->
  recovery_timeout cb <= time_ w - t ->
  let_through cb w = Some (set_state half_open cb).
Proof.
  intros S L C. unfold ErrorHandler.let_through, _should_attempt_reset.
  rewrite S, L.
  now replace (recovery_timeout cb <=? time_ w - t) with true
    by (symmetry; apply Z.leb_le; lia).
Qed.

Lemma call_refused cb func w t :
  state cb = open -> last_failure_time cb = Some t ->
  time_ w - t < recovery_timeout cb ->
  call cb func w = (CircuitOpen, cb, w).
Proof.
  intros S L C.
  unfold ErrorHandler.call, ErrorHandler.let_through, _should_attempt_reset.
  rewrite S, L.
  now replace (recovery_timeout cb <=? time_ w - t) with false
    by (symmetry; apply Z.leb_gt; lia).
Qed.


End Facts.

Example breaker_trace :
  let cb0 := init 2 30 in
  let '(_, cb1, w1) := call (fun w => w) not_interrupt cb0 failing 0 in
  let '(_, cb2, w2) := call (fun w => w) not_interrupt cb1 failing w1 in
  let '(r3, cb3, w3) := call (fun w => w) not_interrupt cb2 working 10 in
  let '(r4, cb4, w4) := call (fun w => w) not_interrupt cb3 working 32 in
  (state cb1, state cb2, last_failure_time cb2, r3, w3, state cb3, r4,
   state cb4, failure_count cb4)
  = (closed, open, Some 2, CircuitOpen, 10, open, Returned tt, closed, 0).
Proof. reflexivity. Qed.

(** The same breaker one second earlier: still refused. *)
Example breaker_trace_boundary :
  let cb2 := _on_failure (_on_failure (init 2 30) 1) 2 in
  (fst (fst (call (fun w => w) not_interrupt cb2 working 31)),
   fst (fst (call (fun w => w) not_interrupt cb2 working 32)))
  = (CircuitOpen, Returned tt).
Proof. reflexivity. Qed.


End BreakerFacts.

(* ================================================================== *)
(** ** Properties of the traversal *)

Module ScannerFacts.
Import Models Scanner Samples.

Section Facts.
Variable root : string.
Variable uuid4 : Path -> string.
Variable now : Path -> datetime.
Variable _cancelled : nat -> bool.
Hypothesis not_cancelled : forall i, _cancelled i = false.

Local Abbreviation get_file_metadata := (get_file_metadata root uuid4 now).
Local Abbreviation scan_loop := (scan_loop root uuid4 now _cancelled).
Local Abbreviation scan_files := (scan_files root uuid4 now _cancelled).

Lemma get_file_metadata_kept options item :
  kept options item = true -> exists r, get_file_metadata item = Some r.
Proof.
  unfold kept, Scanner.get_file_metadata, is_file. intros K.
  destruct (snd item); try discriminate.
  destruct (categorize_file (fst item)).
  - eexists; reflexivity.
  - rewrite andb_false_r in K. discriminate.
Qed.

(** An uncancelled loop yields the records of the kept items, in the
    order of the enumeration. *)
Lemma scan_loop_kept options items : forall i,
  List.map Some (scan_loop options i items)
  = List.map get_file_metadata (filter (kept options) items).
Proof.
  induction items as [|item rest IH]; intros i; [reflexivity|].
  cbn [Scanner.scan_loop filter]. rewrite not_cancelled.
  unfold kept at 1, Scanner.get_file_metadata at 1, is_file.
  destruct item as [p [st_size st_mtime| |]]; cbn [fst snd negb andb];
    try apply IH.
  destruct (include_hidden options); cbn [negb andb orb];
    [|destruct (Str.startswith_dot (name p)); cbn [negb andb];
      [apply IH|]].
  all: destruct (max_depth options) as [d|];
    [rewrite Z.leb_antisym;
     destruct (d <? depth (p, RegularFile st_size st_mtime));
     cbn [negb andb]; [apply IH|]|].
  all: destruct (categorize_file p) eqn:C; cbn [List.map andb];
    [unfold Scanner.get_file_metadata at 1; cbn [fst snd]; rewrite C;
     f_equal|]; apply IH.
Qed.

Lemma in_scan_files tree options r :
  In r (scan_files tree options) <->
  exists item, In item (glob tree (recursive options)) /\
               kept options item = true /\
               get_file_metadata item = Some r.
Proof.
  unfold Scanner.scan_files.
  pose proof (scan_loop_kept options (glob tree (recursive options)) 0%nat) as E.
  split.
  - intros H. apply (in_map Some) in H. rewrite E in H.
    apply in_map_iff in H as (item & M & I).
    apply filter_In in I as [I K]. now exists item.
  - intros (item & I & K & M).
    assert (H : In (Some r) (List.map Some
               (scan_loop options 0%nat (glob tree (recursive options))))).
    { rewrite E, <- M. apply in_map, filter_In. now split. }
    apply in_map_iff in H as (r' & E' & I'). now inversion E'; subst.
Qed.

(** C9. In a recursive walk that leaves hidden names out, a regular
    file with a supported extension whose own name has no leading dot
    is yielded although it lies inside a dot-prefixed directory of the
    root: only the last component of the path is tested. *)
Theorem file_in_hidden_directory_is_yielded
  tree options dir below st_size st_mtime category :
  recursive options = true ->
  include_hidden options = false ->
  Str.startswith_dot dir = true ->
  below <> [] ->
  In (dir :: below, RegularFile st_size st_mtime) tree ->
  Str.startswith_dot (name (dir :: below)) = false ->
  categorize_file (dir :: below) = Some category ->
  (forall d, max_depth options = Some d -> Z.of_nat (List.length below) <= d) ->
  In (create root uuid4 now (dir :: below) st_size st_mtime category)
     (scan_files tree options).
Proof.
  intros R H _ _ I N C D. apply in_scan_files.
  exists (dir :: below, RegularFile st_size st_mtime).
  split; [|split].
  - unfold glob. now rewrite R.
  - unfold kept, is_file, depth. cbn [fst snd List.length].
    rewrite H, N, C. cbn [negb orb andb].
    destruct (max_depth options) as [d|]; [|reflexivity].
    specialize (D d eq_refl). rewrite andb_true_r. apply Z.leb_le. lia.
  - unfold Scanner.get_file_metadata. cbn [fst snd]. now rewrite C.
Qed.

(** C6, as the traversal does it. With [max_depth] set, an uncancelled
    walk yields, in the order of the enumeration, the records of exactly
    those enumerated entries (everything below the root when recursive,
    the root's own entries otherwise) that are regular files of a known
    category, pass the hidden-name test and lie at a depth of at most
    [max_depth], the bound included; with [max_depth = 0] every record
    is that of a file directly inside the root. *)
Theorem depth_limit_inclusive tree options d :
  max_depth options = Some d ->
  (forall r,
      In r (scan_files tree options) <->
      exists item,
        In item (glob tree (recursive options)) /\
        get_file_metadata item = Some r /\
        categorizable_file item = true /\
        (include_hidden options = true \/
         Str.startswith_dot (name (fst item)) = false) /\
        depth item <= d)
  /\ List.map Some (scan_files tree options)
     = List.map get_file_metadata
         (filter (kept options) (glob tree (recursive options)))
  /\ (d = 0 ->
      forall r, In r (scan_files tree options) ->
      exists item, In item tree /\ get_file_metadata item = Some r /\
                   List.length (fst item) = 1%nat).
Proof.
  intros M.
  assert (K : forall item,
             kept options item = true <->
             categorizable_file item = true /\
             (include_hidden options = true \/
              Str.startswith_dot (name (fst item)) = false) /\
             depth item <= d).
  { intros item. unfold kept, categorizable_file. rewrite M.
    rewrite !andb_true_iff, orb_true_iff, negb_true_iff, Z.leb_le. tauto. }
  split; [|split].
  - intros r. rewrite in_scan_files. split.
    + intros (item & I & Kt & E). exists item. apply K in Kt. tauto.
    + intros (item & I & E & Kt). exists item. rewrite K. tauto.
  - apply scan_loop_kept.
  - intros -> r Hr. apply in_scan_files in Hr as (item & I & Kt & E).
    exists item. split; [|split; [exact E|]].
    + unfold glob in I. destruct (recursive options); [exact I|].
      now apply filter_In in I.
    + apply K in Kt as (Kc & _ & Kd). unfold depth in Kd.
      unfold categorizable_file, is_file in Kc.
      destruct item as [p n]. cbn [fst snd] in *.
      destruct p as [|x [|y p']]; cbn [List.length] in *; try lia.
      destruct n; discriminate.
Qed.

End Facts.

Example scan_depth_0 :
  List.map filename
    (scan_files "/r" ids clock no_cancel tree_hidden_file (default_depth 0))
  = ["a.jpg"].
Proof. reflexivity. Qed.

Example scan_depth_1 :
  List.map path
    (scan_files "/r" ids clock no_cancel tree_hidden_file (default_depth 1))
  = ["/r/a.jpg"; "/r/sub/b.svg"].
Proof. reflexivity. Qed.

(** C6 as stated fails: [.hidden.png] is a regular file of a known
    category at depth 0, yet the walk with [max_depth = 0] and the default
    [include_hidden = False] does not yield its record. *)
Lemma depth_limit_hidden_counterexample :
  let item := ([".hidden.png"], RegularFile 10 0) in
  let options := default_depth 0 in
  In item tree_hidden_file
  /\ categorizable_file item = true
  /\ depth item <= 0
  /\ exists r, get_file_metadata "/r" ids clock item = Some r
      /\ ~ In r (scan_files "/r" ids clock no_cancel tree_hidden_file options).
Proof.
  cbv zeta. split; [now left|]. split; [reflexivity|]. split; [discriminate|].
  eexists. split; [reflexivity|].
  cbv. intros [H|[]]. discriminate H.
Qed.

Lemma depth_limit_inclusive_witness :
  List.map Some
    (scan_files "/r" ids clock no_cancel tree_hidden_file (default_depth 0))
  = List.map (get_file_metadata "/r" ids clock)
      (filter (kept (default_depth 0)) (glob tree_hidden_file true)).
Proof.
  apply (depth_limit_inclusive "/r" ids clock no_cancel (fun _ => eq_refl)
           tree_hidden_file (default_depth 0) 0 eq_refl).
Defined.

Lemma file_in_hidden_directory_is_yielded_witness :
  In (create "/r" ids clock [".cache"; "logo.png"] 5 7 GRAPHICS)
     (scan_files "/r" ids clock no_cancel tree_hidden_dir (default_depth 5)).
Proof.
  apply (file_in_hidden_directory_is_yielded "/r" ids clock no_cancel
           (fun _ => eq_refl) tree_hidden_dir (default_depth 5)
           ".cache" ["logo.png"] 5 7 GRAPHICS);
    try reflexivity.
  - discriminate.
  - right. now left.
  - intros d E. inversion E. simpl. lia.
Defined.

End ScannerFacts.

(* ================================================================== *)
(** ** Properties of search *)

Module SearchFacts.
Import Models Database Samples.

Example like_examples :
  like "%B.p%" "/r/b.png" = true /\ like "%b_p%" "/r/b.png" = true
  /\ like "%x%" "/r/b.png" = false.
Proof. repeat split. Qed.

Example sorter_keeps_ties :
  List.map row_id (plan_sorter three_rows) = ["id3"; "id1"; "id2"].
Proof. reflexivity. Qed.

Example index_reverses_ties :
  List.map row_id (plan_index three_rows) = ["id3"; "id2"; "id1"].
Proof. reflexivity. Qed.

(** *** Both plans are orders by [modified_date DESC] *)

Lemma insert_desc_perm r l : Permutation (r :: l) (insert_desc r l).
Proof.
  induction l as [|x l IH]; simpl; [reflexivity|].
  destruct (row_modified_date x <? row_modified_date r); [reflexivity|].
  rewrite perm_swap. now constructor.
Qed.

Lemma insert_asc_perm r l : Permutation (r :: l) (insert_asc r l).
Proof.
  induction l as [|x l IH]; simpl; [reflexivity|].
  destruct (row_modified_date r <? row_modified_date x); [reflexivity|].
  rewrite perm_swap. now constructor.
Qed.

Lemma insert_desc_sorted r l :
  StronglySorted modified_desc l -> StronglySorted modified_desc (insert_desc r l).
Proof.
  induction 1 as [|x l S IH F]; simpl.
  - repeat constructor.
  - destruct (row_modified_date x <? row_modified_date r) eqn:E.
    + apply Z.ltb_lt in E. constructor; [now constructor|].
      constructor; [unfold modified_desc; lia|].
      eapply Forall_impl; [|exact F]. unfold modified_desc. intros; lia.
    + apply Z.ltb_ge in E. constructor; [exact IH|].
      eapply Permutation_Forall; [apply insert_desc_perm|].
      constructor; [exact E|exact F].
Qed.

Lemma insert_asc_sorted r l :
  StronglySorted modified_asc l -> StronglySorted modified_asc (insert_asc r l).
Proof.
  induction 1 as [|x l S IH F]; simpl.
  - repeat constructor.
  - destruct (row_modified_date r <? row_modified_date x) eqn:E.
    + apply Z.ltb_lt in E. constructor; [now constructor|].
      constructor; [unfold modified_asc; lia|].
      eapply Forall_impl; [|exact F]. unfold modified_asc. intros; lia.
    + apply Z.ltb_ge in E. constructor; [exact IH|].
      eapply Permutation_Forall; [apply insert_asc_perm|].
      constructor; [exact E|exact F].
Qed.

Lemma fold_insert_perm (ins : Row -> list Row -> list Row) (l : list Row) :
  (forall r l, Permutation (r :: l) (ins r l)) ->
  Permutation l (fold_right ins [] l).
Proof.
  intros P. induction l as [|x l IH]; simpl; [reflexivity|].
  rewrite <- P. now constructor.
Qed.

Lemma strongly_sorted_snoc (R : Row -> Row -> Prop) l x :
  StronglySorted R l -> Forall (fun y => R y x) l ->
  StronglySorted R (l ++ [x]).
Proof.
  induction 1 as [|y l S IH F]; intros Fx; simpl.
  - repeat constructor.
  - inversion Fx; subst. constructor; [now apply IH|].
    apply Forall_app. split; [exact F|now repeat constructor].
Qed.

Lemma strongly_sorted_rev (R : Row -> Row -> Prop) l :
  StronglySorted R l -> StronglySorted (fun a b => R b a) (rev l).
Proof.
  induction 1 as [|x l S IH F]; simpl; [constructor|].
  apply strongly_sorted_snoc; [exact IH|].
  eapply Permutation_Forall; [apply Permutation_rev|exact F].
Qed.

Lemma plan_sorter_ok : order_by_modified_desc_ok plan_sorter.
Proof.
  intros rows. unfold plan_sorter. split.
  - rewrite (Permutation_rev rows) at 1.
    apply fold_insert_perm, insert_desc_perm.
  - induction (rev rows) as [|x l IH]; simpl; [constructor|].
    now apply insert_desc_sorted.
Qed.

Lemma plan_index_ok : order_by_modified_desc_ok plan_index.
Proof.
  intros rows. unfold plan_index, idx_modified_date. split.
  - rewrite <- Permutation_rev. rewrite (Permutation_rev rows) at 1.
    apply fold_insert_perm, insert_asc_perm.
  - apply (strongly_sorted_rev modified_asc).
    induction (rev rows) as [|x l IH]; simpl; [constructor|].
    now apply insert_asc_sorted.
Qed.

(** *** Pagination *)

Lemma strongly_sorted_skipn (R : Row -> Row -> Prop) n l :
  StronglySorted R l -> StronglySorted R (skipn n l).
Proof.
  intros S. revert n. induction S as [|x l S IH F]; intros [|n]; simpl;
    try constructor; auto.
Qed.

Lemma strongly_sorted_firstn (R : Row -> Row -> Prop) n l :
  StronglySorted R l -> StronglySorted R (firstn n l).
Proof.
  intros S. revert n. induction S as [|x l S IH F]; intros [|n]; simpl;
    try constructor; auto.
  rewrite Forall_forall in *. intros y Hy. apply F.
  eapply In_nth_error in Hy as [k Hk].
  apply nth_error_In with k. rewrite nth_error_firstn in Hk.
  destruct (k <? n)%nat; [exact Hk|discriminate].
Qed.

Lemma strongly_sorted_limit_offset (R : Row -> Row -> Prop) lim off l :
  StronglySorted R l -> StronglySorted R (limit_offset lim off l).
Proof.
  intros S. unfold limit_offset. destruct (lim <? 0).
  - now apply strongly_sorted_skipn.
  - now apply strongly_sorted_firstn, strongly_sorted_skipn.
Qed.

Lemma strongly_sorted_paginate (R : Row -> Row -> Prop) criteria l :
  StronglySorted R l -> StronglySorted R (paginate criteria l).
Proof.
  intros S. unfold paginate. destruct (limit criteria) as [lim|]; [|exact S].
  destruct (lim =? 0); [exact S|].
  destruct (0 <? offset criteria); now apply strongly_sorted_limit_offset.
Qed.

Lemma strongly_sorted_map (R : Row -> Row -> Prop)
      (R' : FileRecord -> FileRecord -> Prop) (f : Row -> FileRecord) l :
  (forall a b, R a b -> R' (f a) (f b)) ->
  StronglySorted R l -> StronglySorted R' (List.map f l).
Proof.
  intros H. induction 1 as [|x l S IH F]; simpl; constructor; auto.
  rewrite Forall_forall in *. intros y Hy.
  apply in_map_iff in Hy as (z & <- & Hz). auto.
Qed.

Section WithEngine.
Variable timestamp : datetime -> option Z.
Variable plan : list Row -> list Row.

Local Abbreviation search_files := (search_files timestamp plan).

(** C7, as the query has it. Whatever way the engine orders by
    [modified_date DESC], the records a search returns are most
    recently modified first; nothing is said of records modified at the
    same time. *)
Theorem search_most_recent_first criteria st records :
  order_by_modified_desc_ok plan ->
  search_files criteria st = Some records ->
  StronglySorted (fun a b => modified_date b <= modified_date a) records.
Proof.
  intros Hplan. unfold Database.search_files.
  destruct (bound timestamp (modified_after criteria)) as [after|];
    [|discriminate].
  destruct (bound timestamp (modified_before criteria)) as [before|];
    [|discriminate].
  intros E. inversion E; subst; clear E.
  apply (strongly_sorted_map modified_desc).
  - unfold modified_desc, _row_to_file_record, fromtimestamp. simpl.
    intros; lia.
  - apply strongly_sorted_paginate, Hplan.
Qed.

(** C10, as the query is built. The offset takes part only under a
    limit that is not zero: with no limit, and with a limit of 0 (which
    the truth test of the limit takes for none), every matching record
    is returned whatever the offset; with a positive limit and offset 0
    the first [limit] matching records are returned, and with a positive
    offset those after the first [offset]. *)
Theorem offset_only_with_limit criteria st after before :
  bound timestamp (modified_after criteria) = Some after ->
  bound timestamp (modified_before criteria) = Some before ->
  let matching := plan (filter (where_clause criteria after before) st) in
  (limit criteria = None ->
   search_files criteria st = Some (List.map _row_to_file_record matching))
  /\ (limit criteria = Some 0 ->
      search_files criteria st = Some (List.map _row_to_file_record matching))
  /\ (forall l, limit criteria = Some l -> 0 < l -> offset criteria = 0 ->
      search_files criteria st
      = Some (List.map _row_to_file_record (firstn (Z.to_nat l) matching)))
  /\ (forall l, limit criteria = Some l -> 0 < l -> 0 < offset criteria ->
      search_files criteria st
      = Some (List.map _row_to_file_record
                (firstn (Z.to_nat l)
                        (skipn (Z.to_nat (offset criteria)) matching)))).
Proof.
  intros Ha Hb matching. unfold Database.search_files. rewrite Ha, Hb.
  fold matching. unfold paginate, limit_offset.
  split; [|split; [|split]].
  - now intros ->.
  - now intros ->.
  - intros l -> Hl Ho. rewrite Ho.
    replace (l =? 0) with false by (symmetry; apply Z.eqb_neq; lia).
    replace (l <? 0) with false by (symmetry; apply Z.ltb_ge; lia).
    reflexivity.
  - intros l -> Hl Ho.
    replace (l =? 0) with false by (symmetry; apply Z.eqb_neq; lia).
    replace (0 <? offset criteria) with true by (symmetry; apply Z.ltb_lt; lia).
    replace (l <? 0) with false by (symmetry; apply Z.ltb_ge; lia).
    reflexivity.
Qed.

(** Sizes the wrong way round select nothing: the query runs and comes
    back empty. *)
Lemma where_clause_inverted_sizes criteria after before lo hi r :
  min_size criteria = Some lo -> max_size criteria = Some hi -> hi < lo ->
  where_clause criteria after before r = false.
Proof.
  intros Hlo Hhi H. unfold where_clause. rewrite Hlo, Hhi.
  destruct (lo <=? row_size r) eqn:E1, (row_size r <=? hi) eqn:E2;
    rewrite ?andb_false_r, ?andb_false_l; try reflexivity.
  apply Z.leb_le in E1, E2. lia.
Qed.

Lemma search_files_inverted_sizes criteria st lo hi :
  order_by_modified_desc_ok plan ->
  modified_after criteria = None -> modified_before criteria = None ->
  min_size criteria = Some lo -> max_size criteria = Some hi -> hi < lo ->
  search_files criteria st = Some [].
Proof.
  intros Hplan Ha Hb Hlo Hhi H. unfold Database.search_files.
  rewrite Ha, Hb. cbn [bound].
  assert (F : filter (where_clause criteria None None) st = []).
  { induction st as [|r st IH]; [reflexivity|]. cbn [filter].
    now rewrite (where_clause_inverted_sizes criteria None None lo hi r). }
  rewrite F.
  assert (P : plan [] = []).
  { destruct (Hplan []) as [P _]. now apply Permutation_nil in P. }
  rewrite P. unfold paginate, limit_offset.
  destruct (limit criteria) as [l|]; [|reflexivity].
  destruct (l =? 0); [reflexivity|].
  destruct (0 <? offset criteria), (l <? 0);
    now rewrite ?skipn_nil, ?firstn_nil.
Qed.

End WithEngine.

Example search_pages :
  option_map (List.map id)
    (search_files posix plan_sorter (with_limit (Some 2) 1) three_rows)
  = Some ["id1"; "id2"]
  /\ option_map (List.map id)
       (search_files posix plan_sorter (with_limit None 2) three_rows)
     = Some ["id3"; "id1"; "id2"].
Proof. split; reflexivity. Qed.

(** C7 as stated fails: walking the index on [modified_date] backwards is
    an order by [modified_date DESC], and it returns the two records
    modified at the same time latest insertion first. *)
Lemma ties_not_in_insertion_order_counterexample :
  order_by_modified_desc_ok plan_index
  /\ List.map row_id three_rows = ["id1"; "id2"; "id3"]
  /\ option_map (List.map (fun r => (id r, modified_date r)))
       (search_files posix plan_index any_criteria three_rows)
     = Some [("id3", 200000000); ("id2", 100000000); ("id1", 100000000)].
Proof. split; [apply plan_index_ok|split; reflexivity]. Qed.

Lemma search_most_recent_first_witness :
  StronglySorted (fun a b => modified_date b <= modified_date a)
    (List.map _row_to_file_record (plan_index three_rows)).
Proof.
  apply (search_most_recent_first posix plan_index any_criteria three_rows).
  - apply plan_index_ok.
  - reflexivity.
Defined.

(** C10 as stated fails: a limit of 0 is set, yet with offset 0 the
    search returns all three records and not a page of none. *)
Lemma limit_zero_counterexample :
  limit (with_limit (Some 0) 0) = Some 0
  /\ offset (with_limit (Some 0) 0) = 0
  /\ option_map (List.map id)
       (search_files posix plan_sorter (with_limit (Some 0) 0) three_rows)
     = Some ["id3"; "id1"; "id2"]
  /\ search_files posix plan_sorter (with_limit (Some 0) 0) three_rows
     <> Some (List.map _row_to_file_record
                (firstn (Z.to_nat 0) (plan_sorter three_rows))).
Proof. repeat split. discriminate. Qed.

Lemma offset_only_with_limit_witness :
  search_files posix plan_sorter (with_limit None 2) three_rows
  = Some (List.map _row_to_file_record (plan_sorter three_rows)).
Proof.
  destruct (offset_only_with_limit posix plan_sorter (with_limit None 2)
              three_rows None None eq_refl eq_refl) as (H & _).
  apply H. reflexivity.
Defined.

End SearchFacts.

(* ================================================================== *)
(** ** Properties of the GET /files handler *)

Module ApiFacts.
Import Models Database Api Samples.

(** C5, as the code has it. A GET /files request whose two sizes are
    given the wrong way round is answered with a validation error that
    does not depend on the store, so before any query; the store's own
    search has no such check: with such criteria it runs the query and
    returns the empty list. *)
Theorem get_files_rejects_inverted_sizes req lo hi :
  arg_min_size req = Some lo -> arg_max_size req = Some hi -> hi < lo ->
  (exists message,
      validate req = inl message /\
      forall timestamp plan st,
        get_files timestamp plan req st = BadRequest400 message)
  /\ (forall timestamp plan criteria st,
        order_by_modified_desc_ok plan ->
        modified_after criteria = None -> modified_before criteria = None ->
        min_size criteria = Some lo -> max_size criteria = Some hi ->
        search_files timestamp plan criteria st = Some []).
Proof.
  intros Hlo Hhi H. split.
  - assert (V : exists message, validate req = inl message).
    { unfold validate. rewrite Hlo, Hhi.
      destruct (_ || _); [eauto|].
      destruct (_ <? 0); [eauto|].
      destruct (lo <? 0); [eauto|].
      destruct (hi <? 0); [eauto|].
      replace (hi <? lo) with true by (symmetry; apply Z.ltb_lt; lia).
      eauto. }
    destruct V as [message V]. exists message. split; [exact V|].
    intros timestamp plan st. unfold get_files. now rewrite V.
  - intros timestamp plan criteria st Hplan Ha Hb Cl Ch.
    now apply (SearchFacts.search_files_inverted_sizes timestamp plan
                 criteria st lo hi).
Qed.

Lemma get_files_rejects_inverted_sizes_witness :
  exists message,
    validate inverted_request = inl message /\
    forall timestamp plan st,
      get_files timestamp plan inverted_request st = BadRequest400 message.
Proof.
  apply (get_files_rejects_inverted_sizes inverted_request 10 5);
    [reflexivity|reflexivity|lia].
Defined.

(** C5 as stated fails on the store's search: with a minimum size above
    the maximum size it does not fail, it returns an empty result. *)
Lemma search_inverted_sizes_counterexample :
  min_size (Samples.with_sizes 10 5) = Some 10
  /\ max_size (Samples.with_sizes 10 5) = Some 5
  /\ search_files Samples.posix plan_sorter (Samples.with_sizes 10 5)
       Samples.three_rows = Some [].
Proof. repeat split. Qed.

End ApiFacts.

(* ================================================================== *)
(** ** Properties of the batch upsert *)

Module UpsertFacts.
Import Models Database Samples.

Lemma conflicts_refl r : conflicts r r = true.
Proof. unfold conflicts. now rewrite String.eqb_refl. Qed.

Lemma executemany_insert_app st a b :
  executemany_insert st (a ++ b)
  = executemany_insert (executemany_insert st a) b.
Proof. apply fold_left_app. Qed.

Lemma filter_filter_and {X} (f g : X -> bool) l :
  filter f (filter g l) = filter (fun x => g x && f x) l.
Proof.
  induction l as [|x l IH]; simpl; [reflexivity|].
  destruct (g x); simpl; [destruct (f x)|]; now rewrite ?IH.
Qed.

Lemma filter_none {X} (f : X -> bool) l :
  (forall x, In x l -> f x = false) -> filter f l = [].
Proof.
  induction l as [|x l IH]; intros H; simpl; [reflexivity|].
  rewrite (H x) by now left. apply IH. intros y Hy. apply H. now right.
Qed.

Lemma clear_of_snoc batch x old :
  clear_of (batch ++ [x]) old = clear_of batch old && negb (conflicts x old).
Proof.
  unfold clear_of. rewrite forallb_app. simpl. now rewrite andb_true_r.
Qed.

(** The rows a batch leaves of a table are those clear of the batch,
    followed by what the batch leaves of an empty table. *)
Lemma executemany_insert_split batch : forall st,
  executemany_insert st batch
  = (filter (clear_of batch) st ++ executemany_insert [] batch)%list.
Proof.
  induction batch as [|x batch IH] using rev_ind; intros st.
  - simpl. rewrite app_nil_r. induction st as [|r st IHst]; simpl; congruence.
  - rewrite !executemany_insert_app. cbn [executemany_insert fold_left].
    rewrite IH. unfold insert_or_replace.
    rewrite filter_app, filter_filter_and, <- app_assoc. f_equal.
    apply filter_ext. intros old. symmetry. apply clear_of_snoc.
Qed.

Lemma in_executemany_insert batch : forall st r,
  In r (executemany_insert st batch) -> In r st \/ In r batch.
Proof.
  induction batch as [|x batch IH] using rev_ind; intros st r H.
  - now left.
  - rewrite executemany_insert_app in H. cbn [executemany_insert fold_left] in H.
    unfold insert_or_replace in H. apply in_app_or in H as [H|[<-|[]]].
    + apply filter_In in H as [H _]. apply IH in H as [H|H]; [now left|].
      right. apply in_or_app. now left.
    + right. apply in_or_app. right. now left.
Qed.

Lemma clear_of_member batch r : In r batch -> clear_of batch r = false.
Proof.
  intros H. unfold clear_of. apply not_true_is_false. intros F.
  rewrite forallb_forall in F. specialize (F r H).
  now rewrite conflicts_refl in F.
Qed.

Lemma executemany_insert_idempotent batch st :
  executemany_insert (executemany_insert st batch) batch
  = executemany_insert st batch.
Proof.
  rewrite (executemany_insert_split batch (executemany_insert st batch)).
  rewrite (executemany_insert_split batch st) at 1.
  rewrite filter_app, filter_filter_and.
  replace (filter (clear_of batch) (executemany_insert [] batch)) with (@nil Row).
  - rewrite app_nil_r, (executemany_insert_split batch st). f_equal.
    apply filter_ext. intros r. now destruct (clear_of batch r).
  - symmetry. apply filter_none. intros r H.
    apply in_executemany_insert in H as [[]|H].
    now apply clear_of_member.
Qed.

(** Last write wins: a row of the result whose path the batch wrote is the
    last tuple of the batch with that path. *)
Lemma executemany_insert_last_wins batch : forall st r,
  In r (executemany_insert st batch) ->
  (exists t, In t batch /\ row_path t = row_path r) ->
  last_with_path (row_path r) batch = Some r.
Proof.
  induction batch as [|x batch IH] using rev_ind; intros st r H (t & Ht & E).
  - destruct Ht.
  - unfold last_with_path. rewrite rev_app_distr. cbn [rev app find].
    rewrite executemany_insert_app in H. cbn [executemany_insert fold_left] in H.
    unfold insert_or_replace in H. apply in_app_or in H as [H|[<-|[]]].
    + apply filter_In in H as [H C]. apply negb_true_iff in C.
      unfold conflicts in C. apply orb_false_elim in C as [_ C].
      rewrite String.eqb_sym in C. rewrite C. apply (IH st r H).
      apply in_app_or in Ht as [Ht|[<-|[]]]; [now exists t|].
      rewrite E, String.eqb_refl in C. discriminate.
    + now rewrite String.eqb_refl.
Qed.

(** The schema's two constraints hold of every table that the upsert
    builds. *)
Lemma nodup_map_filter {X Y} (g : X -> Y) (f : X -> bool) l :
  NoDup (List.map g l) -> NoDup (List.map g (filter f l)).
Proof.
  induction l as [|x l IH]; simpl; intros N; [constructor|].
  inversion N as [|? ? Hx N']; subst.
  destruct (f x); simpl; [constructor|]; auto.
  intros H. apply Hx. apply in_map_iff in H as (y & E & Hy).
  apply filter_In in Hy as [Hy _]. rewrite <- E. now apply in_map.
Qed.

Lemma nodup_snoc {X} (l : list X) x : NoDup l -> ~ In x l -> NoDup (l ++ [x]).
Proof.
  intros N H. apply NoDup_app; [exact N|repeat constructor; intros []|].
  intros a Ha [<-|[]]. contradiction.
Qed.

Lemma insert_or_replace_ok st new :
  store_ok st -> store_ok (insert_or_replace st new).
Proof.
  intros [Ni Np]. unfold store_ok, insert_or_replace. rewrite !map_app.
  split; (apply nodup_snoc; [now apply nodup_map_filter|]);
    intros H; apply in_map_iff in H as (old & E & Hold);
    apply filter_In in Hold as [_ C]; apply negb_true_iff in C;
    unfold conflicts in C; apply orb_false_elim in C as [C1 C2];
    rewrite E, String.eqb_refl in *; discriminate.
Qed.

Lemma executemany_insert_ok batch : forall st,
  store_ok st -> store_ok (executemany_insert st batch).
Proof.
  induction batch as [|x batch IH]; intros st H; [exact H|].
  apply IH, insert_or_replace_ok, H.
Qed.

Section Batch.
Variable timestamp : datetime -> option Z.

Local Abbreviation batch_data_of := (batch_data_of timestamp).
Local Abbreviation _add_files_batch := (_add_files_batch timestamp).
Local Abbreviation add_files_batch := (add_files_batch timestamp).

Lemma batch_data_of_app a b :
  batch_data_of (a ++ b) = (batch_data_of a ++ batch_data_of b)%list.
Proof.
  induction a as [|r a IH]; simpl; [reflexivity|].
  destruct (batch_tuple timestamp r); simpl; now rewrite IH.
Qed.

Lemma add_chunk_insert records st i :
  add_chunk timestamp records st i
  = executemany_insert st
      (batch_data_of (firstn chunk_size (skipn i records))).
Proof.
  unfold add_chunk.
  now destruct (Database.batch_data_of timestamp _).
Qed.

Lemma firstn_add {X} a b (l : list X) :
  firstn (a + b) l = (firstn a l ++ firstn b (skipn a l))%list.
Proof.
  revert l. induction a as [|a IH]; intros [|x l]; simpl;
    rewrite ?firstn_nil; try reflexivity.
  now rewrite IH.
Qed.

Lemma chunks_insert records st n :
  fold_left (add_chunk timestamp records)
            (List.map (fun k => (k * chunk_size)%nat) (seq 0 n)) st
  = executemany_insert st (batch_data_of (firstn (n * chunk_size) records)).
Proof.
  revert st. induction n as [|n IH]; intros st; [reflexivity|].
  rewrite seq_S, map_app, fold_left_app, IH. cbn [List.map fold_left plus].
  rewrite add_chunk_insert, <- executemany_insert_app, <- batch_data_of_app.
  replace (S n * chunk_size)%nat with (n * chunk_size + chunk_size)%nat by lia.
  now rewrite firstn_add.
Qed.

(** The chunks of 100, each with its own [executemany], come to one
    [executemany] of all the tuples. *)
Lemma _add_files_batch_flat records st :
  _add_files_batch records st = executemany_insert st (batch_data_of records).
Proof.
  unfold Database._add_files_batch, chunk_starts. rewrite chunks_insert.
  rewrite firstn_all2; [reflexivity|].
  unfold chunk_size.
  pose proof (Nat.div_mod_eq (List.length records + 100 - 1) 100).
  pose proof (Nat.mod_upper_bound (List.length records + 100 - 1) 100).
  lia.
Qed.

Lemma batch_data_of_origin records t :
  In t (batch_data_of records) ->
  exists record, In record records /\ batch_tuple timestamp record = Some t.
Proof.
  induction records as [|r l IH]; [intros []|].
  cbn [Database.batch_data_of].
  destruct (batch_tuple timestamp r) as [t'|] eqn:E.
  - intros [<-|H].
    + exists r. split; [now left|exact E].
    + destruct (IH H) as (x & Hx & Ex). exists x. split; [now right|exact Ex].
  - intros H. destruct (IH H) as (x & Hx & Ex).
    exists x. split; [now right|exact Ex].
Qed.

Lemma batch_tuple_keys record t :
  batch_tuple timestamp record = Some t ->
  row_id t = id record /\ row_path t = path record.
Proof.
  unfold batch_tuple.
  destruct (timestamp (modified_date record)); [|discriminate].
  destruct (timestamp (scanned_date record)); [|discriminate].
  intros [= <-]. split; reflexivity.
Qed.

(** What a batch leaves of an empty table: the tuples that no later tuple
    stands in the way of. *)
Lemma executemany_insert_survivors batch :
  executemany_insert [] batch = survivors batch.
Proof.
  induction batch as [|t rest IH]; [reflexivity|].
  cbn [executemany_insert fold_left survivors].
  change (fold_left insert_or_replace rest (insert_or_replace [] t))
    with (executemany_insert [t] rest).
  rewrite executemany_insert_split, IH. cbn [filter].
  now destruct (clear_of rest t).
Qed.

Lemma in_survivors a t b :
  clear_of b t = true -> In t (survivors (a ++ t :: b)).
Proof.
  intros C. induction a as [|x a IH]; cbn [app survivors].
  - rewrite C. now left.
  - destruct (clear_of (a ++ t :: b) x); [now right|exact IH].
Qed.

(** The tuple of a record. *)
Lemma batch_tuple_row record m s :
  timestamp (modified_date record) = Some m ->
  timestamp (scanned_date record) = Some s ->
  batch_tuple timestamp record
  = Some {| row_id := id record; row_path := path record;
            row_filename := filename record;
            row_category := category record; row_size := size record;
            row_modified_date := m; row_scanned_date := s;
            row_file_exists := exists_ record |}.
Proof. intros M S. unfold batch_tuple. now rewrite M, S. Qed.

(** A record that no later record of the batch shares its id or its path
    with is stored. *)
Lemma stored_when_clear st before record after t :
  batch_tuple timestamp record = Some t ->
  (forall later, In later after ->
     id later <> id record /\ path later <> path record) ->
  In t (_add_files_batch (before ++ record :: after) st).
Proof.
  intros T L. rewrite _add_files_batch_flat, executemany_insert_split.
  apply in_or_app. right. rewrite executemany_insert_survivors.
  rewrite batch_data_of_app. cbn [Database.batch_data_of]. rewrite T.
  apply in_survivors. unfold clear_of. apply forallb_forall.
  intros t' H. apply batch_data_of_origin in H as (later & Hl & El).
  destruct (batch_tuple_keys later t' El) as [I P].
  destruct (batch_tuple_keys record t T) as [I0 P0].
  destruct (L later Hl) as [Ni Np].
  unfold conflicts. rewrite I, P, I0, P0.
  apply negb_true_iff, orb_false_intro; apply String.eqb_neq; congruence.
Qed.


End Batch.

Example upsert_sample :
  List.map (fun r => (row_id r, row_path r, row_size r))
    (_add_files_batch Samples.posix sample_batch Samples.three_rows)
  = [ ("id3", "/r/c.png", 30); ("n2", "/r/a.png", 12); ("id2", "/r/z.png", 13) ].
Proof. reflexivity. Qed.



End UpsertFacts.

(* ================================================================== *)
(** ** Properties of the two sweeps *)

Module SweepFacts.
Import Models Database Samples.

(** *** Lists *)

Lemma nodup_app_disjoint {X} (a b : list X) x :
  NoDup (a ++ b) -> In x a -> In x b -> False.
Proof.
  induction a as [|y a IH]; simpl; intros N Ha Hb; [exact Ha|].
  inversion N as [|? ? Hy N']; subst. destruct Ha as [->|Ha].
  - apply Hy, in_or_app. now right.
  - now apply IH.
Qed.

Lemma firstn_plus {X} a b (l : list X) :
  firstn (a + b) l = (firstn a l ++ firstn b (skipn a l))%list.
Proof.
  revert l. induction a as [|a IH]; intros [|x l]; simpl;
    rewrite ?firstn_nil; try reflexivity.
  now rewrite IH.
Qed.

(** *** [ORDER BY id] *)

Lemma insert_by_id_perm r l : Permutation (r :: l) (insert_by_id r l).
Proof.
  induction l as [|x l IH]; simpl; [reflexivity|].
  destruct (String.leb (row_id r) (row_id x)); [reflexivity|].
  rewrite perm_swap. now constructor.
Qed.

Lemma order_by_id_perm l : Permutation l (order_by_id l).
Proof.
  induction l as [|r l IH]; simpl; [reflexivity|].
  rewrite <- insert_by_id_perm. now constructor.
Qed.

Lemma insert_by_id_map (f : Row -> Row) r l :
  (forall x, row_id (f x) = row_id x) ->
  insert_by_id (f r) (List.map f l) = List.map f (insert_by_id r l).
Proof.
  intros Hf. induction l as [|x l IH]; simpl; [reflexivity|].
  rewrite !Hf. destruct (String.leb (row_id r) (row_id x)); simpl;
    [reflexivity|now rewrite IH].
Qed.

Lemma order_by_id_map (f : Row -> Row) l :
  (forall x, row_id (f x) = row_id x) ->
  order_by_id (List.map f l) = List.map f (order_by_id l).
Proof.
  intros Hf. induction l as [|r l IH]; simpl; [reflexivity|].
  now rewrite IH, insert_by_id_map.
Qed.

Lemma set_file_exists_same r : set_file_exists (row_file_exists r) r = r.
Proof. now destruct r. Qed.

Section Sweeps.
Variable path_exists : string -> option bool.

Local Abbreviation check_batch := (check_batch path_exists).
Local Abbreviation verify_loop := (verify_loop path_exists).
Local Abbreviation verify_and_update_existence :=
  (verify_and_update_existence path_exists).
Local Abbreviation reconcile := (reconcile path_exists).
Local Abbreviation touched := (touched path_exists).

Lemma reconcile_id r : row_id (reconcile r) = row_id r.
Proof. unfold Database.reconcile. now destruct (path_exists (row_path r)). Qed.

Lemma reconcile_idempotent r : reconcile (reconcile r) = reconcile r.
Proof.
  unfold Database.reconcile. destruct (path_exists (row_path r)) as [b|] eqn:E; simpl.
  - now rewrite E.
  - now rewrite E.
Qed.

Lemma touched_id ids r : row_id (touched ids r) = row_id r.
Proof.
  unfold Database.touched. destruct (existsb _ ids); [apply reconcile_id|reflexivity].
Qed.

Lemma touched_app a b r : touched b (touched a r) = touched (a ++ b) r.
Proof.
  unfold Database.touched at 2 3. rewrite existsb_app.
  destruct (existsb (String.eqb (row_id r)) a) eqn:Ea; simpl.
  - unfold Database.touched. rewrite reconcile_id.
    destruct (existsb _ b); [apply reconcile_idempotent|reflexivity].
  - reflexivity.
Qed.

Lemma touched_outside ids r :
  ~ In (row_id r) ids -> touched ids r = r.
Proof.
  intros H. unfold Database.touched.
  destruct (existsb (String.eqb (row_id r)) ids) eqn:E; [|reflexivity].
  apply existsb_exists in E as (i & Hi & E). apply String.eqb_eq in E.
  subst. contradiction.
Qed.

Lemma touched_inside ids r :
  In (row_id r) ids -> touched ids r = reconcile r.
Proof.
  intros H. unfold Database.touched.
  replace (existsb (String.eqb (row_id r)) ids) with true; [reflexivity|].
  symmetry. apply existsb_exists. exists (row_id r).
  split; [exact H|apply String.eqb_refl].
Qed.

(** One [UPDATE], when the row it names is [r] itself. *)
Lemma update_one s r v :
  (forall r', In r' s -> row_id r' = row_id r -> r' = r) ->
  reconcile r = set_file_exists v r ->
  update_file_exists s (v, row_id r) = List.map (touched [row_id r]) s.
Proof.
  intros Hs Hv. unfold update_file_exists. apply map_ext_in. intros r' Hr'.
  cbn [fst snd]. unfold Database.touched. cbn [existsb]. rewrite orb_false_r.
  destruct (String.eqb_spec (row_id r') (row_id r)) as [E|E]; [|reflexivity].
  rewrite (Hs r' Hr' E). now symmetry.
Qed.

Lemma touch_unchanged s r :
  (forall r', In r' s -> row_id r' = row_id r -> r' = r) ->
  reconcile r = r ->
  s = List.map (touched [row_id r]) s.
Proof.
  intros Hs Hv. rewrite <- (map_id s) at 1. apply map_ext_in. intros r' Hr'.
  unfold Database.touched. cbn [existsb]. rewrite orb_false_r.
  destruct (String.eqb_spec (row_id r') (row_id r)) as [E|E]; [|reflexivity].
  rewrite (Hs r' Hr' E). now symmetry.
Qed.

(** The updates of one batch reconcile the rows of the batch. *)
Lemma update_batch batch_files : forall s,
  NoDup (List.map row_id batch_files) ->
  (forall r r', In r batch_files -> In r' s -> row_id r' = row_id r -> r' = r) ->
  executemany_update s (snd (check_batch batch_files))
  = List.map (touched (List.map row_id batch_files)) s.
Proof.
  induction batch_files as [|r rest IH]; intros s N Hs.
  - simpl. rewrite <- (map_id s) at 1. now apply map_ext.
  - cbn [Database.check_batch List.map].
    inversion N as [|? ? Hr N']; subst.
    assert (Hone : forall r', In r' s -> row_id r' = row_id r -> r' = r)
      by (intros r' Hr'; apply Hs; [now left|exact Hr']).
    assert (Hrest : forall s1,
               s1 = List.map (touched [row_id r]) s ->
               executemany_update s1 (snd (check_batch rest))
               = List.map (touched (row_id r :: List.map row_id rest)) s).
    { intros s1 ->. rewrite IH; [|exact N'|].
      - rewrite List.map_map. apply map_ext. intros r'.
        apply (touched_app [row_id r]).
      - intros r2 r' H2 Hr' E. apply in_map_iff in Hr' as (r0 & <- & H0).
        rewrite touched_id in E.
        rewrite touched_outside.
        + apply (Hs r2 r0); [now right|exact H0|exact E].
        + intros [F|[]]. apply Hr. rewrite F, E. now apply in_map. }
    destruct (Database.check_batch path_exists rest) as [[files errs] updates].
    cbn [snd] in Hrest.
    destruct (path_exists (row_path r)) as [actual|] eqn:P.
    + destruct (Bool.eqb (row_file_exists r) actual) eqn:B; cbn [snd].
      * apply Hrest, touch_unchanged; [exact Hone|].
        unfold Database.reconcile. rewrite P. apply eqb_prop in B. subst actual.
        apply set_file_exists_same.
      * cbn [executemany_update fold_left]. apply Hrest.
        apply update_one; [exact Hone|]. unfold Database.reconcile. now rewrite P.
    + cbn [snd]. apply Hrest, touch_unchanged; [exact Hone|].
      unfold Database.reconcile. now rewrite P.
Qed.

(** *** The loop of [verify_and_update_existence] *)

Section Loop.
Variable dry_run : bool.
Variable batch_size : Z.
Variable st : Store.
Hypothesis ids_distinct : NoDup (List.map row_id st).
Hypothesis batch_size_pos : 1 <= batch_size.

Local Abbreviation sorted_ids := (sorted_ids st).
Local Abbreviation visited := (visited path_exists dry_run st).

Lemma sorted_ids_nodup : NoDup sorted_ids.
Proof.
  unfold Database.sorted_ids.
  eapply Permutation_NoDup; [|exact ids_distinct].
  apply Permutation_map, order_by_id_perm.
Qed.

Lemma sorted_ids_length : List.length sorted_ids = List.length st.
Proof.
  unfold Database.sorted_ids. rewrite length_map. symmetry.
  apply Permutation_length, order_by_id_perm.
Qed.

Lemma page_ids o b :
  List.map row_id (firstn b (skipn o (order_by_id st)))
  = firstn b (skipn o sorted_ids).
Proof. unfold Database.sorted_ids. now rewrite <- firstn_map, <- skipn_map. Qed.

Lemma page_not_visited o b r :
  In r (firstn b (skipn o (order_by_id st))) ->
  ~ In (row_id r) (firstn o sorted_ids).
Proof.
  intros Hr Hin. apply (in_map row_id) in Hr. rewrite page_ids in Hr.
  assert (Hs : In (row_id r) (skipn o sorted_ids)).
  { rewrite <- (firstn_skipn b (skipn o sorted_ids)). apply in_or_app. now left. }
  apply (nodup_app_disjoint (firstn o sorted_ids) (skipn o sorted_ids) (row_id r));
    [rewrite firstn_skipn; apply sorted_ids_nodup|exact Hin|exact Hs].
Qed.

Lemma page_in_store o b r :
  In r (firstn b (skipn o (order_by_id st))) -> In r st.
Proof.
  intros Hr. apply (Permutation_in r (Permutation_sym (order_by_id_perm st))).
  assert (Hs : In r (skipn o (order_by_id st))).
  { rewrite <- (firstn_skipn b (skipn o (order_by_id st))).
    apply in_or_app. now left. }
  rewrite <- (firstn_skipn o (order_by_id st)). apply in_or_app. now right.
Qed.

Lemma page_nodup o b :
  NoDup (List.map row_id (firstn b (skipn o (order_by_id st)))).
Proof.
  rewrite page_ids.
  apply (NoDup_app_remove_r _ (skipn b (skipn o sorted_ids))).
  rewrite firstn_skipn.
  apply (NoDup_app_remove_l (firstn o sorted_ids)).
  rewrite firstn_skipn. apply sorted_ids_nodup.
Qed.

Lemma same_id_same_row r r' :
  In r st -> In r' st -> row_id r' = row_id r -> r' = r.
Proof.
  clear batch_size_pos. revert ids_distinct.
  induction st as [|x l IH]; simpl; intros N Hr Hr' E; [contradiction|].
  inversion N as [|? ? Hx N']; subst.
  destruct Hr as [->|Hr], Hr' as [->|Hr']; try reflexivity.
  - exfalso. apply Hx. rewrite <- E. now apply in_map.
  - exfalso. apply Hx. rewrite E. now apply in_map.
  - now apply IH.
Qed.

(** The page that the loop reads at offset [o] is the page of the table as
    it was before the call. *)
Lemma page_read o :
  limit_offset batch_size (Z.of_nat o) (order_by_id (visited o))
  = firstn (Z.to_nat batch_size) (skipn o (order_by_id st)).
Proof.
  unfold limit_offset, Database.visited.
  replace (batch_size <? 0) with false by (symmetry; apply Z.ltb_ge; lia).
  rewrite Nat2Z.id. destruct dry_run; [reflexivity|].
  rewrite order_by_id_map by apply touched_id.
  rewrite skipn_map, firstn_map.
  rewrite <- (map_id (firstn _ (skipn o (order_by_id st)))) at 2.
  apply map_ext_in. intros r Hr.
  apply touched_outside. now apply page_not_visited with (Z.to_nat batch_size).
Qed.

(** What the loop body makes of the table. *)
Lemma page_written o files errs updates :
  Database.check_batch path_exists
    (firstn (Z.to_nat batch_size) (skipn o (order_by_id st)))
  = (files, errs, updates) ->
  match updates with
  | [] => visited o
  | _ => if dry_run then visited o else executemany_update (visited o) updates
  end = visited (o + Z.to_nat batch_size).
Proof.
  intros C. unfold Database.visited. destruct dry_run; [now destruct updates|].
  set (pg := firstn (Z.to_nat batch_size) (skipn o (order_by_id st))) in *.
  assert (U : executemany_update (List.map (touched (firstn o sorted_ids)) st)
                updates
              = List.map (touched (firstn (o + Z.to_nat batch_size) sorted_ids)) st).
  { replace updates with (snd (check_batch pg)) by now rewrite C.
    rewrite update_batch.
    - rewrite List.map_map, firstn_plus. unfold pg. rewrite <- page_ids.
      apply map_ext. intros r. apply touched_app.
    - apply page_nodup.
    - intros r r' Hr Hr' E. apply in_map_iff in Hr' as (r0 & <- & H0).
      rewrite touched_id in E.
      assert (r0 = r) as ->
        by (apply same_id_same_row; [now apply page_in_store in Hr|exact H0|exact E]).
      apply touched_outside. now apply page_not_visited in Hr. }
  destruct updates; [|exact U]. exact U.
Qed.

Lemma visited_all o :
  (List.length st <= o)%nat ->
  visited o = if dry_run then st else List.map reconcile st.
Proof.
  intros H. unfold Database.visited. destruct dry_run; [reflexivity|].
  rewrite firstn_all2 by (rewrite sorted_ids_length; exact H).
  apply map_ext_in. intros r Hr. apply touched_inside.
  unfold Database.sorted_ids. apply in_map.
  now apply (Permutation_in r (order_by_id_perm st)).
Qed.

(** With fuel for every batch the loop ends, and every row has been
    visited. *)
Lemma verify_loop_ends : forall fuel o sw,
  sw_store sw = visited o ->
  (List.length st - o < fuel)%nat ->
  exists sw',
    verify_loop fuel dry_run batch_size (Z.of_nat (List.length st))
      (Z.of_nat o) sw = Some sw'
    /\ sw_store sw' = if dry_run then st else List.map reconcile st.
Proof.
  induction fuel as [|fuel IH]; intros o sw Hsw Hfuel; [lia|].
  cbn [Database.verify_loop].
  destruct (Z.of_nat o <? Z.of_nat (List.length st)) eqn:Lt.
  - apply Z.ltb_lt in Lt. rewrite Hsw, page_read.
    pose proof (page_written o) as W.
    remember (firstn (Z.to_nat batch_size) (skipn o (order_by_id st))) as pg
      eqn:Epg.
    assert (Lpg : (1 <= List.length pg)%nat).
    { rewrite Epg, length_firstn, length_skipn.
      rewrite <- (Permutation_length (order_by_id_perm st)). lia. }
    clear Epg. destruct pg as [|r0 pg']; [simpl in Lpg; lia|].
    cbv iota beta.
    destruct (Database.check_batch path_exists (r0 :: pg'))
      as [[files errs] updates].
    rewrite (W files errs updates eq_refl).
    replace (Z.of_nat o + batch_size) with (Z.of_nat (o + Z.to_nat batch_size))
      by lia.
    apply IH; [reflexivity|lia].
  - apply Z.ltb_ge in Lt. exists sw. split; [reflexivity|].
    rewrite Hsw. apply visited_all. lia.
Qed.

End Loop.

(** A dry run never writes, whatever the batch size. *)
Lemma verify_loop_dry_run batch_size total_count : forall fuel offset sw sw',
  verify_loop fuel true batch_size total_count offset sw = Some sw' ->
  sw_store sw' = sw_store sw.
Proof.
  induction fuel as [|fuel IH]; intros offset sw sw'; [discriminate|].
  cbn [Database.verify_loop].
  destruct (offset <? total_count); [|now intros [= <-]].
  destruct (limit_offset batch_size offset (order_by_id (sw_store sw)))
    as [|r0 pg']; [now intros [= <-]|].
  destruct (Database.check_batch path_exists (r0 :: pg'))
    as [[files errs] updates].
  intros H. apply IH in H. cbn [sw_store] in H. now destruct updates.
Qed.

(** C1. A dry run that returns leaves the table as it was, row for row,
    whatever the batch size. For a table with distinct ids, a batch size of
    at least 1 and fuel for every batch, both kinds of run return; in the
    table that a run which is not dry leaves, each row is the row it was
    except perhaps for the flag, and the flag has changed exactly when the
    probe of the row's path answered the opposite of the stored flag. *)
Theorem verify_and_update_existence_frame :
  (forall st batch_size fuel result st',
      verify_and_update_existence fuel true batch_size st = Some (result, st') ->
      st' = st)
  /\ (forall st batch_size fuel,
        NoDup (List.map row_id st) ->
        1 <= batch_size ->
        (List.length st < fuel)%nat ->
        (exists result,
            verify_and_update_existence fuel true batch_size st
            = Some (result, st))
        /\ (exists result st',
              verify_and_update_existence fuel false batch_size st
              = Some (result, st')
              /\ Forall2
                   (fun r r' =>
                      r' = set_file_exists (row_file_exists r') r
                      /\ (row_file_exists r' <> row_file_exists r
                          <-> path_exists (row_path r)
                              = Some (negb (row_file_exists r))))
                   st st')).
Proof.
  split.
  - intros st batch_size fuel result st'.
    unfold Database.verify_and_update_existence.
    destruct (Database.verify_loop path_exists fuel true batch_size _ 0 _)
      as [sw'|] eqn:E; [|discriminate].
    apply verify_loop_dry_run in E. cbn [option_map]. unfold result_of.
    intros [= _ <-]. exact E.
  - intros st batch_size fuel N B F. split.
    + destruct (verify_loop_ends true batch_size st N B fuel 0%nat
                  {| sw_store := st; sw_files := []; sw_errors := [];
                     sw_processed := 0 |} eq_refl)
        as (sw' & E & S); [lia|].
      unfold Database.verify_and_update_existence. cbn [Z.of_nat] in E.
      rewrite E. cbn [option_map]. unfold result_of. rewrite S. eauto.
    + destruct (verify_loop_ends false batch_size st N B fuel 0%nat
                  {| sw_store := st; sw_files := []; sw_errors := [];
                     sw_processed := 0 |})
        as (sw' & E & S); [unfold Database.visited; cbn [firstn]|lia|].
      * cbn [sw_store]. rewrite <- (map_id st) at 1. now apply map_ext.
      * unfold Database.verify_and_update_existence. cbn [Z.of_nat] in E.
        rewrite E. cbn [option_map]. unfold result_of. rewrite S.
        eexists. eexists. split; [reflexivity|].
        clear. induction st as [|r l IH]; simpl; constructor; [|exact IH].
        unfold Database.reconcile. destruct (path_exists (row_path r)) as [b|]; simpl.
        -- split; [reflexivity|].
           destruct b, (row_file_exists r); simpl; split; congruence.
        -- split; [symmetry; apply set_file_exists_same|].
           split; [congruence|discriminate].
Qed.

(** *** The dry run of [cleanup_database] *)

Lemma check_missing_files l :
  fst (fst (Database.check_missing path_exists l)) = missing_paths path_exists l.
Proof.
  unfold missing_paths. induction l as [|r l IH]; [reflexivity|].
  cbn [Database.check_missing filter].
  destruct (Database.check_missing path_exists l) as [[files errs] to_remove].
  cbn [fst] in IH. destruct (path_exists (row_path r)) as [[|]|]; simpl;
    now rewrite IH.
Qed.

Lemma missing_paths_app a b :
  missing_paths path_exists (a ++ b)
  = (missing_paths path_exists a ++ missing_paths path_exists b)%list.
Proof. unfold missing_paths. now rewrite filter_app, map_app. Qed.

Lemma cleanup_loop_dry_run batch_size st :
  1 <= batch_size ->
  forall fuel o sw,
    sw_store sw = st ->
    sw_files sw
    = missing_paths path_exists (firstn o (order_by_id (flagged st))) ->
    sw_processed sw
    = Z.of_nat (Nat.min o (List.length (flagged st))) ->
    (List.length (flagged st) - o < fuel)%nat ->
    exists sw',
      Database.cleanup_loop path_exists fuel true batch_size
        (Z.of_nat (List.length (flagged st))) (Z.of_nat o) sw = Some sw'
      /\ sw_store sw' = st
      /\ sw_files sw' = missing_paths path_exists (order_by_id (flagged st))
      /\ sw_processed sw' = Z.of_nat (List.length (flagged st)).
Proof.
  intros B.
  assert (Ln : List.length (order_by_id (flagged st)) = List.length (flagged st))
    by (symmetry; apply Permutation_length, order_by_id_perm).
  induction fuel as [|fuel IH]; intros o sw Hst Hfiles Hproc Hfuel; [lia|].
  cbn [Database.cleanup_loop].
  destruct (Z.of_nat o <? Z.of_nat (List.length (flagged st))) eqn:Lt.
  - apply Z.ltb_lt in Lt. rewrite Hst. unfold limit_offset.
    replace (batch_size <? 0) with false by (symmetry; apply Z.ltb_ge; lia).
    rewrite Nat2Z.id.
    remember (firstn (Z.to_nat batch_size) (skipn o (order_by_id (flagged st))))
      as pg eqn:Epg.
    assert (Lpg : List.length pg
                  = Nat.min (Z.to_nat batch_size) (List.length (flagged st) - o))
      by (now rewrite Epg, length_firstn, length_skipn, Ln).
    pose proof (check_missing_files pg) as F.
    destruct pg as [|r0 pg']; [simpl in Lpg; lia|].
    cbv iota beta.
    destruct (Database.check_missing path_exists (r0 :: pg'))
      as [[files errs] to_remove].
    cbn [fst] in F.
    replace (Z.of_nat o + batch_size) with (Z.of_nat (o + Z.to_nat batch_size))
      by lia.
    apply IH.
    + now destruct to_remove.
    + cbn [sw_files]. rewrite Hfiles, F, Epg, <- missing_paths_app.
      now rewrite firstn_plus.
    + cbn [sw_processed]. rewrite Hproc, Lpg. lia.
    + lia.
  - apply Z.ltb_ge in Lt. exists sw. split; [reflexivity|].
    split; [exact Hst|]. split.
    + rewrite Hfiles, firstn_all2; [reflexivity|lia].
    + rewrite Hproc. f_equal. lia.
Qed.

(** X11. A dry run of the destructive sweep, with a batch size of at least
    1 and fuel for every batch, returns, probes all the flagged rows,
    deletes none, and lists the path of every flagged row whose file is
    gone. *)
Lemma cleanup_database_dry_run st batch_size fuel :
  1 <= batch_size ->
  (List.length (flagged st) < fuel)%nat ->
  exists result,
    Database.cleanup_database path_exists fuel true batch_size st
    = Some (result, st)
    /\ total_checked result = Z.of_nat (List.length (flagged st))
    /\ removed_files result
       = missing_paths path_exists (order_by_id (flagged st))
    /\ (forall r, In r st -> row_file_exists r = true ->
                  path_exists (row_path r) = Some false ->
                  In (row_path r) (removed_files result)).
Proof.
  intros B F.
  destruct (cleanup_loop_dry_run batch_size st B fuel 0%nat
              {| sw_store := st; sw_files := []; sw_errors := [];
                 sw_processed := 0 |} eq_refl eq_refl eq_refl)
    as (sw' & E & S & Fl & P); [lia|].
  unfold Database.cleanup_database. cbn [Z.of_nat] in E. rewrite E.
  cbn [option_map]. unfold result_of. rewrite S.
  eexists. split; [reflexivity|]. cbn [total_checked removed_files].
  split; [exact P|]. split; [exact Fl|].
  intros r Hr Hf Hp. rewrite Fl. unfold missing_paths.
  apply in_map, filter_In. split; [|now rewrite Hp].
  apply (Permutation_in r (order_by_id_perm (flagged st))).
  apply filter_In. now split.
Qed.

End Sweeps.

Example reconcile_sample :
  option_map (fun '(res, st') =>
                (removed_files res, List.map row_file_exists st'))
    (verify_and_update_existence a_png_gone 4 false 2 Samples.three_rows)
  = Some (["/r/a.png"], [false; true; true]).
Proof. reflexivity. Qed.

Lemma verify_and_update_existence_frame_witness :
  (exists result,
      verify_and_update_existence a_png_gone 4 true 2 Samples.three_rows
      = Some (result, Samples.three_rows))
  /\ (exists result st',
        verify_and_update_existence a_png_gone 4 false 2 Samples.three_rows
        = Some (result, st')
        /\ Forall2
             (fun r r' =>
                r' = set_file_exists (row_file_exists r') r
                /\ (row_file_exists r' <> row_file_exists r
                    <-> a_png_gone (row_path r)
                        = Some (negb (row_file_exists r))))
             Samples.three_rows st').
Proof.
  destruct (verify_and_update_existence_frame a_png_gone) as [_ H].
  apply (H Samples.three_rows 2 4%nat).
  - simpl. repeat constructor; simpl; intuition discriminate.
  - lia.
  - simpl. lia.
Defined.

Example cleanup_dry_run_lists_both :
  cleanup_database all_gone 4 true 1 two_rows
  = Some ({| total_checked := 2; removed_count := 2;
             removed_files := ["/r/a.png"; "/r/b.png"]; errors := [];
             dry_run := true |},
          two_rows).
Proof. reflexivity. Qed.

(** C2 fails on the code. Two flagged rows whose files are both gone, a
    batch size of 1, no dry run: the first batch deletes the row of
    [/r/a.png]; the second batch is read at offset 1 of the one flagged row
    that is left, so it is empty and the loop ends. The row of [/r/b.png]
    was never probed and is still in the table, flagged, its file gone. *)
Theorem cleanup_database_skips_rows :
  all_gone "/r/a.png" = Some false
  /\ all_gone "/r/b.png" = Some false
  /\ cleanup_database all_gone 4 false 1 two_rows
     = Some ({| total_checked := 1; removed_count := 1;
                removed_files := ["/r/a.png"]; errors := [];
                dry_run := false |},
             [ Samples.row "id2" "/r/b.png" 20 100 true ]).
Proof. repeat split. Qed.

End SweepFacts.

(* ================================================================== *)
(** ** More on the table: single writes, removal, soft deletion *)

Module StoreFacts.
Import Models Database Samples.

Lemma filter_all {X} (f : X -> bool) l :
  (forall x, In x l -> f x = true) -> filter f l = l.
Proof.
  induction l as [|x l IH]; intros H; simpl; [reflexivity|].
  rewrite (H x) by now left. f_equal. apply IH. intros y Hy. apply H. now right.
Qed.

Lemma store_ok_snoc (l : list Row) x :
  store_ok (l ++ [x])%list ->
  store_ok l /\ forall old, In old l -> conflicts x old = false.
Proof.
  unfold store_ok. rewrite !map_app. cbn [List.map]. intros [Ni Np]. split.
  - split; eapply NoDup_app_remove_r; eassumption.
  - intros old Hold. unfold conflicts. apply orb_false_intro.
    + apply String.eqb_neq. intros E.
      apply (SweepFacts.nodup_app_disjoint _ _ (row_id x) Ni);
        [rewrite <- E; now apply in_map|now left].
    + apply String.eqb_neq. intros E.
      apply (SweepFacts.nodup_app_disjoint _ _ (row_path x) Np);
        [rewrite <- E; now apply in_map|now left].
Qed.

(** A batch whose tuples do not stand in each other's way is stored
    whole. *)
Lemma executemany_insert_whole batch :
  store_ok batch -> executemany_insert [] batch = batch.
Proof.
  induction batch as [|x batch IH] using rev_ind; intros H; [reflexivity|].
  apply store_ok_snoc in H as [H C].
  rewrite UpsertFacts.executemany_insert_app, IH by exact H.
  cbn [executemany_insert fold_left]. unfold insert_or_replace.
  rewrite filter_all; [reflexivity|].
  intros old Hold. now rewrite C.
Qed.

Section WithTimestamp.
Variable timestamp : datetime -> option Z.

Local Abbreviation batch_data_of := (batch_data_of timestamp).
Local Abbreviation _add_files_batch := (_add_files_batch timestamp).

(** X1. The batch upsert keeps the two constraints of the schema: in the
    table it leaves, no two rows share an id and no two rows share a
    path. *)
Theorem add_files_batch_keeps_schema file_records st :
  store_ok st -> store_ok (_add_files_batch file_records st).
Proof.
  intros H. rewrite UpsertFacts._add_files_batch_flat.
  now apply UpsertFacts.executemany_insert_ok.
Qed.

(** X2. A batch whose tuples have pairwise distinct ids and pairwise
    distinct paths is stored whole and in order, after the rows of the
    table that none of its tuples replaces. *)
Theorem add_files_batch_whole file_records st :
  store_ok (batch_data_of file_records) ->
  _add_files_batch file_records st
  = (filter (clear_of (batch_data_of file_records)) st
     ++ batch_data_of file_records)%list.
Proof.
  intros H. rewrite UpsertFacts._add_files_batch_flat.
  rewrite UpsertFacts.executemany_insert_split.
  now rewrite executemany_insert_whole.
Qed.

Lemma in_batch_data_of file_records record t :
  In record file_records -> batch_tuple timestamp record = Some t ->
  In t (batch_data_of file_records).
Proof.
  intros Hin Ht. induction file_records as [|r l IH]; [destruct Hin|].
  cbn [Database.batch_data_of]. destruct Hin as [->|Hin].
  - rewrite Ht. now left.
  - destruct (batch_tuple timestamp r); [right|]; now apply IH.
Qed.

(** X3. Round trip. After the upsert of a batch with pairwise distinct ids
    and paths, a search with no filter and no limit returns, for each record
    of the batch whose timestamps convert, a record with the same id, path,
    file name, category, size and existence flag, and with the stored whole
    seconds as its two times. *)
Theorem upsert_then_search plan file_records st record m s :
  order_by_modified_desc_ok plan ->
  store_ok (batch_data_of file_records) ->
  In record file_records ->
  timestamp (modified_date record) = Some m ->
  timestamp (scanned_date record) = Some s ->
  exists results,
    search_files timestamp plan any_criteria
      (_add_files_batch file_records st) = Some results
    /\ In {| id := id record; path := path record;
             filename := filename record; category := category record;
             size := size record;
             modified_date := fromtimestamp m;
             scanned_date := fromtimestamp s;
             exists_ := exists_ record |} results.
Proof.
  intros Hplan Hok Hin Hm Hs. unfold search_files, any_criteria. cbn.
  eexists. split; [reflexivity|].
  set (t := {| row_id := id record; row_path := path record;
               row_filename := filename record;
               row_category := category record; row_size := size record;
               row_modified_date := m; row_scanned_date := s;
               row_file_exists := exists_ record |}).
  change (In (_row_to_file_record t)
            (List.map _row_to_file_record
               (plan (filter (fun _ => true)
                        (_add_files_batch file_records st))))).
  apply in_map. destruct (Hplan (filter (fun _ => true)
                                   (_add_files_batch file_records st))) as [P _].
  apply (Permutation_in t P). apply filter_In. split; [|reflexivity].
  rewrite UpsertFacts._add_files_batch_flat.
  rewrite UpsertFacts.executemany_insert_split.
  rewrite executemany_insert_whole by exact Hok. apply in_or_app. right.
  apply (in_batch_data_of file_records record); [exact Hin|].
  unfold batch_tuple. now rewrite Hm, Hs.
Qed.

(** X4. A single write and a batch of one. When the timestamps of the
    record convert, [add_file] and [add_files_batch] of the one record do
    the same to the breaker and to the table. When they do not, and the
    breaker lets the call through, neither changes the table, but
    [add_file] raises and counts a failure of the breaker where the batch
    skips the record, returns and resets the breaker. *)
Theorem add_file_versus_batch record cb w :
  (forall t, batch_tuple timestamp record = Some t ->
     add_file timestamp record cb w
     = add_files_batch timestamp [record] cb w)
  /\ (forall cb1, batch_tuple timestamp record = None ->
        ErrorHandler.let_through fst cb w = Some cb1 ->
        (exists e, add_file timestamp record cb w
                   = (ErrorHandler.Raised e,
                      ErrorHandler._on_failure cb1 (fst w), w))
        /\ add_files_batch timestamp [record] cb w
           = (ErrorHandler.Returned tt, ErrorHandler._on_success cb1, w)).
Proof.
  split.
  - intros t Ht. unfold add_file, add_files_batch, ErrorHandler.call.
    destruct (ErrorHandler.let_through fst cb w) as [cb1|]; [|reflexivity].
    unfold _add_file, Database._add_files_batch, chunk_starts, add_chunk.
    cbn. now rewrite Ht.
  - intros cb1 Ht Hl. destruct w as [clock st]. split.
    + unfold add_file, ErrorHandler.call, _add_file. rewrite Hl, Ht.
      eexists. reflexivity.
    + unfold add_files_batch, ErrorHandler.call. rewrite Hl.
      unfold Database._add_files_batch, chunk_starts, add_chunk.
      cbn. now rewrite Ht.
Qed.

End WithTimestamp.

(** *** [remove_file] *)

Lemma count_id_pos st file_id :
  0 < count_id st file_id <-> In file_id (List.map row_id st).
Proof.
  unfold count_id. induction st as [|r st IH]; simpl.
  - split; [lia|intros []].
  - destruct (String.eqb_spec (row_id r) file_id) as [E|E]; simpl.
    + split; [now left|lia].
    + rewrite IH. split; [now right|]. intros [F|F]; [contradiction|exact F].
Qed.

(** X5. [remove_file] answers whether a row had the id; the table it
    leaves is the old one without the rows of that id, in the same order,
    and no row has the id any more, so that a second removal of the same id
    answers [False] and changes nothing. *)
Theorem remove_file_removes st file_id :
  let '(removed, st') := remove_file st file_id in
  (removed = true <-> In file_id (List.map row_id st))
  /\ st' = filter (fun r => negb (String.eqb (row_id r) file_id)) st
  /\ ~ In file_id (List.map row_id st')
  /\ remove_file st' file_id = (false, st').
Proof.
  unfold remove_file.
  assert (Hno : ~ In file_id (List.map row_id (delete_by_id st file_id))).
  { unfold delete_by_id. intros H. apply in_map_iff in H as (r & E & Hr).
    apply filter_In in Hr as [_ Hr]. rewrite E, String.eqb_refl in Hr.
    discriminate. }
  split; [|split; [|split]].
  - rewrite Z.ltb_lt. apply count_id_pos.
  - reflexivity.
  - exact Hno.
  - f_equal.
    + apply Z.ltb_ge. pose proof (count_id_pos (delete_by_id st file_id) file_id).
      destruct (Z_lt_le_dec 0 (count_id (delete_by_id st file_id) file_id));
        [tauto|assumption].
    + unfold delete_by_id. apply filter_all. intros r Hr.
      apply filter_In in Hr as [_ Hr]. exact Hr.
Qed.

(** *** [mark_files_nonexistent] *)

Lemma update_file_exists_ids st upd :
  List.map row_id (update_file_exists st upd) = List.map row_id st.
Proof.
  unfold update_file_exists. rewrite List.map_map. apply map_ext.
  intros r. now destruct (String.eqb (row_id r) (snd upd)).
Qed.

Lemma count_id_update st upd file_id :
  count_id (update_file_exists st upd) file_id = count_id st file_id.
Proof.
  unfold count_id, update_file_exists. f_equal.
  induction st as [|r st IH]; simpl; [reflexivity|].
  assert (E : row_id (if String.eqb (row_id r) (snd upd)
                      then set_file_exists (fst upd) r else r) = row_id r)
    by now destruct (String.eqb (row_id r) (snd upd)).
  rewrite E. destruct (String.eqb (row_id r) file_id); simpl; now rewrite IH.
Qed.

Lemma count_id_le_1 st file_id :
  NoDup (List.map row_id st) -> count_id st file_id <= 1.
Proof.
  unfold count_id. induction st as [|r st IH]; simpl; intros N; [lia|].
  inversion N as [|? ? Hr N']; subst.
  destruct (String.eqb_spec (row_id r) file_id) as [E|E]; simpl.
  - subst. assert (Z : count_id st (row_id r) <= 0).
    { destruct (Z_lt_le_dec 0 (count_id st (row_id r))) as [P|P]; [|exact P].
      apply count_id_pos in P. contradiction. }
    unfold count_id in Z. lia.
  - now apply IH.
Qed.

Lemma mark_fold file_ids : forall n st,
  fold_left
    (fun acc file_id =>
       (fst acc + count_id (snd acc) file_id,
        update_file_exists (snd acc) (false, file_id)))
    file_ids (n, st)
  = (n + fold_right (fun i k => count_id st i + k) 0 file_ids,
     List.map (marked file_ids) st).
Proof.
  induction file_ids as [|i l IH]; intros n st.
  - simpl. f_equal; [lia|]. unfold marked. simpl.
    rewrite <- (map_id st) at 1. now apply map_ext.
  - cbn [fold_left fst snd]. rewrite IH. f_equal.
    + cbn [fold_right]. rewrite Z.add_assoc. f_equal.
      clear IH. induction l as [|j l IHl]; simpl; [reflexivity|].
      now rewrite count_id_update, IHl.
    + unfold update_file_exists. rewrite List.map_map. apply map_ext.
      intros r. unfold marked. cbn [fst snd existsb].
      destruct (String.eqb (row_id r) i) eqn:E; simpl.
      * destruct (existsb _ l); reflexivity.
      * reflexivity.
Qed.

Lemma count_sum_bounds st file_ids :
  NoDup (List.map row_id st) ->
  0 <= fold_right (fun i k => count_id st i + k) 0 file_ids
    <= Z.of_nat (List.length file_ids).
Proof.
  intros N. induction file_ids as [|i l IH]; simpl List.length; simpl fold_right;
    [lia|].
  pose proof (count_id_le_1 st i N).
  assert (0 <= count_id st i) by (unfold count_id; lia). lia.
Qed.

(** X6. [mark_files_nonexistent] leaves the rows in place; a row whose id
    is listed gets the flag 0 and keeps its other fields, every other row is
    as it was. An empty list gives 0. With distinct ids in the table the
    count returned lies between 0 and the number of ids listed. *)
Theorem mark_files_nonexistent_marks st file_ids :
  let '(n, st') := mark_files_nonexistent st file_ids in
  Forall2 (fun r r' =>
             (In (row_id r) file_ids -> r' = set_file_exists false r)
             /\ (~ In (row_id r) file_ids -> r' = r)) st st'
  /\ (file_ids = [] -> n = 0)
  /\ (NoDup (List.map row_id st) ->
      0 <= n <= Z.of_nat (List.length file_ids)).
Proof.
  assert (F : Forall2 (fun r r' =>
                 (In (row_id r) file_ids -> r' = set_file_exists false r)
                 /\ (~ In (row_id r) file_ids -> r' = r))
                st (List.map (marked file_ids) st)).
  { induction st as [|r st IH]; simpl; constructor; [|exact IH].
    unfold marked.
    destruct (existsb (String.eqb (row_id r)) file_ids) eqn:E.
    - split; [reflexivity|]. intros H. exfalso. apply H.
      apply existsb_exists in E as (i & Hi & E). apply String.eqb_eq in E.
      now subst.
    - split; [|reflexivity]. intros H. exfalso.
      assert (T : existsb (String.eqb (row_id r)) file_ids = true).
      { apply existsb_exists. exists (row_id r).
        split; [exact H|apply String.eqb_refl]. }
      congruence. }
  unfold mark_files_nonexistent. destruct file_ids as [|i l] eqn:L.
  - split; [|split; [reflexivity|simpl; lia]].
    replace (List.map (marked []) st) with st in F; [exact F|].
    rewrite <- (map_id st) at 1. now apply map_ext.
  - rewrite <- L in *. rewrite mark_fold.
    split; [exact F|]. split; [intros E; rewrite E in L; discriminate|].
    intros N. rewrite Z.add_0_l. now apply count_sum_bounds.
Qed.

Lemma three_rows_ok : store_ok three_rows.
Proof.
  split; simpl; repeat constructor; simpl; intuition discriminate.
Qed.

Lemma add_files_batch_keeps_schema_witness :
  store_ok (_add_files_batch posix sample_batch three_rows).
Proof.
  apply (add_files_batch_keeps_schema posix sample_batch three_rows).
  apply three_rows_ok.
Defined.

Lemma add_files_batch_whole_witness :
  _add_files_batch posix [record "n9" "/r/q.png" 1 1000000] three_rows
  = (filter (clear_of (batch_data_of posix [record "n9" "/r/q.png" 1 1000000]))
            three_rows
     ++ batch_data_of posix [record "n9" "/r/q.png" 1 1000000])%list.
Proof.
  apply (add_files_batch_whole posix [record "n9" "/r/q.png" 1 1000000]
           three_rows).
  split; simpl; repeat constructor; simpl; intuition.
Defined.

Lemma upsert_then_search_witness :
  exists results,
    search_files posix plan_sorter any_criteria
      (_add_files_batch posix [record "n9" "/r/q.png" 1 1500000] three_rows)
    = Some results
    /\ In {| id := "n9"; path := "/r/q.png"; filename := "/r/q.png";
             category := GRAPHICS; size := 1;
             modified_date := fromtimestamp 1;
             scanned_date := fromtimestamp 5;
             exists_ := true |} results.
Proof.
  apply (upsert_then_search posix plan_sorter
           [record "n9" "/r/q.png" 1 1500000] three_rows
           (record "n9" "/r/q.png" 1 1500000) 1 5).
  - apply SearchFacts.plan_sorter_ok.
  - split; simpl; repeat constructor; simpl; intuition.
  - now left.
  - reflexivity.
  - reflexivity.
Defined.

Lemma add_file_versus_batch_witness :
  add_file posix (record "n9" "/r/q.png" 1 1500000)
    (ErrorHandler.init 5 30) (0, three_rows)
  = add_files_batch posix [record "n9" "/r/q.png" 1 1500000]
      (ErrorHandler.init 5 30) (0, three_rows).
Proof.
  destruct (add_file_versus_batch posix (record "n9" "/r/q.png" 1 1500000)
              (ErrorHandler.init 5 30) (0, three_rows)) as [H _].
  eapply H. reflexivity.
Defined.

Lemma mark_files_nonexistent_marks_witness :
  0 <= fst (mark_files_nonexistent three_rows ["id2"; "nope"]) <= 2.
Proof.
  pose proof (mark_files_nonexistent_marks three_rows ["id2"; "nope"]) as H.
  destruct (mark_files_nonexistent three_rows ["id2"; "nope"]) as [n st'].
  destruct H as (_ & _ & H). apply H.
  simpl. repeat constructor; simpl; intuition discriminate.
Defined.

Example mark_sample :
  let '(n, st') := mark_files_nonexistent three_rows ["id2"; "nope"; "id2"] in
  (n, List.map row_file_exists st') = (2, [true; false; true]).
Proof. reflexivity. Qed.

End StoreFacts.

(* ================================================================== *)
(** ** More on the destructive sweep *)

Module CleanupFacts.
Import Models Database Samples.

(** The rows whose id is not among [ids]. *)
Lemma executemany_delete_filter ids : forall st,
  executemany_delete st ids
  = filter (fun r => negb (existsb (String.eqb (row_id r)) ids)) st.
Proof.
  induction ids as [|i ids IH]; intros st.
  - simpl. symmetry. now apply StoreFacts.filter_all.
  - cbn [executemany_delete fold_left]. fold (executemany_delete (delete_by_id st i) ids).
    rewrite IH. unfold delete_by_id. rewrite UpsertFacts.filter_filter_and.
    apply filter_ext. intros r. cbn [existsb].
    now rewrite negb_orb.
Qed.

Lemma in_limit_offset {X} lim off (l : list X) x :
  In x (limit_offset lim off l) -> In x l.
Proof.
  unfold limit_offset. intros H.
  assert (S : In x (skipn (Z.to_nat off) l)).
  { destruct (lim <? 0); [exact H|].
    rewrite <- (firstn_skipn (Z.to_nat lim) (skipn (Z.to_nat off) l)).
    apply in_or_app. now left. }
  rewrite <- (firstn_skipn (Z.to_nat off) l). apply in_or_app. now right.
Qed.

Section Cleanup.
Variable path_exists : string -> option bool.

Local Abbreviation check_missing := (check_missing path_exists).
Local Abbreviation cleanup_loop := (cleanup_loop path_exists).
Local Abbreviation cleanup_database := (cleanup_database path_exists).

(** What the probe of one batch puts on its two lists. *)
Lemma check_missing_to_remove batch_files :
  let '(files, errs, to_remove) := check_missing batch_files in
  forall i, In i to_remove <->
            exists r, In r batch_files /\ row_id r = i
                      /\ path_exists (row_path r) = Some false.
Proof.
  induction batch_files as [|r l IH]; cbn [Database.check_missing].
  - intros i. split; [intros []|intros (r & [] & _)].
  - destruct (Database.check_missing path_exists l) as [[files errs] to_remove].
    destruct (path_exists (row_path r)) as [[|]|] eqn:P; intros i;
      rewrite ?IH; cbn [In]; rewrite ?IH.
    + split; [intros (x & H & E); exists x; tauto|].
      intros (x & [<-|H] & E & Px); [congruence|exists x; tauto].
    + split.
      * intros [<-|(x & H & E)]; [exists r; tauto|exists x; tauto].
      * intros (x & [<-|H] & E & Px); [now left|right; exists x; tauto].
    + split; [intros (x & H & E); exists x; tauto|].
      intros (x & [<-|H] & E & Px); [congruence|exists x; tauto].
Qed.

Lemma check_missing_listed batch_files r :
  In r batch_files -> path_exists (row_path r) = Some false ->
  In (row_path r) (fst (fst (check_missing batch_files))).
Proof.
  rewrite SweepFacts.check_missing_files. intros H P. unfold missing_paths.
  apply in_map, filter_In. split; [exact H|now rewrite P].
Qed.

Section Safety.
Variable st : Store.
Hypothesis ids_distinct : NoDup (List.map row_id st).

Local Abbreviation safe := (safe path_exists st).

Lemma cleanup_loop_safe dry_run batch_size total_count :
  forall fuel offset sw sw',
    safe sw ->
    cleanup_loop fuel dry_run batch_size total_count offset sw = Some sw' ->
    safe sw'.
Proof.
  induction fuel as [|fuel IH]; intros offset sw sw' S; [discriminate|].
  cbn [Database.cleanup_loop].
  destruct (offset <? total_count); [|now intros [= <-]].
  destruct (limit_offset batch_size offset
              (order_by_id (flagged (sw_store sw))))
    as [|r0 pg'] eqn:Epg; [now intros [= <-]|].
  pose proof (check_missing_to_remove (r0 :: pg')) as R.
  pose proof (check_missing_listed (r0 :: pg')) as L.
  destruct (Database.check_missing path_exists (r0 :: pg'))
    as [[files errs] to_remove].
  cbn [fst] in L. apply IH. clear IH.
  destruct S as (ids & Hst & Hids).
  assert (Hpage : forall r, In r (r0 :: pg') ->
                            In r st /\ row_file_exists r = true).
  { intros r Hr. rewrite <- Epg in Hr. apply in_limit_offset in Hr.
    apply (Permutation_in r (Permutation_sym (SweepFacts.order_by_id_perm _)))
      in Hr.
    apply filter_In in Hr as [Hr Hf]. rewrite Hst in Hr.
    apply filter_In in Hr as [Hr _]. now split. }
  assert (Hold : forall i r, In i ids -> In r st -> row_id r = i ->
                   row_file_exists r = true
                   /\ path_exists (row_path r) = Some false
                   /\ In (row_path r) (sw_files sw ++ files)%list).
  { intros i r Hi Hr E. destruct (Hids i r Hi Hr E) as (A & B & C).
    repeat split; try assumption. apply in_or_app. now left. }
  assert (Hnew : forall i r, In i to_remove -> In r st -> row_id r = i ->
                   row_file_exists r = true
                   /\ path_exists (row_path r) = Some false
                   /\ In (row_path r) (sw_files sw ++ files)%list).
  { intros i r Hi Hr E. apply R in Hi as (x & Hx & Ex & Px).
    destruct (Hpage x Hx) as [Hxs Hxf].
    assert (r = x) as ->
      by (apply (SweepFacts.same_id_same_row st ids_distinct);
          [exact Hxs|exact Hr|congruence]).
    repeat split; try assumption. apply in_or_app. right. now apply L. }
  assert (Keep : safe
            {| sw_store := sw_store sw;
               sw_files := (sw_files sw ++ files)%list;
               sw_errors := (sw_errors sw ++ errs)%list;
               sw_processed :=
                 sw_processed sw
                 + Z.of_nat (List.length (r0 :: pg')) |}).
  { exists ids. split; [exact Hst|exact Hold]. }
  destruct to_remove as [|i0 rm] eqn:Erm; [exact Keep|].
  destruct dry_run; [exact Keep|].
  exists (ids ++ i0 :: rm)%list. cbn [sw_store sw_files]. split.
  - rewrite executemany_delete_filter, Hst, UpsertFacts.filter_filter_and.
    apply filter_ext. intros r. now rewrite existsb_app, negb_orb.
  - intros i r Hi Hr E. apply in_app_or in Hi as [Hi|Hi];
      [now apply (Hold i)|now apply (Hnew i)].
Qed.

End Safety.

(** X7. Whatever the batch size and the mode, a cleanup that returns, on a
    table with distinct ids, leaves the old table without some of its rows,
    the others in their order; a row that is no longer there was flagged as
    existing, its probe said the file is gone, and its path is among the
    paths reported. So no row is lost whose file exists, whose probe
    raised, or that was not flagged. *)
Theorem cleanup_removes_only_missing st fuel dry_run batch_size result st' :
  NoDup (List.map row_id st) ->
  cleanup_database fuel dry_run batch_size st = Some (result, st') ->
  (exists ids,
      st' = filter (fun r => negb (existsb (String.eqb (row_id r)) ids)) st)
  /\ (forall r, In r st ->
        In r st'
        \/ (row_file_exists r = true
            /\ path_exists (row_path r) = Some false
            /\ In (row_path r) (removed_files result))).
Proof.
  intros N. unfold Database.cleanup_database.
  destruct (Database.cleanup_loop path_exists fuel dry_run batch_size _ 0 _)
    as [sw'|] eqn:E; [|discriminate].
  cbn [option_map]. unfold result_of. intros [= <- <-].
  apply (cleanup_loop_safe st N) in E.
  - destruct E as (ids & Hst & Hids). split; [now exists ids|].
    intros r Hr. cbn [removed_files].
    destruct (existsb (String.eqb (row_id r)) ids) eqn:X.
    + right. apply existsb_exists in X as (i & Hi & X).
      apply String.eqb_eq in X. now apply (Hids i).
    + left. rewrite Hst. apply filter_In. split; [exact Hr|now rewrite X].
  - exists []. cbn [sw_store]. split; [|intros i r []].
    symmetry. now apply StoreFacts.filter_all.
Qed.

(** X8. When all the flagged rows fit in one batch, the cleanup does what
    its docstring says: on a table with distinct ids, with fuel for two
    turns of the loop, a run that is not dry returns and leaves exactly the
    rows that are not both flagged and found gone. *)
Theorem cleanup_single_batch st fuel batch_size :
  NoDup (List.map row_id st) ->
  1 <= batch_size ->
  Z.of_nat (List.length (flagged st)) <= batch_size ->
  (2 <= fuel)%nat ->
  exists result,
    cleanup_database fuel false batch_size st
    = Some (result,
            filter (fun r => negb (row_file_exists r
                                   && match path_exists (row_path r) with
                                      | Some false => true
                                      | _ => false
                                      end)) st).
Proof.
  intros N B Fit F. destruct fuel as [|[|fuel]]; try lia.
  unfold Database.cleanup_database. cbn [Database.cleanup_loop sw_store].
  destruct (0 <? Z.of_nat (List.length (flagged st))) eqn:T.
  - unfold limit_offset at 1.
    replace (batch_size <? 0) with false by (symmetry; apply Z.ltb_ge; lia).
    cbn [Z.to_nat skipn].
    rewrite firstn_all2
      by (rewrite <- (Permutation_length (SweepFacts.order_by_id_perm _)); lia).
    pose proof (check_missing_to_remove (order_by_id (flagged st))) as R.
    assert (L : List.length (order_by_id (flagged st))
                = List.length (flagged st))
      by (symmetry; apply Permutation_length, SweepFacts.order_by_id_perm).
    destruct (order_by_id (flagged st)) as [|r0 pg'] eqn:Epg;
      [apply Z.ltb_lt in T; simpl in L; lia|].
    destruct (Database.check_missing path_exists (r0 :: pg'))
      as [[files errs] to_remove].
    replace (0 + batch_size <? Z.of_nat (List.length (flagged st))) with false
      by (symmetry; apply Z.ltb_ge; lia).
    cbn [option_map]. unfold result_of. cbn [sw_store].
    eexists. f_equal. f_equal.
    transitivity (executemany_delete st to_remove);
      [now destruct to_remove|].
    rewrite executemany_delete_filter. apply filter_ext_in. intros r Hr.
    f_equal. apply eq_true_iff_eq.
    rewrite existsb_exists, andb_true_iff. split.
    + intros (i & Hi & Ei). apply String.eqb_eq in Ei. subst i.
      apply R in Hi as (x & Hx & Ex & Px).
      rewrite <- Epg in Hx.
      apply (Permutation_in x (Permutation_sym (SweepFacts.order_by_id_perm _)))
        in Hx.
      apply filter_In in Hx as [Hx Hf].
      assert (r = x) as ->
        by (apply (SweepFacts.same_id_same_row st N); [exact Hx|exact Hr|congruence]).
      now rewrite Px.
    + intros [Hf Hp]. exists (row_id r). split; [|apply String.eqb_refl].
      apply R. exists r. split; [|split; [reflexivity|]].
      * rewrite <- Epg. apply (Permutation_in r (SweepFacts.order_by_id_perm _)).
        apply filter_In. now split.
      * destruct (path_exists (row_path r)) as [[|]|]; congruence.
  - cbn [option_map]. unfold result_of. cbn [sw_store].
    eexists. f_equal. f_equal. symmetry. apply StoreFacts.filter_all.
    intros r Hr. apply Z.ltb_ge in T.
    destruct (row_file_exists r) eqn:Hf; [|reflexivity].
    assert (In r (flagged st)) by (apply filter_In; now split).
    destruct (flagged st); [contradiction|simpl in T; lia].
Qed.

End Cleanup.

Lemma cleanup_removes_only_missing_witness :
  exists ids,
    [ row "id2" "/r/b.png" 20 100 true ]
    = filter (fun r => negb (existsb (String.eqb (row_id r)) ids)) two_rows.
Proof.
  apply (cleanup_removes_only_missing all_gone two_rows 4 false 1
           {| total_checked := 1; removed_count := 1;
              removed_files := ["/r/a.png"]; errors := [];
              dry_run := false |}
           [ row "id2" "/r/b.png" 20 100 true ]).
  - simpl. repeat constructor; simpl; intuition discriminate.
  - reflexivity.
Defined.

Lemma cleanup_single_batch_witness :
  exists result,
    cleanup_database all_gone 4 false 2 two_rows
    = Some (result,
            filter (fun r => negb (row_file_exists r
                                   && match all_gone (row_path r) with
                                      | Some false => true
                                      | _ => false
                                      end)) two_rows).
Proof.
  apply (cleanup_single_batch all_gone two_rows 4 2).
  - simpl. repeat constructor; simpl; intuition discriminate.
  - lia.
  - simpl. lia.
  - lia.
Defined.

Lemma cleanup_database_dry_run_witness :
  exists result,
    cleanup_database all_gone 4 true 1 two_rows = Some (result, two_rows)
    /\ total_checked result = Z.of_nat (List.length (flagged two_rows))
    /\ removed_files result
       = missing_paths all_gone (order_by_id (flagged two_rows))
    /\ (forall r, In r two_rows -> row_file_exists r = true ->
                  all_gone (row_path r) = Some false ->
                  In (row_path r) (removed_files result)).
Proof.
  apply (SweepFacts.cleanup_database_dry_run all_gone two_rows 1 4).
  - lia.
  - simpl. lia.
Defined.

End CleanupFacts.

(* ================================================================== *)
(** ** More on the flag-only sweep *)

Module ReconcileFacts.
Import Models Database Samples.

Section Reconcile.
Variable path_exists : string -> option bool.

Local Abbreviation verify_and_update_existence :=
  (verify_and_update_existence path_exists).
Local Abbreviation changed_paths := (changed_paths path_exists).
Local Abbreviation reconcile := (reconcile path_exists).

Lemma check_batch_files l :
  fst (fst (Database.check_batch path_exists l)) = changed_paths l.
Proof.
  unfold Database.changed_paths. induction l as [|r l IH]; [reflexivity|].
  cbn [Database.check_batch filter].
  destruct (Database.check_batch path_exists l) as [[files errs] updates].
  cbn [fst] in IH. destruct (path_exists (row_path r)) as [b|]; [|exact IH].
  destruct (Bool.eqb (row_file_exists r) b); simpl; now rewrite IH.
Qed.

Lemma check_batch_errors l :
  snd (fst (Database.check_batch path_exists l)) = probe_errors path_exists l.
Proof.
  unfold probe_errors. induction l as [|r l IH]; [reflexivity|].
  cbn [Database.check_batch filter].
  destruct (Database.check_batch path_exists l) as [[files errs] updates].
  cbn [fst snd] in IH. destruct (path_exists (row_path r)) as [b|].
  - now destruct (Bool.eqb (row_file_exists r) b).
  - simpl. now rewrite IH.
Qed.

Lemma probe_errors_app a b :
  probe_errors path_exists (a ++ b)
  = (probe_errors path_exists a ++ probe_errors path_exists b)%list.
Proof. unfold probe_errors. now rewrite filter_app, map_app. Qed.

Lemma changed_paths_app a b :
  changed_paths (a ++ b) = (changed_paths a ++ changed_paths b)%list.
Proof. unfold Database.changed_paths. now rewrite filter_app, map_app. Qed.

(** The loop of [verify_and_update_existence], with what it reports. *)
Lemma verify_loop_report dry_run batch_size st :
  NoDup (List.map row_id st) ->
  1 <= batch_size ->
  forall fuel o sw,
    sw_store sw = visited path_exists dry_run st o ->
    sw_files sw = changed_paths (firstn o (order_by_id st)) ->
    sw_errors sw = probe_errors path_exists (firstn o (order_by_id st)) ->
    sw_processed sw = Z.of_nat (Nat.min o (List.length st)) ->
    (List.length st - o < fuel)%nat ->
    exists sw',
      Database.verify_loop path_exists fuel dry_run batch_size
        (Z.of_nat (List.length st)) (Z.of_nat o) sw = Some sw'
      /\ sw_store sw' = (if dry_run then st else List.map reconcile st)
      /\ sw_files sw' = changed_paths (order_by_id st)
      /\ sw_errors sw' = probe_errors path_exists (order_by_id st)
      /\ sw_processed sw' = Z.of_nat (List.length st).
Proof.
  intros N B.
  assert (Ln : List.length (order_by_id st) = List.length st)
    by (symmetry; apply Permutation_length, SweepFacts.order_by_id_perm).
  induction fuel as [|fuel IH]; intros o sw Hsw Hfiles Herrs Hproc Hfuel; [lia|].
  cbn [Database.verify_loop].
  destruct (Z.of_nat o <? Z.of_nat (List.length st)) eqn:Lt.
  - apply Z.ltb_lt in Lt.
    rewrite Hsw, (SweepFacts.page_read path_exists dry_run batch_size st N B).
    pose proof (SweepFacts.page_written path_exists dry_run batch_size st N o)
      as W.
    remember (firstn (Z.to_nat batch_size) (skipn o (order_by_id st))) as pg
      eqn:Epg.
    assert (Lpg : List.length pg
                  = Nat.min (Z.to_nat batch_size) (List.length st - o))
      by (now rewrite Epg, length_firstn, length_skipn, Ln).
    pose proof (check_batch_files pg) as F.
    pose proof (check_batch_errors pg) as G.
    destruct pg as [|r0 pg']; [simpl in Lpg; lia|].
    cbv iota beta.
    destruct (Database.check_batch path_exists (r0 :: pg'))
      as [[files errs] updates].
    cbn [fst snd] in F, G. rewrite (W files errs updates eq_refl).
    replace (Z.of_nat o + batch_size) with (Z.of_nat (o + Z.to_nat batch_size))
      by lia.
    apply IH.
    + reflexivity.
    + cbn [sw_files]. rewrite Hfiles, F, Epg, <- changed_paths_app.
      now rewrite SweepFacts.firstn_plus.
    + cbn [sw_errors]. rewrite Herrs, G, Epg, <- probe_errors_app.
      now rewrite SweepFacts.firstn_plus.
    + cbn [sw_processed]. rewrite Hproc, Lpg. lia.
    + lia.
  - apply Z.ltb_ge in Lt. exists sw. split; [reflexivity|].
    split; [|split; [|split]].
    + rewrite Hsw. apply SweepFacts.visited_all. lia.
    + rewrite Hfiles, firstn_all2; [reflexivity|lia].
    + rewrite Herrs, firstn_all2; [reflexivity|lia].
    + rewrite Hproc. f_equal. lia.
Qed.

Lemma verify_report dry_run batch_size st fuel :
  NoDup (List.map row_id st) ->
  1 <= batch_size ->
  (List.length st < fuel)%nat ->
  verify_and_update_existence fuel dry_run batch_size st
  = Some ({| total_checked := Z.of_nat (List.length st);
             removed_count :=
               Z.of_nat (List.length (changed_paths (order_by_id st)));
             removed_files := changed_paths (order_by_id st);
             errors := probe_errors path_exists (order_by_id st);
             Models.dry_run := dry_run |},
          if dry_run then st else List.map reconcile st).
Proof.
  intros N B F.
  destruct (verify_loop_report dry_run batch_size st N B fuel 0%nat
              {| sw_store := st; sw_files := []; sw_errors := [];
                 sw_processed := 0 |})
    as (sw' & E & S & Fl & Er & P).
  - unfold visited. cbn [sw_store firstn]. destruct dry_run; [reflexivity|].
    rewrite <- (map_id st) at 1. now apply map_ext.
  - reflexivity.
  - reflexivity.
  - reflexivity.
  - lia.
  - unfold Database.verify_and_update_existence. cbn [Z.of_nat] in E.
    rewrite E. cbn [option_map]. unfold result_of.
    now rewrite S, Fl, Er, P.
Qed.

(** X9. The report of the flag-only sweep. For a table with distinct ids,
    a batch size of at least 1 and fuel for every batch, the dry run and
    the run that is not dry report the same thing: every row was checked,
    and the paths listed are, in the order of the ids, those of the rows
    whose flag the probe contradicts; the count is their number. *)
Theorem verify_reports_changes st batch_size fuel :
  NoDup (List.map row_id st) ->
  1 <= batch_size ->
  (List.length st < fuel)%nat ->
  exists preview result st',
    verify_and_update_existence fuel true batch_size st = Some (preview, st)
    /\ verify_and_update_existence fuel false batch_size st = Some (result, st')
    /\ removed_files preview = changed_paths (order_by_id st)
    /\ removed_files result = removed_files preview
    /\ removed_count result = Z.of_nat (List.length (removed_files result))
    /\ errors result = probe_errors path_exists (order_by_id st)
    /\ total_checked result = Z.of_nat (List.length st)
    /\ total_checked preview = Z.of_nat (List.length st).
Proof.
  intros N B F.
  rewrite (verify_report true batch_size st fuel N B F).
  rewrite (verify_report false batch_size st fuel N B F).
  do 3 eexists. repeat split.
Qed.

Lemma changed_paths_reconciled rows :
  (forall r, In r rows -> reconcile r = r) -> changed_paths rows = [].
Proof.
  intros H. unfold Database.changed_paths.
  rewrite UpsertFacts.filter_none; [reflexivity|].
  intros r Hr. specialize (H r Hr). unfold Database.reconcile in H.
  destruct (path_exists (row_path r)) as [b|]; [|reflexivity].
  rewrite <- H. cbn [set_file_exists row_file_exists].
  now rewrite Bool.eqb_reflx.
Qed.

(** X10. The flag-only sweep settles: under the same file system, a
    second run right after a run that was not dry reports no change and
    leaves the table as the first run left it. *)
Theorem verify_twice st batch_size fuel :
  NoDup (List.map row_id st) ->
  1 <= batch_size ->
  (List.length st < fuel)%nat ->
  exists first st' second,
    verify_and_update_existence fuel false batch_size st = Some (first, st')
    /\ verify_and_update_existence fuel false batch_size st' = Some (second, st')
    /\ removed_files second = []
    /\ removed_count second = 0.
Proof.
  intros N B F.
  pose proof (verify_report false batch_size st fuel N B F) as R1.
  assert (N' : NoDup (List.map row_id (List.map reconcile st))).
  { rewrite List.map_map.
    rewrite (map_ext _ row_id (SweepFacts.reconcile_id path_exists)).
    exact N. }
  assert (F' : (List.length (List.map reconcile st) < fuel)%nat)
    by now rewrite length_map.
  pose proof (verify_report false batch_size _ fuel N' B F') as R2.
  assert (C : changed_paths (order_by_id (List.map reconcile st)) = []).
  { apply changed_paths_reconciled. intros r Hr.
    apply (Permutation_in r (Permutation_sym (SweepFacts.order_by_id_perm _)))
      in Hr.
    apply in_map_iff in Hr as (r0 & <- & _).
    apply SweepFacts.reconcile_idempotent. }
  assert (I : List.map reconcile (List.map reconcile st) = List.map reconcile st).
  { rewrite List.map_map. apply map_ext.
    intros r. apply SweepFacts.reconcile_idempotent. }
  rewrite C in R2. cbv iota in R1, R2. rewrite I in R2.
  do 3 eexists. split; [exact R1|]. split; [exact R2|]. split; reflexivity.
Qed.

End Reconcile.

Lemma verify_reports_changes_witness :
  exists preview result st',
    verify_and_update_existence a_png_gone 4 true 2 three_rows
    = Some (preview, three_rows)
    /\ verify_and_update_existence a_png_gone 4 false 2 three_rows
       = Some (result, st')
    /\ removed_files preview
       = changed_paths a_png_gone (order_by_id three_rows)
    /\ removed_files result = removed_files preview
    /\ removed_count result = Z.of_nat (List.length (removed_files result))
    /\ errors result = probe_errors a_png_gone (order_by_id three_rows)
    /\ total_checked result = Z.of_nat (List.length three_rows)
    /\ total_checked preview = Z.of_nat (List.length three_rows).
Proof.
  apply (verify_reports_changes a_png_gone three_rows 2 4).
  - simpl. repeat constructor; simpl; intuition discriminate.
  - lia.
  - simpl. lia.
Defined.

Lemma verify_twice_witness :
  exists first st' second,
    verify_and_update_existence a_png_gone 4 false 2 three_rows
    = Some (first, st')
    /\ verify_and_update_existence a_png_gone 4 false 2 st' = Some (second, st')
    /\ removed_files second = []
    /\ removed_count second = 0.
Proof.
  apply (verify_twice a_png_gone three_rows 2 4).
  - simpl. repeat constructor; simpl; intuition discriminate.
  - lia.
  - simpl. lia.
Defined.

End ReconcileFacts.

(* ================================================================== *)
(** ** More on search *)

Module QueryFacts.
Import Models Database Samples.

(** *** [LIKE] *)

Lemma like_percent_eq p s :
  like (String "%" p) s
  = like p s || match s with
                | EmptyString => false
                | String _ s' => like (String "%" p) s'
                end.
Proof. destruct s; reflexivity. Qed.

Lemma like_any s : like "%" s = true.
Proof.
  induction s as [|c s IH]; rewrite like_percent_eq; [reflexivity|].
  rewrite IH. apply orb_true_r.
Qed.

Lemma like_lead p a : forall s,
  like p s = true -> like (String "%" p) (a ++ s) = true.
Proof.
  induction a as [|c a IH]; intros s H; rewrite like_percent_eq; cbn [append].
  - now rewrite H.
  - rewrite (IH s H). apply orb_true_r.
Qed.

Lemma lower_ascii_percent d :
  Str.lower_ascii d = "%"%char -> d = "%"%char.
Proof.
  destruct d as [[] [] [] [] [] [] [] []]; cbv; intros H; try reflexivity;
    discriminate H.
Qed.

Lemma like_tail q : forall s b,
  Str.lower s = Str.lower q -> like (q ++ "%") (s ++ b) = true.
Proof.
  induction q as [|c q IH]; intros s b E.
  - destruct s; [|discriminate E]. apply like_any.
  - destruct s as [|d s]; [discriminate E|].
    cbn [Str.lower Str.map] in E. injection E as Ec Es.
    specialize (IH s b Es). cbn [append].
    destruct (Ascii.eqb c "%") eqn:P.
    + apply Ascii.eqb_eq in P. subst c.
      rewrite like_percent_eq. cbn [append].
      rewrite like_percent_eq, IH. apply orb_true_r.
    + cbn [like]. rewrite P, IH, Ec, Ascii.eqb_refl.
      now rewrite orb_true_r.
Qed.

(** X12. The text filter finds what it is asked for and more: a text that
    contains the query, letters compared without their case, matches the
    pattern that [search_files] builds from the query; and since [%] and [_]
    of the query are left as wildcards, the query [%] matches every
    text. *)
Theorem like_contains q a s b :
  (Str.lower s = Str.lower q ->
   like ("%" ++ q ++ "%") (a ++ s ++ b) = true)
  /\ (forall text, like ("%" ++ "%" ++ "%") text = true).
Proof.
  split.
  - intros E. cbn [append]. apply like_lead. now apply like_tail.
  - intros text. cbn [append]. apply (like_lead _ "" text).
    apply (like_lead _ "" text). apply like_any.
Qed.

Lemma like_contains_witness :
  like ("%" ++ "LOGO" ++ "%") ("/r/" ++ "logo" ++ ".png") = true.
Proof.
  destruct (like_contains "LOGO" "/r/" "logo" ".png") as [H _].
  apply H. reflexivity.
Defined.

(** *** Results *)

Lemma in_paginate criteria rows r :
  In r (paginate criteria rows) -> In r rows.
Proof.
  unfold paginate. destruct (limit criteria) as [l|]; [|auto].
  destruct (l =? 0); [auto|].
  destruct (0 <? offset criteria); apply CleanupFacts.in_limit_offset.
Qed.

Section WithEngine.
Variable timestamp : datetime -> option Z.
Variable plan : list Row -> list Row.
Hypothesis plan_ok : order_by_modified_desc_ok plan.

Local Abbreviation search_files := (search_files timestamp plan).

(** The records of a search come from rows that pass the filters. *)
Lemma search_rows criteria st results rec :
  search_files criteria st = Some results -> In rec results ->
  exists r after before,
    In r st /\ where_clause criteria after before r = true
    /\ rec = _row_to_file_record r.
Proof.
  unfold Database.search_files.
  destruct (bound timestamp (modified_after criteria)) as [after|];
    [|discriminate].
  destruct (bound timestamp (modified_before criteria)) as [before|];
    [|discriminate].
  intros [= <-] H. apply in_map_iff in H as (r & <- & H).
  apply in_paginate in H.
  apply (Permutation_in r (Permutation_sym (proj1 (plan_ok _)))) in H.
  apply filter_In in H as [H Wc]. now exists r, after, before.
Qed.

Lemma search_length criteria st results l :
  limit criteria = Some l -> 0 < l ->
  search_files criteria st = Some results ->
  Z.of_nat (List.length results) <= l.
Proof.
  intros L P. unfold Database.search_files.
  destruct (bound timestamp (modified_after criteria)); [|discriminate].
  destruct (bound timestamp (modified_before criteria)); [|discriminate].
  intros [= <-]. rewrite length_map. unfold paginate, limit_offset. rewrite L.
  replace (l =? 0) with false by (symmetry; apply Z.eqb_neq; lia).
  replace (l <? 0) with false by (symmetry; apply Z.ltb_ge; lia).
  destruct (0 <? offset criteria); rewrite length_firstn; lia.
Qed.

(** X13. A search invents nothing and, without a limit, loses nothing:
    every record returned is the record of a row of the table that passes
    every filter given; and when the limit is absent or 0, the records
    returned are those of the matching rows, each once. *)
Theorem search_sound_and_complete criteria st results :
  search_files criteria st = Some results ->
  exists after before,
    bound timestamp (modified_after criteria) = Some after
    /\ bound timestamp (modified_before criteria) = Some before
    /\ (forall rec, In rec results ->
          exists r, In r st /\ where_clause criteria after before r = true
                    /\ rec = _row_to_file_record r)
    /\ (limit criteria = None \/ limit criteria = Some 0 ->
        Permutation
          (List.map _row_to_file_record
             (filter (where_clause criteria after before) st))
          results).
Proof.
  unfold Database.search_files.
  destruct (bound timestamp (modified_after criteria)) as [after|];
    [|discriminate].
  destruct (bound timestamp (modified_before criteria)) as [before|];
    [|discriminate].
  intros [= <-]. exists after, before. repeat split.
  - intros rec H. apply in_map_iff in H as (r & <- & H).
    apply in_paginate in H.
    apply (Permutation_in r (Permutation_sym (proj1 (plan_ok _)))) in H.
    apply filter_In in H as [H W]. now exists r.
  - intros L. apply Permutation_map.
    replace (paginate criteria _) with
      (plan (filter (where_clause criteria after before) st)).
    + apply plan_ok.
    + unfold paginate. now destruct L as [-> | ->].
Qed.

(** X14. With a positive limit a search returns at most [limit]
    records. *)
Theorem search_at_most_limit criteria st results l :
  limit criteria = Some l -> 0 < l ->
  search_files criteria st = Some results ->
  Z.of_nat (List.length results) <= l.
Proof.
  intros L P. unfold Database.search_files.
  destruct (bound timestamp (modified_after criteria)); [|discriminate].
  destruct (bound timestamp (modified_before criteria)); [|discriminate].
  intros [= <-]. rewrite length_map. unfold paginate, limit_offset. rewrite L.
  replace (l =? 0) with false by (symmetry; apply Z.eqb_neq; lia).
  replace (l <? 0) with false by (symmetry; apply Z.ltb_ge; lia).
  destruct (0 <? offset criteria); rewrite length_firstn; lia.
Qed.

(** X15. Pages tile the result. For a positive page size [l] and an
    offset [o >= 0], the page at [o] followed by the page at [o + l] is the
    page of size [2 l] at [o]: consecutive pages neither overlap nor leave a
    record out. *)
Theorem search_pages_tile criteria st l o first second :
  0 < l -> 0 <= o ->
  search_files (with_page criteria l o) st = Some first ->
  search_files (with_page criteria l (o + l)) st = Some second ->
  search_files (with_page criteria (2 * l) o) st = Some (first ++ second)%list.
Proof.
  intros Hl Ho. unfold Database.search_files. cbn [with_page modified_after
                                                     modified_before].
  destruct (bound timestamp (modified_after criteria)) as [after|];
    [|discriminate].
  destruct (bound timestamp (modified_before criteria)) as [before|];
    [|discriminate].
  assert (W : forall l' o',
             where_clause (with_page criteria l' o') after before
             = where_clause criteria after before) by reflexivity.
  rewrite !W.
  set (rows := plan (filter (where_clause criteria after before) st)).
  assert (Pg : forall l' o', 0 < l' -> 0 <= o' ->
             paginate (with_page criteria l' o') rows
             = firstn (Z.to_nat l') (skipn (Z.to_nat o') rows)).
  { intros l' o' Hl' Ho'. unfold paginate, limit_offset. cbn [with_page limit offset].
    replace (l' =? 0) with false by (symmetry; apply Z.eqb_neq; lia).
    replace (l' <? 0) with false by (symmetry; apply Z.ltb_ge; lia).
    destruct (0 <? o') eqn:E; [reflexivity|].
    apply Z.ltb_ge in E. now replace o' with 0 by lia. }
  rewrite !Pg by lia. intros [= <-] [= <-]. f_equal.
  rewrite <- map_app. f_equal.
  replace (Z.to_nat (2 * l)) with (Z.to_nat l + Z.to_nat l)%nat by lia.
  rewrite SweepFacts.firstn_plus, skipn_skipn. do 3 f_equal. lia.
Qed.

End WithEngine.

Lemma search_sound_and_complete_witness :
  exists after before,
    bound posix (modified_after (with_sizes 15 40)) = Some after
    /\ bound posix (modified_before (with_sizes 15 40)) = Some before
    /\ (forall rec,
          In rec (List.map _row_to_file_record
                    (plan_sorter (filter (where_clause (with_sizes 15 40)
                                            None None) three_rows))) ->
          exists r, In r three_rows
                    /\ where_clause (with_sizes 15 40) after before r = true
                    /\ rec = _row_to_file_record r)
    /\ (limit (with_sizes 15 40) = None \/ limit (with_sizes 15 40) = Some 0 ->
        Permutation
          (List.map _row_to_file_record
             (filter (where_clause (with_sizes 15 40) after before) three_rows))
          (List.map _row_to_file_record
             (plan_sorter (filter (where_clause (with_sizes 15 40)
                                     None None) three_rows)))).
Proof.
  apply (search_sound_and_complete posix plan_sorter SearchFacts.plan_sorter_ok
           (with_sizes 15 40) three_rows).
  reflexivity.
Defined.

Lemma search_at_most_limit_witness :
  Z.of_nat (List.length
              (List.map _row_to_file_record
                 (firstn 2 (plan_sorter three_rows)))) <= 2.
Proof.
  apply (search_at_most_limit posix plan_sorter (with_limit (Some 2) 0)
           three_rows _ 2); [reflexivity|lia|reflexivity].
Defined.

Lemma search_pages_tile_witness :
  search_files posix plan_sorter (with_page any_criteria (2 * 1) 1) three_rows
  = Some (List.map _row_to_file_record (firstn 1 (skipn 1 (plan_sorter three_rows)))
          ++ List.map _row_to_file_record
               (firstn 1 (skipn 2 (plan_sorter three_rows))))%list.
Proof.
  apply (search_pages_tile posix plan_sorter any_criteria three_rows 1 1);
    [lia|lia|reflexivity|reflexivity].
Defined.

End QueryFacts.

(* ================================================================== *)
(** ** More on the HTTP handlers *)

Module HandlerFacts.
Import Models Database Api Samples.

(** What a request that passes the checks has asked for. *)
Lemma validate_inr req criteria :
  validate req = inr criteria ->
  limit criteria = Some (default 50 (arg_limit req))
  /\ 1 <= default 50 (arg_limit req) <= 1000
  /\ 0 <= offset criteria
  /\ min_size criteria = arg_min_size req
  /\ max_size criteria = arg_max_size req
  /\ modified_after criteria = None
  /\ modified_before criteria = None.
Proof.
  unfold validate.
  destruct ((default 50 (arg_limit req) <? 1)
            || (1000 <? default 50 (arg_limit req))) eqn:L; [discriminate|].
  apply orb_false_elim in L as [L1 L2]. apply Z.ltb_ge in L1, L2.
  destruct (default 0 (arg_offset req) <? 0) eqn:O; [discriminate|].
  apply Z.ltb_ge in O.
  destruct (match arg_min_size req with Some m => m <? 0 | None => false end);
    [discriminate|].
  destruct (match arg_max_size req with Some m => m <? 0 | None => false end);
    [discriminate|].
  destruct (match arg_min_size req, arg_max_size req with
            | Some lo, Some hi => hi <? lo
            | _, _ => false
            end); [discriminate|].
  destruct (if String.eqb (arg_category req) "" then Some None
            else option_map Some (category_of_string (arg_category req)));
    [|discriminate].
  intros [= <-]. cbn. repeat split; assumption || lia.
Qed.

Section WithEngine.
Variable timestamp : datetime -> option Z.
Variable plan : list Row -> list Row.
Hypothesis plan_ok : order_by_modified_desc_ok plan.

Lemma where_clause_sizes criteria after before r :
  where_clause criteria after before r = true ->
  (forall lo, min_size criteria = Some lo -> lo <= row_size r)
  /\ (forall hi, max_size criteria = Some hi -> row_size r <= hi).
Proof.
  unfold where_clause. rewrite !andb_true_iff.
  intros (((((_ & _) & Hlo) & Hhi) & _) & _). split.
  - intros lo E. rewrite E in Hlo. now apply Z.leb_le.
  - intros hi E. rewrite E in Hhi. now apply Z.leb_le.
Qed.

(** X17. A page of GET /files. When the handler answers 200, the count it
    gives is the number of files it sends, the limit it echoes lies
    between 1 and 1000 (50 when none was asked), the files are no more than
    the limit, the offset is not negative, and every file sent has a size
    within the bounds asked for. *)
Theorem get_files_page req st files count off lim :
  get_files timestamp plan req st = Ok200 files count off lim ->
  count = Z.of_nat (List.length files)
  /\ lim = default 50 (arg_limit req)
  /\ 1 <= lim <= 1000
  /\ count <= lim
  /\ 0 <= off
  /\ (forall f lo, In f files -> arg_min_size req = Some lo -> lo <= size f)
  /\ (forall f hi, In f files -> arg_max_size req = Some hi -> size f <= hi).
Proof.
  unfold get_files. destruct (validate req) as [message|criteria] eqn:V;
    [discriminate|].
  apply validate_inr in V as (L & B & O & Hlo & Hhi & _ & _).
  destruct (search_files timestamp plan criteria st) as [results|] eqn:S;
    [|discriminate].
  intros [= <- <- <- <-].
  assert (Pos : 0 < default 50 (arg_limit req)) by lia.
  pose proof (QueryFacts.search_length timestamp plan criteria st
                results _ L Pos S) as Bound.
  pose proof (QueryFacts.search_rows timestamp plan plan_ok
                criteria st results) as Sound.
  repeat split; try lia.
  - intros f lo Hf E. apply (Sound f S) in Hf as (r & a & b & _ & W & ->).
    apply where_clause_sizes in W as [W _]. apply W. congruence.
  - intros f hi Hf E. apply (Sound f S) in Hf as (r & a & b & _ & W & ->).
    apply where_clause_sizes in W as [_ W]. apply W. congruence.
Qed.

Lemma where_clause_category criteria after before r c :
  where_clause criteria after before r = true ->
  crit_category criteria = Some c -> row_category r = c.
Proof.
  unfold where_clause. rewrite !andb_true_iff.
  intros (((((_ & C) & _) & _) & _) & _) E. rewrite E in C.
  now destruct (row_category r), c.
Qed.


Lemma length_filter_category (st : Store) :
  (List.length (filter (fun r => FileCategory_eqb (row_category r) GRAPHICS) st)
   + List.length (filter (fun r => FileCategory_eqb (row_category r) LIGHTBURN) st)
   + List.length (filter (fun r => FileCategory_eqb (row_category r) VECTOR) st)
   = List.length st)%nat.
Proof.
  induction st as [|r st IH]; [reflexivity|].
  cbn [filter]. destruct (row_category r); cbn [FileCategory_eqb List.length]; lia.
Qed.

Lemma count_category c st :
  option_map (fun files : list FileRecord => Z.of_nat (List.length files))
    (search_files timestamp plan (category_criteria c) st)
  = Some (Z.of_nat (List.length
                      (filter (fun r => FileCategory_eqb (row_category r) c) st))).
Proof.
  unfold search_files, category_criteria. cbn.
  rewrite length_map.
  rewrite <- (Permutation_length (proj1 (plan_ok _))).
  do 3 f_equal. apply filter_ext. intros r.
  unfold where_clause. cbn. now rewrite !andb_true_r.
Qed.

(** X18. The statistics add up: each category's count is the number of
    rows of that category, and the total is the number of rows in the
    table. *)
Theorem get_file_stats_counts st :
  let stats := get_file_stats timestamp plan st in
  stat_graphics stats
  = Z.of_nat (List.length
                (filter (fun r => FileCategory_eqb (row_category r) GRAPHICS) st))
  /\ stat_lightburn stats
     = Z.of_nat (List.length
                   (filter (fun r => FileCategory_eqb (row_category r) LIGHTBURN) st))
  /\ stat_vector stats
     = Z.of_nat (List.length
                   (filter (fun r => FileCategory_eqb (row_category r) VECTOR) st))
  /\ stat_total stats = Z.of_nat (List.length st).
Proof.
  cbv zeta. unfold get_file_stats. rewrite !count_category.
  cbn [stat_graphics stat_lightburn stat_vector stat_total].
  repeat split. pose proof (length_filter_category st). lia.
Qed.

End WithEngine.

Example get_files_sample :
  match get_files posix plan_sorter page_request three_rows with
  | Ok200 files count off lim => (List.map id files, count, off, lim)
  | _ => ([], 0, 0, 0)
  end = (["id3"], 1, 0, 1).
Proof. reflexivity. Qed.


Lemma get_files_page_witness :
  1 = Z.of_nat (List.length [_row_to_file_record (row "id3" "/r/c.png" 30 200 true)])
  /\ 1 = default 50 (arg_limit page_request)
  /\ 1 <= 1 <= 1000
  /\ 1 <= 1
  /\ 0 <= 0
  /\ (forall f lo,
        In f [_row_to_file_record (row "id3" "/r/c.png" 30 200 true)] ->
        arg_min_size page_request = Some lo -> lo <= size f)
  /\ (forall f hi,
        In f [_row_to_file_record (row "id3" "/r/c.png" 30 200 true)] ->
        arg_max_size page_request = Some hi -> size f <= hi).
Proof.
  apply (get_files_page posix plan_sorter SearchFacts.plan_sorter_ok
           page_request three_rows).
  reflexivity.
Defined.

Lemma get_file_stats_counts_witness :
  stat_total (get_file_stats posix plan_sorter three_rows) = 3.
Proof.
  apply (get_file_stats_counts posix plan_sorter SearchFacts.plan_sorter_ok
           three_rows).
Defined.

End HandlerFacts.

(* ================================================================== *)
(** ** More on the error handling *)

Module RetryFacts.
Import ErrorHandler Samples.

(** X19. What calls through a fresh breaker can leave behind. After any
    sequence of calls the count is not negative, a breaker that is not
    closed has counted at least the threshold, and the two settings are as
    given. When every function returned or raised an [Exception], the
    breaker is not half-open, and a further call of such a function does
    not leave it half-open either. A trial that ends in another
    [BaseException] does leave it half-open, count and failure time
    untouched, and from then on the guard lets every call through whatever
    the clock reads. *)
Theorem breaker_half_open_by_escape
    {W A E : Type} (time_ : W -> Z) (is_exception : E -> bool)
    threshold timeout (funcs : list (W -> (A + E) * W)) (w : W) :
  let cb := fst (calls time_ is_exception (init threshold timeout) funcs w) in
  breaker_inv cb
  /\ failure_threshold cb = threshold
  /\ recovery_timeout cb = timeout
  /\ (Forall (ordinary is_exception) funcs -> state cb <> half_open)
  /\ (forall (func : W -> (A + E) * W) w1,
        ordinary is_exception func ->
        state (snd (fst (call time_ is_exception cb func w1))) <> half_open)
  /\ (forall (func : W -> (A + E) * W) w1 t e w',
        state cb = open -> last_failure_time cb = Some t ->
        recovery_timeout cb <= time_ w1 - t ->
        func w1 = (inr e, w') -> is_exception e = false ->
        exists cb',
          call time_ is_exception cb func w1 = (Raised e, cb', w')
          /\ state cb' = half_open
          /\ failure_count cb' = failure_count cb
          /\ last_failure_time cb' = Some t
          /\ forall w2, let_through time_ cb' w2 = Some cb').
Proof.
  cbv zeta.
  pose proof (BreakerFacts.calls_inv time_ is_exception funcs
                (init threshold timeout) w
                (BreakerFacts.init_inv threshold timeout)) as I.
  cbv zeta in I. destruct I as (I & T & R).
  split; [exact I|]. split; [exact T|]. split; [exact R|].
  split; [|split].
  - clear T R I.
    assert (G : forall cb w,
               breaker_inv cb -> state cb <> half_open ->
               Forall (ordinary is_exception) funcs ->
               state (fst (calls time_ is_exception cb funcs w)) <> half_open).
    { clear w. induction funcs as [|func rest IH]; intros cb w I H F.
      - exact H.
      - inversion F as [|? ? F1 F2]; subst. cbn [calls].
        pose proof (BreakerFacts.call_inv time_ is_exception cb func w I) as C.
        pose proof (BreakerFacts.call_not_half_open time_ is_exception
                      cb func w I F1) as N.
        destruct (call time_ is_exception cb func w) as [[r cb1] w1].
        apply IH; [apply C|exact N|exact F2]. }
    apply G; [apply BreakerFacts.init_inv|discriminate].
  - intros func w1 F.
    pose proof (BreakerFacts.call_not_half_open time_ is_exception
                  _ func w1 I F) as N.
    destruct (call time_ is_exception _ func w1) as [[r cb1] w2]. exact N.
  - intros func w1 t e w' S L C F X.
    unfold call.
    rewrite (BreakerFacts.let_through_elapsed time_ _ w1 t S L C), F, X.
    eexists. split; [reflexivity|]. split; [reflexivity|].
    split; [reflexivity|]. split; [exact L|].
    intros w2. reflexivity.
Qed.

(** A breaker with threshold 1 that has failed at time 1: the trial at
    time 40 is interrupted, and the call at time 41 is let through. *)
Lemma breaker_half_open_by_escape_witness :
  exists cb',
    call (fun w => w) not_interrupt
      (fst (calls (fun w => w) not_interrupt (init 1 30) [failing] 0))
      interrupted 40
    = (Raised "KeyboardInterrupt"%string, cb', 41)
    /\ state cb' = half_open
    /\ failure_count cb'
       = failure_count
           (fst (calls (fun w => w) not_interrupt (init 1 30) [failing] 0))
    /\ last_failure_time cb' = Some 1
    /\ forall w2, let_through (fun w => w) cb' w2 = Some cb'.
Proof.
  destruct (breaker_half_open_by_escape (A := unit) (fun w => w) not_interrupt
              1 30 [failing] 0) as (_ & _ & _ & _ & _ & H).
  apply (H interrupted 40 1 "KeyboardInterrupt"%string 41);
    try reflexivity.
  simpl. lia.
Defined.

Section Retry.
Context {W A E : Type}.
Variable retryable : E -> bool.
Variable sleep : Z -> W -> W.
Variable max_retries : Z.
Variable backoff_factor : Z.
Variable func : W -> (A + E) * W.

Local Abbreviation retry_loop :=
  (retry_loop retryable sleep max_retries backoff_factor func).
Local Abbreviation retry_on_error :=
  (retry_on_error retryable sleep max_retries backoff_factor func).

(** The loop over the attempts [k, k+1, ..., max_retries]. *)
Lemma retry_loop_bounds : forall m k current_delay last w trace n,
  Z.of_nat k + Z.of_nat m = max_retries + 1 -> (0 < m)%nat ->
  let r := retry_loop (seq k m) current_delay last w trace n in
  (n < invoked r <= n + m)%nat
  /\ outcome r <> RaisedNone
  /\ slept r
     = (trace ++ schedule current_delay backoff_factor (invoked r - n - 1))%list
  /\ (forall a, outcome r = Done a ->
        exists w0, func w0 = (inl a, world r))
  /\ (forall e, outcome r = Failed e ->
        exists w0, func w0 = (inr e, world r)
                   /\ (retryable e = true -> invoked r = (n + m)%nat)).
Proof.
  induction m as [|m IH]; intros k current_delay last w trace n Hk Hm; [lia|].
  cbv zeta. cbn [seq ErrorHandler.retry_loop].
  destruct (func w) as [[a|e] w'] eqn:F.
  - cbn [invoked outcome slept world].
    replace (S n - n - 1)%nat with 0%nat by lia. cbn [schedule].
    rewrite app_nil_r. repeat split; try lia; try discriminate.
    + intros a0 [= <-]. now exists w.
  - destruct (retryable e) eqn:R.
    + destruct (Z.of_nat k =? max_retries) eqn:Last.
      * cbn [invoked outcome slept world].
        replace (S n - n - 1)%nat with 0%nat by lia. cbn [schedule].
        rewrite app_nil_r. apply Z.eqb_eq in Last.
        repeat split; try lia; try discriminate.
        intros e0 [= <-]. exists w. split; [exact F|]. intros _. lia.
      * apply Z.eqb_neq in Last.
        assert (Hm' : (0 < m)%nat) by lia.
        specialize (IH (S k) (current_delay * backoff_factor) (Some e)
                       (sleep current_delay w') (trace ++ [current_delay])%list
                       (S n) ltac:(lia) Hm').
        cbv zeta in IH. destruct IH as (I1 & I2 & I3 & I4 & I5).
        repeat split; try lia; try assumption.
        -- rewrite I3, <- app_assoc. f_equal.
           replace (invoked _ - n - 1)%nat
             with (S (invoked
                        (retry_loop (seq (S k) m) (current_delay * backoff_factor)
                           (Some e) (sleep current_delay w')
                           (trace ++ [current_delay])%list (S n)) - S n - 1))
             by lia.
           reflexivity.
        -- intros e0 He0. destruct (I5 e0 He0) as (w0 & Hw0 & Hall).
           exists w0. split; [exact Hw0|]. intros Re. specialize (Hall Re). lia.
    + cbn [invoked outcome slept world].
      replace (S n - n - 1)%nat with 0%nat by lia. cbn [schedule].
      rewrite app_nil_r. repeat split; try lia; try discriminate.
      intros e0 [= <-]. exists w. split; [exact F|]. congruence.
Qed.

(** X20. Bounded retry. With [max_retries >= 0] the function runs at least
    once and at most [max_retries + 1] times; the call ends with a result of
    the function or with an exception that the function raised, and when
    that exception is a retryable one every attempt was used; between the
    runs the decorator sleeps [delay], [delay * backoff_factor], ...: one
    delay fewer than runs. With [max_retries < 0] the function does not run
    at all and the call ends with the [TypeError] of [raise None]. *)
Theorem retry_on_error_bounded delay w :
  (0 <= max_retries ->
   let r := retry_on_error delay w in
   (1 <= invoked r <= Z.to_nat max_retries + 1)%nat
   /\ outcome r <> RaisedNone
   /\ slept r = schedule delay backoff_factor (invoked r - 1)
   /\ (forall a, outcome r = Done a -> exists w0, func w0 = (inl a, world r))
   /\ (forall e, outcome r = Failed e ->
         exists w0, func w0 = (inr e, world r)
                    /\ (retryable e = true ->
                        invoked r = (Z.to_nat max_retries + 1)%nat)))
  /\ (max_retries < 0 ->
      retry_on_error delay w
      = {| outcome := RaisedNone; world := w; slept := []; invoked := 0 |}).
Proof.
  split.
  - intros H. cbv zeta. unfold ErrorHandler.retry_on_error.
    pose proof (retry_loop_bounds (Z.to_nat (max_retries + 1)) 0 delay None w
                  [] 0%nat ltac:(lia) ltac:(lia)) as B.
    cbv zeta in B. destruct B as (B1 & B2 & B3 & B4 & B5).
    repeat split; try lia; try assumption.
    + rewrite B3. cbn [app]. f_equal. lia.
    + intros e He. destruct (B5 e He) as (w0 & Hw0 & Hall).
      exists w0. split; [exact Hw0|]. intros Re. specialize (Hall Re). lia.
  - intros H. unfold ErrorHandler.retry_on_error.
    replace (Z.to_nat (max_retries + 1)) with 0%nat by lia. reflexivity.
Qed.

End Retry.

Example retry_flaky :
  retry_on_error (fun e => e) (fun _ w => w) 3 2 flaky 1 0%nat
  = {| outcome := Done 2%nat; world := 3%nat; slept := [1; 2]; invoked := 3 |}.
Proof. reflexivity. Qed.

Example retry_fatal :
  retry_on_error (fun e => e) (fun _ w => w) 3 2 fatal 1 0%nat
  = {| outcome := Failed false; world := 1%nat; slept := []; invoked := 1 |}.
Proof. reflexivity. Qed.

Lemma retry_on_error_bounded_witness :
  (1 <= invoked (retry_on_error (fun e => e) (fun _ w => w) 3 2 flaky 1 0%nat)
   <= Z.to_nat 3 + 1)%nat.
Proof.
  destruct (retry_on_error_bounded (fun e : bool => e) (fun _ (w : nat) => w)
              3 2 flaky 1 0%nat) as [H _].
  apply H. lia.
Defined.

End RetryFacts.

(* ================================================================== *)
(** ** More on scanning *)

Module WalkFacts.
Import Models Scanner Samples.

Section Walk.
Variable root : string.
Variable uuid4 : Path -> string.
Variable now : Path -> datetime.

Local Abbreviation get_file_metadata := (get_file_metadata root uuid4 now).

Lemma scan_loop_negative_depth _cancelled options d items : forall i,
  max_depth options = Some d -> d < 0 ->
  scan_loop root uuid4 now _cancelled options i items = [].
Proof.
  intros i M D. revert i.
  induction items as [|[p n] rest IH]; intros i; [reflexivity|].
  cbn [Scanner.scan_loop]. rewrite M.
  destruct (_cancelled i); [reflexivity|].
  destruct (negb (is_file (p, n))); [apply IH|].
  destruct (negb (include_hidden options) && _); [apply IH|].
  destruct (d <? depth (p, n)) eqn:E; [apply IH|].
  apply Z.ltb_ge in E. unfold depth in E. cbn [fst] in E.
  destruct p as [|x p]; [|cbn [List.length] in E; lia].
  unfold Scanner.get_file_metadata. cbn [fst snd].
  destruct n; apply IH.
Qed.

Lemma scan_loop_from_items _cancelled options items : forall i r,
  In r (scan_loop root uuid4 now _cancelled options i items) ->
  exists item, In item items /\ get_file_metadata item = Some r.
Proof.
  induction items as [|item rest IH]; intros i r; [intros []|].
  cbn [Scanner.scan_loop].
  assert (Rest : In r (scan_loop root uuid4 now _cancelled options (S i) rest) ->
                 exists item0, In item0 (item :: rest)
                               /\ get_file_metadata item0 = Some r).
  { intros H. apply IH in H as (x & Hx & E). exists x. split; [now right|exact E]. }
  destruct (_cancelled i); [intros []|].
  destruct (negb (is_file item)); [exact Rest|].
  destruct (negb (include_hidden options) && _); [exact Rest|].
  destruct (match max_depth options with Some d => d <? depth item | None => false end);
    [exact Rest|].
  destruct (Scanner.get_file_metadata root uuid4 now item) as [r0|] eqn:E;
    [|exact Rest].
  intros [<-|H]; [exists item; split; [now left|exact E]|now apply Rest].
Qed.

(** X21. Two bounds of a walk that hold whether or not it is cancelled: a
    negative [max_depth] yields nothing, and a walk that is not recursive
    yields only records of files directly inside the root, whatever
    [max_depth] says. *)
Theorem scan_files_bounds _cancelled tree options :
  (forall d, max_depth options = Some d -> d < 0 ->
     scan_files root uuid4 now _cancelled tree options = [])
  /\ (recursive options = false ->
      forall r, In r (scan_files root uuid4 now _cancelled tree options) ->
      exists item, In item tree /\ List.length (fst item) = 1%nat
                   /\ get_file_metadata item = Some r).
Proof.
  split.
  - intros d M D. now apply scan_loop_negative_depth with d.
  - intros R r H. unfold Scanner.scan_files in H. rewrite R in H.
    apply scan_loop_from_items in H as (item & Hi & E).
    unfold glob in Hi. apply filter_In in Hi as [Hi L].
    exists item. split; [exact Hi|]. split; [|exact E].
    now apply Nat.eqb_eq.
Qed.

Lemma count_records_counts seen records : forall k total categorized new,
  let '(t, c, n, errs) := count_records seen k records total categorized new in
  t - total = c - categorized /\ t - total = n - new
  /\ 0 <= t - total <= Z.of_nat (List.length records)
  /\ (List.length errs <= 1)%nat
  /\ ((forall j, seen j = false) ->
      t - total = Z.of_nat (List.length records) /\ errs = []).
Proof.
  induction records as [|r rest IH]; intros k total categorized new.
  - cbn. split; [lia|split; [lia|split; [lia|split; [lia|]]]].
    intros _. split; [lia|reflexivity].
  - cbn [count_records]. destruct (seen k) eqn:S.
    + cbn [List.length].
      split; [lia|split; [lia|split; [lia|split; [lia|]]]].
      intros H. rewrite H in S. discriminate.
    + specialize (IH (Datatypes.S k) (total + 1) (categorized + 1) (new + 1)).
      destruct (count_records seen (Datatypes.S k) rest (total + 1)
                  (categorized + 1) (new + 1)) as [[[t c] n] errs].
      destruct IH as (A & B & C & D & E). cbn [List.length].
      rewrite Nat2Z.inj_succ.
      split; [lia|split; [lia|split; [lia|split; [exact D|]]]].
      intros H. destruct (E H) as [E1 E2]. split; [lia|exact E2].
Qed.

(** X22. The counters of [scan_directory]. The three counters are always
    equal and [updated_files] is 0; they are at most the number of records
    the walk yields, and there is at most one error. A root that is
    missing, not a directory or not listable gives counters of 0 and one
    error, without a walk. On a readable root, when the loop never finds
    the flag set, the counters are the number of records yielded and there
    is no error. *)
Theorem scan_directory_counts _cancelled status seen elapsed tree options :
  let result :=
    scan_directory root uuid4 now _cancelled status seen elapsed tree options in
  total_files result = categorized_files result
  /\ categorized_files result = new_files result
  /\ updated_files result = 0
  /\ 0 <= total_files result
       <= Z.of_nat (List.length (scan_files root uuid4 now _cancelled tree options))
  /\ (List.length (scan_errors result) <= 1)%nat
  /\ (status <> RootReadable ->
      total_files result = 0 /\ List.length (scan_errors result) = 1%nat)
  /\ (status = RootReadable -> (forall k, seen k = false) ->
      total_files result
      = Z.of_nat (List.length (scan_files root uuid4 now _cancelled tree options))
      /\ scan_errors result = []).
Proof.
  cbv zeta. unfold scan_directory.
  assert (Bad : forall message,
            let result :=
              {| total_files := 0; categorized_files := 0; new_files := 0;
                 updated_files := 0; scan_errors := [message];
                 duration := elapsed |} in
            total_files result = categorized_files result
            /\ categorized_files result = new_files result
            /\ updated_files result = 0
            /\ 0 <= total_files result
                 <= Z.of_nat (List.length
                                (scan_files root uuid4 now _cancelled tree options))
            /\ (List.length (scan_errors result) <= 1)%nat
            /\ total_files result = 0
            /\ List.length (scan_errors result) = 1%nat).
  { intros message. cbn. repeat split; lia. }
  destruct status; cbn [_validate_scan_path].
  - destruct (Bad ("Path does not exist: " ++ root)) as (A & B & C & D & E & F & G).
    split; [exact A|split; [exact B|split; [exact C|split; [exact D|split;
      [exact E|split; [intros _; now split|intros X; discriminate X]]]]]].
  - destruct (Bad ("Path is not a directory: " ++ root))
      as (A & B & C & D & E & F & G).
    split; [exact A|split; [exact B|split; [exact C|split; [exact D|split;
      [exact E|split; [intros _; now split|intros X; discriminate X]]]]]].
  - destruct (Bad ("Cannot access directory " ++ root ++ ": " ++ reason))
      as (A & B & C & D & E & F & G).
    split; [exact A|split; [exact B|split; [exact C|split; [exact D|split;
      [exact E|split; [intros _; now split|intros X; discriminate X]]]]]].
  - pose proof (count_records_counts seen
                  (scan_files root uuid4 now _cancelled tree options)
                  0%nat 0 0 0) as C.
    destruct (count_records seen 0 _ 0 0 0) as [[[t c] n] errs].
    destruct C as (A & B & C & D & E).
    cbn [total_files categorized_files new_files updated_files scan_errors].
    split; [lia|split; [lia|split; [reflexivity|split; [lia|split;
      [exact D|split; [intros X; now contradiction X|]]]]]].
    intros _ Hs. destruct (E Hs) as [E1 E2]. split; [lia|exact E2].
Qed.

End Walk.

Lemma scan_files_bounds_witness :
  scan_files "/r" ids clock no_cancel tree_hidden_file (default_depth (-1)) = [].
Proof.
  destruct (scan_files_bounds "/r" ids clock no_cancel tree_hidden_file
              (default_depth (-1))) as [H _].
  apply (H (-1)); [reflexivity|lia].
Defined.

Lemma scan_directory_counts_witness :
  total_files (scan_directory "/r" ids clock no_cancel RootReadable no_cancel 0
                 tree_hidden_file (default_depth 1))
  = Z.of_nat (List.length (scan_files "/r" ids clock no_cancel tree_hidden_file
                             (default_depth 1)))
  /\ scan_errors (scan_directory "/r" ids clock no_cancel RootReadable no_cancel 0
                    tree_hidden_file (default_depth 1)) = [].
Proof.
  apply (scan_directory_counts "/r" ids clock no_cancel RootReadable no_cancel 0
           tree_hidden_file (default_depth 1)).
  - reflexivity.
  - reflexivity.
Defined.

End WalkFacts.

(* ================================================================== *)
(** ** The two workers of the HTTP interface *)

Module WorkerFacts.
Import Models Scanner Database Api Samples.

Section ScanWorker.
Variable root : string.
Variable uuid4 : Path -> string.
Variable now : Path -> datetime.
Variable timestamp : datetime -> option Z.
Variable active : nat -> bool.
Hypothesis stays_active : forall t, active t = true.

Local Abbreviation collect := (collect root uuid4 now active).

(** The options of the walk that the worker repeats. *)
Lemma collect_is_walk recursive_ hidden items : forall t i acc,
  fst (collect t
         (if negb hidden
          then filter (fun f => negb (Str.startswith_dot (name (fst f))))
                 (filter is_file items)
          else filter is_file items) acc)
  = (acc ++ scan_loop root uuid4 now (fun _ => false)
              {| recursive := recursive_; verbose := true;
                 max_depth := None; include_hidden := hidden |} i items)%list.
Proof.
  destruct hidden; cbn [negb]; induction items as [|item rest IH];
    intros t i acc;
    try (cbn; now rewrite app_nil_r);
    cbn [Scanner.scan_loop filter include_hidden max_depth negb andb];
    destruct (is_file item) eqn:F; cbn [negb filter];
    try apply (IH t (S i) acc).
  - cbn [Api.collect]. rewrite stays_active. cbn [negb].
    destruct (get_file_metadata root uuid4 now item) as [r|].
    + rewrite (IH (S t) (S i) (acc ++ [r])%list).
      now rewrite <- app_assoc.
    + apply (IH (S t) (S i) acc).
  - destruct (Str.startswith_dot (name (fst item))); cbn [negb].
    + apply (IH t (S i) acc).
    + cbn [Api.collect]. rewrite stays_active. cbn [negb].
      destruct (get_file_metadata root uuid4 now item) as [r|].
      * rewrite (IH (S t) (S i) (acc ++ [r])%list).
        now rewrite <- app_assoc.
      * apply (IH (S t) (S i) acc).
Qed.

Lemma collect_length all_files : forall t acc,
  (List.length (fst (collect t all_files acc))
   <= List.length acc + List.length all_files)%nat.
Proof.
  induction all_files as [|f rest IH]; intros t acc; cbn [Api.collect fst].
  - cbn. lia.
  - destruct (negb (active t)); [cbn; lia|].
    destruct (get_file_metadata root uuid4 now f) as [r|].
    + specialize (IH (S t) (acc ++ [r])%list). rewrite length_app in IH.
      cbn [List.length] in *. lia.
    + specialize (IH (S t) acc). cbn [List.length]. lia.
Qed.

(** X23. The scan worker of the HTTP interface, when it is not cancelled,
    collects what [scan_files] yields for the same [recursive] and
    [include_hidden] with no depth limit, ends as completed, counts the
    records it collected, which are no more than the files it counted, and
    leaves the table as the batch upsert of these records leaves it. *)
Theorem run_scan_is_walk recursive_ hidden clock tree st :
  let run := run_scan root uuid4 now timestamp active recursive_ hidden clock
               tree st in
  run_records run
  = scan_files root uuid4 now (fun _ => false) tree
      {| recursive := recursive_; verbose := true; max_depth := None;
         include_hidden := hidden |}
  /\ run_status run = completed
  /\ run_categorized_files run = Z.of_nat (List.length (run_records run))
  /\ run_categorized_files run <= run_total_files run
  /\ run_store run = _add_files_batch timestamp (run_records run) st.
Proof.
  cbv zeta. unfold run_scan.
  pose proof (collect_is_walk recursive_ hidden (glob tree recursive_)
                0%nat 0%nat []) as C.
  pose proof (collect_length
                (if negb hidden
                 then filter (fun f => negb (Str.startswith_dot (name (fst f))))
                        (filter is_file (glob tree recursive_))
                 else filter is_file (glob tree recursive_)) 0%nat []) as L.
  destruct (Api.collect root uuid4 now active 0 _ []) as [file_records t].
  cbn [fst app] in C. cbn [fst List.length plus] in L.
  rewrite !stays_active.
  assert (Sv : (let '(st', _) :=
                 match file_records with
                 | [] => (st, t)
                 | _ :: _ =>
                     (snd (snd (add_files_batch timestamp file_records
                                  (ErrorHandler.init 5 30) (clock, st))), S t)
                 end in st')
              = _add_files_batch timestamp file_records st).
  { destruct file_records as [|r l]; [reflexivity|].
    unfold add_files_batch, ErrorHandler.call. reflexivity. }
  destruct (match file_records with
            | [] => (st, t)
            | _ :: _ =>
                (snd (snd (add_files_batch timestamp file_records
                             (ErrorHandler.init 5 30) (clock, st))), S t)
            end) as [st' t'].
  cbn [run_records run_status run_categorized_files run_total_files run_store].
  rewrite stays_active.
  split; [exact C|]. split; [reflexivity|]. split; [reflexivity|].
  split; [lia|exact Sv].
Qed.

End ScanWorker.

Section CleanupWorker.
Variable path_exists : string -> option bool.
Variable active : nat -> bool.
Hypothesis stays_active : forall t, active t = true.

Lemma probe_batch_is_check batch_files : forall t removed errs to_remove,
  let '(files, errs', rm) := check_missing path_exists batch_files in
  probe_batch path_exists active t batch_files removed errs to_remove
  = ((removed ++ files)%list, (errs ++ errs')%list, (to_remove ++ rm)%list,
     (t + List.length batch_files)%nat).
Proof.
  induction batch_files as [|r rest IH]; intros t removed errs to_remove.
  - cbn. rewrite !app_nil_r. do 2 f_equal. lia.
  - cbn [check_missing probe_batch].
    destruct (check_missing path_exists rest) as [[files errs'] rm].
    rewrite stays_active. cbn [negb List.length].
    destruct (path_exists (row_path r)) as [[|]|].
    + rewrite IH. f_equal. lia.
    + rewrite IH, <- !app_assoc. cbn [app]. f_equal. lia.
    + rewrite IH, <- !app_assoc. cbn [app]. f_equal. lia.
Qed.

Lemma worker_loop_is_cleanup_loop dry_run batch_size total_count :
  forall fuel offset t sw,
    option_map fst
      (worker_loop path_exists active fuel dry_run batch_size total_count
         offset t sw)
    = cleanup_loop path_exists fuel dry_run batch_size total_count offset sw.
Proof.
  induction fuel as [|fuel IH]; intros offset t sw; [reflexivity|].
  cbn [worker_loop cleanup_loop].
  destruct (offset <? total_count); [|reflexivity].
  rewrite stays_active. cbn [negb].
  destruct (limit_offset batch_size offset
              (order_by_id (flagged (sw_store sw)))) as [|r0 pg'];
    [reflexivity|].
  pose proof (probe_batch_is_check (r0 :: pg') (S t) (sw_files sw)
                (sw_errors sw) []) as P.
  destruct (check_missing path_exists (r0 :: pg')) as [[files errs'] rm].
  rewrite P. cbn [app]. rewrite stays_active.
  destruct rm as [|i rm]; [apply IH|].
  destruct dry_run; apply IH.
Qed.

(** X24. The cleanup worker of the HTTP interface, when it is not
    cancelled, ends as completed with the result and the table of
    [cleanup_database] for the same arguments: it repeats that loop, the
    rows it skips included. *)
Theorem run_cleanup_is_cleanup_database fuel dry_run batch_size st :
  run_cleanup path_exists active fuel dry_run batch_size st
  = option_map (fun '(result, st') => (completed, result, st'))
      (cleanup_database path_exists fuel dry_run batch_size st).
Proof.
  unfold run_cleanup, cleanup_database.
  rewrite <- worker_loop_is_cleanup_loop with (t := 0%nat).
  destruct (worker_loop path_exists active fuel dry_run batch_size _ 0 0 _)
    as [[sw t]|]; [|reflexivity].
  cbn [option_map fst]. rewrite stays_active. reflexivity.
Qed.

End CleanupWorker.

Example run_scan_sample :
  let run := run_scan "/r" ids clock posix always_active true false 0
               tree_hidden_file [] in
  (run_status run, run_total_files run, run_categorized_files run,
   List.map row_path (run_store run))
  = (completed, 2, 2, ["/r/a.jpg"; "/r/sub/b.svg"]).
Proof. reflexivity. Qed.

Lemma run_scan_is_walk_witness :
  run_records (run_scan "/r" ids clock posix always_active true false 0
                 tree_hidden_file [])
  = scan_files "/r" ids clock (fun _ => false) tree_hidden_file
      {| recursive := true; verbose := true; max_depth := None;
         include_hidden := false |}.
Proof.
  apply (run_scan_is_walk "/r" ids clock posix always_active
           (fun _ => eq_refl) true false 0 tree_hidden_file []).
Defined.

Lemma run_cleanup_is_cleanup_database_witness :
  run_cleanup all_gone always_active 4 false 1 two_rows
  = option_map (fun '(result, st') => (completed, result, st'))
      (cleanup_database all_gone 4 false 1 two_rows).
Proof.
  apply (run_cleanup_is_cleanup_database all_gone always_active
           (fun _ => eq_refl) 4 false 1 two_rows).
Defined.

End WorkerFacts.

(* ================================================================== *)
(** ** The classifier and the shape of a file name *)

Module ExtensionFacts.
Import Models.

Lemma dict_get_In {V} (d : list (string * V)) k v :
  dict_get d k = Some v -> In (k, v) d.
Proof.
  induction d as [|[k' v'] d IH]; simpl; [discriminate|].
  destruct (String.eqb_spec k' k) as [->|N]; intros H.
  - left. congruence.
  - right. now apply IH.
Qed.

(** Every key of the mapping is a dot followed by at least one character
    that is not a dot. *)
Lemma extension_shape k c :
  In (k, c) get_extensions -> Str.rfind_dot k = 0 /\ 2 <= Str.len k.
Proof.
  simpl. intros H.
  repeat (destruct H as [H|H];
          [inversion H; subst; split; [reflexivity|cbv; discriminate]|]).
  contradiction.
Qed.

(** X25. A final component made of a non-empty stem and an extension of
    the mapping, in any letter case, gets the extension's category
    whatever the directory; the component that is the extension alone,
    such as [.png], gets none. *)
Theorem categorize_file_by_extension (p : Path) (stem e : string)
    (c : FileCategory) :
  stem <> "" ->
  dict_get get_extensions (Str.lower e) = Some c ->
  categorize_file (with_name p (stem ++ e)) = Some c
  /\ categorize_file (with_name p e) = None.
Proof.
  intros NE G.
  destruct (extension_shape _ _ (dict_get_In _ _ _ G)) as [R L].
  unfold Str.lower in R, L.
  rewrite StrFacts.rfind_dot_map in R by apply StrFacts.lower_ascii_dot.
  unfold Str.len in L. rewrite StrFacts.length_map in L.
  unfold categorize_file, suffix. rewrite !ClassifierFacts.name_with_name.
  unfold suffix_of_name. rewrite StrFacts.rfind_dot_app, R.
  cbn [Z.leb Z.compare Z.ltb andb]. rewrite Z.add_0_r.
  split; [|reflexivity].
  assert (P : 0 < Str.len stem).
  { unfold Str.len. destruct stem; [congruence|cbn [String.length]; lia]. }
  assert (Q : (Str.len stem <? Str.len (stem ++ e) - 1) = true).
  { apply Z.ltb_lt. unfold Str.len. rewrite StrFacts.length_app. lia. }
  rewrite Q. apply Z.ltb_lt in P. rewrite P. cbn [andb].
  unfold Str.slice_from, Str.len. rewrite Nat2Z.id, StrFacts.drop_app_length.
  exact G.
Qed.

Lemma categorize_file_by_extension_witness :
  categorize_file (with_name ["photos"; "old"] ("x" ++ ".JPG")) = Some GRAPHICS
  /\ categorize_file (with_name ["photos"; "old"] ".JPG") = None.
Proof.
  apply (categorize_file_by_extension ["photos"; "old"] "x" ".JPG" GRAPHICS).
  - discriminate.
  - reflexivity.
Defined.

End ExtensionFacts.

(* ================================================================== *)
(** ** Listings: the recent files and the [list] command *)

Module ListingFacts.
Import Models Database Api Samples.

Lemma filter_map_exists (l : list Row) :
  filter exists_ (List.map (_row_to_file_record) l)
  = List.map _row_to_file_record (filter row_file_exists l).
Proof.
  induction l as [|r l IH]; [reflexivity|].
  cbn [List.map filter _row_to_file_record exists_].
  destruct (row_file_exists r); cbn [List.map]; now rewrite IH.
Qed.

Section WithEngine.
Variable timestamp : datetime -> option Z.
Variable plan : list Row -> list Row.
Hypothesis plan_ok : order_by_modified_desc_ok plan.

Lemma get_recent_files_rows arg st :
  get_recent_files timestamp plan arg st
  = List.map _row_to_file_record
      (paginate (limit_criteria (default 10 arg)) (plan st)).
Proof.
  unfold get_recent_files, Database.search_files.
  cbn [limit_criteria modified_after modified_before bound].
  do 3 f_equal. apply StoreFacts.filter_all. intros r _. reflexivity.
Qed.

(** X26. The recent files of the HTTP interface. The answer is ordered by
    modification time, most recent first, and is never an error. With a
    positive limit it holds as many records as the limit allows and the
    table has. With a limit of 0 or a negative one it holds the whole
    table: 0 is taken for no limit. *)
Theorem get_recent_files_limits arg st :
  let n := default 10 arg in
  let files := get_recent_files timestamp plan arg st in
  StronglySorted (fun a b => modified_date b <= modified_date a) files
  /\ (forall rec, In rec files ->
        exists r, In r st /\ rec = _row_to_file_record r)
  /\ (0 < n ->
      List.length files = Nat.min (Z.to_nat n) (List.length st))
  /\ (n <= 0 -> Permutation (List.map _row_to_file_record st) files).
Proof.
  cbv zeta. rewrite get_recent_files_rows.
  destruct (plan_ok st) as [P S].
  split; [|split; [|split]].
  - apply (SearchFacts.strongly_sorted_map modified_desc).
    + unfold modified_desc, _row_to_file_record, fromtimestamp. simpl.
      intros; lia.
    + now apply SearchFacts.strongly_sorted_paginate.
  - intros rec H. apply in_map_iff in H as (r & <- & H).
    apply QueryFacts.in_paginate in H.
    exists r. split; [|reflexivity].
    now apply (Permutation_in r (Permutation_sym P)).
  - intros Pos. rewrite length_map. unfold paginate, limit_offset.
    cbn [limit_criteria limit offset].
    replace (default 10 arg =? 0) with false by (symmetry; apply Z.eqb_neq; lia).
    replace (default 10 arg <? 0) with false by (symmetry; apply Z.ltb_ge; lia).
    cbn [Z.ltb Z.compare Z.to_nat skipn].
    rewrite length_firstn. now rewrite <- (Permutation_length P).
  - intros Neg. apply Permutation_map. unfold paginate, limit_offset.
    cbn [limit_criteria limit offset]. cbn [Z.ltb Z.compare Z.to_nat skipn].
    destruct (default 10 arg =? 0) eqn:E; [exact P|].
    apply Z.eqb_neq in E.
    replace (default 10 arg <? 0) with true by (symmetry; apply Z.ltb_lt; lia).
    exact P.
Qed.

(** X27. The [list] command with [--exists-only] and a positive limit
    applies the limit first and the existence filter afterwards: what it
    shows are the rows flagged as existing among the first [limit] rows of
    the category, most recent first. So it shows at most [limit] records,
    and nothing at all when these first rows are all flagged as gone,
    whatever existing rows come after them. *)
Theorem list_exists_only_after_limit category l st :
  0 < l ->
  let rows :=
    plan (filter (fun r => match category with
                           | Some c => FileCategory_eqb (row_category r) c
                           | None => true
                           end) st) in
  let first := firstn (Z.to_nat l) rows in
  Cli.list_ timestamp plan category l true st
  = Some (List.map _row_to_file_record (filter row_file_exists first))
  /\ Z.of_nat (List.length (filter row_file_exists first)) <= l
  /\ ((forall r, In r first -> row_file_exists r = false) ->
      Cli.list_ timestamp plan category l true st = Some []).
Proof.
  intros Pos. cbv zeta.
  set (sel := fun r : Row => match category with
                             | Some c => FileCategory_eqb (row_category r) c
                             | None => true
                             end).
  assert (E : Cli.list_ timestamp plan category l true st
              = Some (List.map _row_to_file_record
                        (filter row_file_exists
                           (firstn (Z.to_nat l) (plan (filter sel st)))))).
  { unfold Cli.list_, Database.search_files.
    cbn [modified_after modified_before bound].
    rewrite filter_map_exists. do 3 f_equal.
    unfold paginate, limit_offset. cbn [limit offset].
    replace (l =? 0) with false by (symmetry; apply Z.eqb_neq; lia).
    replace (l <? 0) with false by (symmetry; apply Z.ltb_ge; lia).
    cbn [Z.ltb Z.compare Z.to_nat skipn]. do 2 f_equal.
    apply filter_ext. intros r. unfold where_clause, sel.
    cbn [query crit_category min_size max_size].
    now rewrite !andb_true_r. }
  split; [exact E|]. split.
  - pose proof (filter_length_le row_file_exists
                  (firstn (Z.to_nat l) (plan (filter sel st)))) as F.
    rewrite length_firstn in F. lia.
  - intros Gone. rewrite E. f_equal.
    rewrite UpsertFacts.filter_none; [reflexivity|exact Gone].
Qed.

End WithEngine.

Example recent_files_limit_zero :
  List.map id (get_recent_files posix plan_sorter (Some 0) three_rows)
  = ["id3"; "id1"; "id2"].
Proof. reflexivity. Qed.

Lemma get_recent_files_limits_witness :
  Permutation (List.map _row_to_file_record three_rows)
    (get_recent_files posix plan_sorter (Some 0) three_rows).
Proof.
  apply (get_recent_files_limits posix plan_sorter SearchFacts.plan_sorter_ok
           (Some 0) three_rows).
  cbn. lia.
Defined.

Lemma list_exists_only_after_limit_witness :
  Cli.list_ posix plan_sorter None 1 true newest_gone = Some [].
Proof.
  apply (list_exists_only_after_limit posix plan_sorter None 1 newest_gone).
  - lia.
  - vm_compute. intros r [<-|[]]. reflexivity.
Defined.

End ListingFacts.

(* ================================================================== *)
(** ** The classifier on every path *)

Module UnicodeFacts.
Import Models Unicode.
Local Open Scope list_scope.

Example lower_examples :
  (lower [0x130%N], lower [0x212A%N],
   lower (of_string "a" ++ [0x3A3%N])%list,
   lower ([0x3A3%N] ++ of_string "a")%list,
   upper [0xDF%N; 0x17F%N; 0xFB00%N])
  = ([0x69%N; 0x307%N], [0x6B%N],
     [0x61%N; 0x3C2%N], [0x3C3%N; 0x61%N],
     [0x53%N; 0x53%N; 0x53%N; 0x46%N; 0x46%N]).
Proof. vm_compute. reflexivity. Qed.

Lemma ustring_eqb_eq a b : ustring_eqb a b = true <-> a = b.
Proof.
  revert b. induction a as [|x a IH]; intros [|y b]; cbn; split;
    try reflexivity; try discriminate.
  - intros H. apply andb_prop in H as [H1 H2]. apply N.eqb_eq in H1.
    apply IH in H2. congruence.
  - intros [= -> ->]. rewrite N.eqb_refl. now apply IH.
Qed.

(** A property of the code points below 128 can be checked on each of
    them. *)
Lemma below_128 (P : N -> bool) :
  forallb P (List.map N.of_nat (seq 0 128)) = true ->
  forall c, (c < 128)%N -> P c = true.
Proof.
  intros H c L. rewrite forallb_forall in H. apply H.
  rewrite <- (N2Nat.id c). apply in_map, in_seq. lia.
Qed.

Lemma to_lower_full_ascii c :
  (c < 128)%N -> to_lower_full c = [lower_ascii c].
Proof.
  intros L. apply ustring_eqb_eq. revert c L.
  apply (below_128 (fun c => ustring_eqb (to_lower_full c) [lower_ascii c])).
  vm_compute. reflexivity.
Qed.

Lemma to_upper_full_ascii c :
  (c < 128)%N -> to_upper_full c = [upper_ascii c].
Proof.
  intros L. apply ustring_eqb_eq. revert c L.
  apply (below_128 (fun c => ustring_eqb (to_upper_full c) [upper_ascii c])).
  vm_compute. reflexivity.
Qed.

Lemma ascii_facts c :
  (c < 128)%N ->
  lower_ascii (upper_ascii c) = lower_ascii c
  /\ lower_ascii (lower_ascii c) = lower_ascii c
  /\ (lower_ascii c =? dot)%N = (c =? dot)%N
  /\ (upper_ascii c =? dot)%N = (c =? dot)%N
  /\ (lower_ascii c < 128)%N
  /\ (upper_ascii c < 128)%N.
Proof.
  intros L.
  pose proof (below_128
    (fun c => (lower_ascii (upper_ascii c) =? lower_ascii c)%N
              && (lower_ascii (lower_ascii c) =? lower_ascii c)%N
              && Bool.eqb (lower_ascii c =? dot)%N (c =? dot)%N
              && Bool.eqb (upper_ascii c =? dot)%N (c =? dot)%N
              && (lower_ascii c <? 128)%N
              && (upper_ascii c <? 128)%N) eq_refl c L) as H.
  cbv beta in H. rewrite !andb_true_iff in H.
  destruct H as (((((A & B) & C) & D) & E) & F).
  apply N.eqb_eq in A, B. apply Bool.eqb_prop in C, D.
  apply N.ltb_lt in E, F. repeat split; assumption.
Qed.

(** On a string of code points below 128 the two case mappings work
    code point by code point. *)
Lemma lower_from_ascii s :
  Forall (fun c => (c < 128)%N) s ->
  forall before, lower_from before s = List.map lower_ascii s.
Proof.
  induction 1 as [|c s L _ IH]; intros before; [reflexivity|].
  cbn [lower_from List.map].
  replace (c =? 0x3A3)%N with false by (symmetry; apply N.eqb_neq; lia).
  rewrite to_lower_full_ascii by exact L. cbn [app]. f_equal. apply IH.
Qed.

Lemma lower_ascii_string s :
  Forall (fun c => (c < 128)%N) s -> lower s = List.map lower_ascii s.
Proof. intros H. now apply lower_from_ascii. Qed.

Lemma upper_ascii_string s :
  Forall (fun c => (c < 128)%N) s -> upper s = List.map upper_ascii s.
Proof.
  unfold upper. induction 1 as [|c s L _ IH]; [reflexivity|].
  cbn [flat_map List.map]. rewrite to_upper_full_ascii by exact L.
  cbn [app]. now rewrite IH.
Qed.

Lemma rfind_dot_bounds_wide s : -1 <= rfind_dot s < len s.
Proof.
  unfold len. induction s as [|c s IH]; cbn [List.length rfind_dot].
  - lia.
  - destruct (0 <=? rfind_dot s) eqn:E.
    + apply Z.leb_le in E. lia.
    + destruct (c =? dot)%N; lia.
Qed.

Lemma rfind_dot_map_wide (g : N -> N) s :
  (forall c, In c s -> (g c =? dot)%N = (c =? dot)%N) ->
  rfind_dot (List.map g s) = rfind_dot s.
Proof.
  induction s as [|c s IH]; intros D; [reflexivity|].
  cbn [List.map rfind_dot].
  rewrite IH by (intros x Hx; apply D; now right).
  now rewrite (D c) by now left.
Qed.

Lemma rfind_dot_app_wide a b :
  rfind_dot (a ++ b)
  = if 0 <=? rfind_dot b then len a + rfind_dot b else rfind_dot a.
Proof.
  unfold len. induction a as [|c a IH].
  - cbn. destruct (0 <=? rfind_dot b) eqn:E; [reflexivity|].
    apply Z.leb_gt in E. pose proof (rfind_dot_bounds_wide b). lia.
  - cbn [app rfind_dot List.length]. rewrite IH.
    destruct (0 <=? rfind_dot b) eqn:E.
    + apply Z.leb_le in E.
      replace (0 <=? Z.of_nat (List.length a) + rfind_dot b) with true
        by (symmetry; apply Z.leb_le; lia).
      lia.
    + reflexivity.
Qed.

Lemma skipn_app_length {X} (a b : list X) : skipn (List.length a) (a ++ b) = b.
Proof. induction a as [|x a IH]; [reflexivity|exact IH]. Qed.

(** A name is its stem followed by its suffix. *)
Lemma stem_suffix n : (stem_of_name n ++ suffix_of_name n)%list = n.
Proof.
  unfold stem_of_name, suffix_of_name, len.
  pose proof (rfind_dot_bounds_wide n) as B. unfold len in B.
  destruct ((0 <? rfind_dot n)
            && (rfind_dot n <? Z.of_nat (List.length n) - 1)) eqn:E.
  - apply andb_prop in E as [E1 E2]. apply Z.ltb_lt in E1, E2.
    rewrite length_skipn.
    replace (Z.to_nat (Z.of_nat (List.length n)
                       - Z.of_nat (List.length n - Z.to_nat (rfind_dot n))))
      with (Z.to_nat (rfind_dot n)) by lia.
    apply firstn_skipn.
  - cbn [List.length]. rewrite Z.sub_0_r, Nat2Z.id, firstn_all.
    apply app_nil_r.
Qed.

(** Rewriting the suffix code point by code point, dots kept apart from
    the rest, rewrites the suffix and nothing else. *)
Lemma suffix_map_extension (g : N -> N) n :
  (forall c, In c (suffix_of_name n) -> (g c =? dot)%N = (c =? dot)%N) ->
  suffix_of_name (stem_of_name n ++ List.map g (suffix_of_name n))
  = List.map g (suffix_of_name n).
Proof.
  intros D.
  set (st := stem_of_name n) in *. set (sf := suffix_of_name n) in *.
  assert (Hn : (st ++ sf)%list = n) by apply stem_suffix.
  assert (Hr : rfind_dot (st ++ List.map g sf) = rfind_dot n).
  { rewrite <- Hn, !rfind_dot_app_wide, rfind_dot_map_wide by exact D. reflexivity. }
  assert (Hl : len (st ++ List.map g sf) = len n).
  { unfold len. rewrite <- Hn, !length_app, length_map. reflexivity. }
  unfold suffix_of_name at 1. rewrite Hr, Hl.
  destruct ((0 <? rfind_dot n) && (rfind_dot n <? len n - 1)) eqn:E.
  - assert (Hsf : sf = skipn (Z.to_nat (rfind_dot n)) n).
    { unfold sf, suffix_of_name. now rewrite E. }
    apply andb_prop in E as [E1 E2]. apply Z.ltb_lt in E1, E2.
    assert (Hst : List.length st = Z.to_nat (rfind_dot n)).
    { assert (L : (List.length st + List.length sf)%nat = List.length n)
        by (rewrite <- length_app; now rewrite Hn).
      rewrite Hsf in L at 1. rewrite length_skipn in L.
      unfold len in E2. lia. }
    rewrite <- Hst. apply skipn_app_length.
  - assert (Hsf : sf = []) by (unfold sf, suffix_of_name; now rewrite E).
    now rewrite Hsf.
Qed.

Lemma name_with_name_wide p n : name (with_name p n) = n.
Proof. unfold name, with_name. apply last_last. Qed.

Lemma dict_get_None_wide {V} (d : list (ustring * V)) k :
  (forall v, ~ In (k, v) d) -> dict_get d k = None.
Proof.
  induction d as [|[k' v'] d IH]; intros H; cbn; [reflexivity|].
  destruct (ustring_eqb k' k) eqn:E.
  - apply ustring_eqb_eq in E as ->. exfalso. apply (H v'). now left.
  - apply IH. intros v Hin. apply (H v). now right.
Qed.

(** The suffix of a path whose extension, all below 128, is upper-cased
    or lower-cased. *)
Lemma suffix_ascii_mapped (g : N -> N) p :
  Forall (fun c => (c < 128)%N) (suffix p) ->
  (forall c, (c < 128)%N -> (g c =? dot)%N = (c =? dot)%N) ->
  p <> [] ->
  suffix (with_name p (stem_of_name (name p) ++ List.map g (suffix p)))
  = List.map g (suffix p).
Proof.
  intros A D _. unfold suffix at 1. rewrite name_with_name_wide.
  apply suffix_map_extension. intros c Hc. apply D.
  rewrite Forall_forall in A. now apply A.
Qed.

Lemma forall_map_below (g : N -> N) s :
  (forall c, (c < 128)%N -> (g c < 128)%N) ->
  Forall (fun c => (c < 128)%N) s ->
  Forall (fun c => (c < 128)%N) (List.map g s).
Proof.
  intros G H. induction H as [|c s L _ IH]; cbn; constructor; auto.
Qed.

(** C4, for extensions written in ASCII. The classifier is a function of
    the path. For every path whose extension holds only code points below
    128, the path with its extension upper-cased, the path with its
    extension lower-cased and the path itself get the same category;
    [x.JPG] and [x.jpg] are both graphics; no extension occurs twice in
    the mapping; and a path with no extension or with an extension whose
    lower case is outside the mapping gets [None]. *)
Theorem categorize_file_ascii_case_insensitive :
  (forall p : Path,
      Forall (fun c => (c < 128)%N) (suffix p) ->
      categorize_file (map_extension upper p)
      = categorize_file (map_extension lower p)
      /\ categorize_file (map_extension lower p) = categorize_file p)
  /\ categorize_file [of_string "x.JPG"] = Some GRAPHICS
  /\ categorize_file [of_string "x.jpg"] = Some GRAPHICS
  /\ NoDup (List.map fst get_extensions)
  /\ (forall p : Path, suffix p = [] -> categorize_file p = None)
  /\ (forall p : Path,
        (forall c, ~ In (lower (suffix p), c) get_extensions) ->
        categorize_file p = None).
Proof.
  split; [|split; [|split; [|split; [|split]]]].
  - intros p A. destruct p as [|x p']; [split; reflexivity|].
    set (p := x :: p') in *.
    assert (NE : p <> []) by discriminate.
    assert (Facts : forall c, In c (suffix p) ->
              lower_ascii (upper_ascii c) = lower_ascii c
              /\ lower_ascii (lower_ascii c) = lower_ascii c).
    { intros c Hc. rewrite Forall_forall in A.
      destruct (ascii_facts c (A c Hc)) as (F1 & F2 & _). now split. }
    assert (U : categorize_file (map_extension upper p)
                = dict_get get_extensions (List.map lower_ascii (suffix p))).
    { unfold categorize_file, map_extension. cbn [p].
      fold p. rewrite (upper_ascii_string _ A).
      rewrite (suffix_ascii_mapped upper_ascii p A
                 (fun c L => proj1 (proj2 (proj2 (proj2 (ascii_facts c L)))))
                 NE).
      rewrite lower_ascii_string
        by (apply forall_map_below; [|exact A];
            intros c L; apply (ascii_facts c L)).
      rewrite map_map. f_equal. apply map_ext_in.
      intros c Hc. apply (Facts c Hc). }
    assert (Lo : categorize_file (map_extension lower p)
                 = dict_get get_extensions (List.map lower_ascii (suffix p))).
    { unfold categorize_file, map_extension. cbn [p].
      fold p. rewrite (lower_ascii_string _ A).
      rewrite (suffix_ascii_mapped lower_ascii p A
                 (fun c L => proj1 (proj2 (proj2 (ascii_facts c L)))) NE).
      rewrite lower_ascii_string
        by (apply forall_map_below; [|exact A];
            intros c L; apply (ascii_facts c L)).
      rewrite map_map. f_equal. apply map_ext_in.
      intros c Hc. apply (Facts c Hc). }
    split; [congruence|]. rewrite Lo. unfold categorize_file.
    now rewrite (lower_ascii_string _ A).
  - vm_compute. reflexivity.
  - vm_compute. reflexivity.
  - vm_compute. repeat constructor; cbn; intuition discriminate.
  - intros p H. unfold categorize_file. now rewrite H.
  - intros p H. unfold categorize_file. now apply dict_get_None_wide.
Qed.

(** Not so beyond ASCII. The extension of [x.ſvg] begins with U+017F,
    whose upper case is [S] and which is its own lower case: with its
    extension upper-cased the path is [x.SVG], a vector file, and with its
    extension lower-cased it is itself and gets no category. *)
Lemma long_s_counterexample :
  let p := [ [0x78; 0x2E; 0x17F; 0x76; 0x67]%N ] in
  map_extension upper p = [of_string "x.SVG"]
  /\ map_extension lower p = p
  /\ categorize_file (map_extension upper p) = Some VECTOR
  /\ categorize_file (map_extension lower p) = None.
Proof. vm_compute. repeat split. Qed.

Lemma categorize_file_ascii_case_insensitive_witness :
  categorize_file (map_extension upper [of_string "dir"; of_string "x.Jpg"])
  = categorize_file (map_extension lower [of_string "dir"; of_string "x.Jpg"])
  /\ categorize_file [of_string "README"] = None.
Proof.
  destruct categorize_file_ascii_case_insensitive
    as (Hcase & _ & _ & _ & Hnoext & _).
  split.
  - assert (A : Forall (fun c => (c < 128)%N)
                  (suffix [of_string "dir"; of_string "x.Jpg"]))
      by (vm_compute; repeat constructor).
    exact (proj1 (Hcase [of_string "dir"; of_string "x.Jpg"] A)).
  - exact (Hnoext [of_string "README"] eq_refl).
Defined.

(** *** The classifier over 8-bit strings is the classifier *)

Lemma of_string_cons c s : of_string (String c s) = N_of_ascii c :: of_string s.
Proof. reflexivity. Qed.

Lemma length_of_string s : List.length (of_string s) = String.length s.
Proof. induction s as [|c s IH]; cbn; [reflexivity|now rewrite <- IH]. Qed.

(** Every 8-bit character is one of the 256. *)
Lemma all_ascii (P : ascii -> bool) :
  forallb P (List.map ascii_of_nat (seq 0 256)) = true -> forall c, P c = true.
Proof.
  intros H c. rewrite forallb_forall in H. apply H.
  rewrite <- (ascii_nat_embedding c). apply in_map, in_seq.
  pose proof (nat_ascii_bounded c). lia.
Qed.

Lemma dot_of_ascii c : (N_of_ascii c =? dot)%N = Ascii.eqb c ".".
Proof.
  apply Bool.eqb_prop. revert c.
  apply (all_ascii (fun c => Bool.eqb (N_of_ascii c =? dot)%N (Ascii.eqb c "."))).
  vm_compute. reflexivity.
Qed.

Lemma rfind_dot_of_string n : rfind_dot (of_string n) = Str.rfind_dot n.
Proof.
  induction n as [|c n IH]; [reflexivity|].
  rewrite of_string_cons. cbn [rfind_dot Str.rfind_dot].
  now rewrite IH, dot_of_ascii.
Qed.

Lemma skipn_of_string k s : skipn k (of_string s) = of_string (Str.drop k s).
Proof.
  revert s. induction k as [|k IH]; intros [|c s]; try reflexivity.
  rewrite of_string_cons. cbn [skipn Str.drop]. apply IH.
Qed.

Lemma suffix_of_string n :
  suffix_of_name (of_string n) = of_string (Models.suffix_of_name n).
Proof.
  unfold suffix_of_name, Models.suffix_of_name, len, Str.len, Str.slice_from.
  rewrite rfind_dot_of_string, length_of_string.
  destruct ((0 <? Str.rfind_dot n)
            && (Str.rfind_dot n <? Z.of_nat (String.length n) - 1));
    [apply skipn_of_string|reflexivity].
Qed.

Lemma name_of_strings (p : Models.Path) :
  name (List.map of_string p) = of_string (Models.name p).
Proof.
  unfold name, Models.name. induction p as [|x p IH]; [reflexivity|].
  destruct p as [|y p]; [reflexivity|]. exact IH.
Qed.

(** The lower case of an 8-bit character is one code point, which is the
    ASCII lower case of the character when that is below 128 and is
    outside ASCII otherwise. *)
Lemma to_lower_full_8bit c :
  exists x, to_lower_full (N_of_ascii c) = [x]
            /\ alike x (N_of_ascii (Str.lower_ascii c))
            /\ (N_of_ascii c =? 0x3A3)%N = false.
Proof.
  pose proof (all_ascii
    (fun c =>
       match to_lower_full (N_of_ascii c) with
       | [x] => ((x =? N_of_ascii (Str.lower_ascii c))%N
                 || ((128 <=? x)%N
                     && (128 <=? N_of_ascii (Str.lower_ascii c))%N))
                && negb (N_of_ascii c =? 0x3A3)%N
       | _ => false
       end) eq_refl c) as H.
  cbv beta in H.
  destruct (to_lower_full (N_of_ascii c)) as [|x [|y l]]; try discriminate.
  exists x. apply andb_prop in H as [H S]. apply negb_true_iff in S.
  split; [reflexivity|]. split; [|exact S].
  apply orb_prop in H as [H|H].
  - left. now apply N.eqb_eq.
  - right. apply andb_prop in H as [H1 H2]. split; now apply N.leb_le.
Qed.

Lemma lower_of_string s : forall before,
  Forall2 alike (lower_from before (of_string s)) (of_string (Str.lower s)).
Proof.
  induction s as [|c s IH]; intros before; [constructor|].
  unfold Str.lower. cbn [Str.map]. rewrite !of_string_cons. cbn [lower_from].
  destruct (to_lower_full_8bit c) as (x & -> & A & ->).
  cbn [app]. constructor; [exact A|apply IH].
Qed.

(** A string of ASCII code points is equal to both of two strings that
    are alike, or to neither. *)
Lemma ustring_eqb_alike k a b :
  Forall (fun c => (c < 128)%N) k -> Forall2 alike a b ->
  ustring_eqb k a = ustring_eqb k b.
Proof.
  intros K H. revert k K. induction H as [|x y a b R _ IH]; intros k K.
  - reflexivity.
  - destruct k as [|c k]; [reflexivity|].
    inversion K as [|? ? Lc K']; subst. cbn [ustring_eqb].
    rewrite (IH k K'). f_equal.
    destruct R as [->|[Hx Hy]]; [reflexivity|].
    transitivity false; [|symmetry]; apply N.eqb_neq; lia.
Qed.

Lemma ustring_eqb_of_string a b :
  ustring_eqb (of_string a) (of_string b) = String.eqb a b.
Proof.
  revert b. induction a as [|x a IH]; intros [|y b]; try reflexivity.
  rewrite !of_string_cons. cbn [ustring_eqb String.eqb]. rewrite IH.
  destruct (Ascii.eqb_spec x y) as [->|N].
  - now rewrite N.eqb_refl.
  - replace (N_of_ascii x =? N_of_ascii y)%N with false; [reflexivity|].
    symmetry. apply N.eqb_neq. intros E. apply N.
    rewrite <- (ascii_N_embedding x), <- (ascii_N_embedding y). now rewrite E.
Qed.

Lemma dict_get_alike {V} (d : list (string * V)) u s :
  Forall (fun kv => Forall (fun c => (c < 128)%N) (of_string (fst kv))) d ->
  Forall2 alike u (of_string s) ->
  dict_get (List.map (fun kv => (of_string (fst kv), snd kv)) d) u
  = Models.dict_get d s.
Proof.
  intros K A. induction K as [|[k v] d Hk _ IH]; [reflexivity|].
  cbn [List.map dict_get Models.dict_get fst snd] in *.
  rewrite (ustring_eqb_alike _ _ _ Hk A), ustring_eqb_of_string.
  now destruct (String.eqb k s).
Qed.

(** On every path of 8-bit characters, the classifier with the case
    mapping of [str.lower] and the classifier with the ASCII case mapping
    give the same answer: the keys of the mapping are ASCII, and the lower
    case of a character outside ASCII is outside ASCII. *)
Lemma categorize_file_8bit (p : Models.Path) :
  categorize_file (List.map of_string p) = Models.categorize_file p.
Proof.
  unfold categorize_file, Models.categorize_file, suffix, Models.suffix.
  rewrite name_of_strings, suffix_of_string. unfold get_extensions, lower.
  apply dict_get_alike; [|apply lower_of_string].
  vm_compute. repeat constructor.
Qed.

(** *** Only extensions written in ASCII are classified *)

Lemma special_image_in c table image :
  special_image c table = Some image -> In (c, image) table.
Proof.
  induction table as [|[c' l] table IH]; cbn; [discriminate|].
  destruct (c' =? c)%N eqn:E.
  - apply N.eqb_eq in E as ->. intros [= ->]. now left.
  - intros H. right. now apply IH.
Qed.

Lemma simple_image_in c runs x :
  simple_image c runs = Some x ->
  exists first last step image,
    In (first, last, step, image) runs
    /\ (first <= c <= last)%N /\ x = (image + (c - first))%N.
Proof.
  induction runs as [|[[[first last] step] image] runs IH]; cbn;
    [discriminate|].
  destruct ((first <=? c)%N && (c <=? last)%N
            && ((c - first) mod step =? 0)%N) eqn:E.
  - intros [= <-]. exists first, last, step, image.
    apply andb_prop in E as [E _]. apply andb_prop in E as [E1 E2].
    apply N.leb_le in E1, E2. split; [now left|]. split; [lia|reflexivity].
  - intros H. destruct (IH H) as (f & l & st & im & Hin & B & ->).
    exists f, l, st, im. split; [now right|]. now split.
Qed.

(** The lower case of a code point outside ASCII holds a code point that
    no key holds. *)
Lemma to_lower_full_foreign c :
  (128 <= c)%N -> existsb foreign (to_lower_full c) = true.
Proof.
  intros H. unfold to_lower_full.
  destruct (special_image c to_lower_special) as [image|] eqn:S.
  - apply special_image_in in S.
    assert (T : forallb (fun e => existsb foreign (snd e)) to_lower_special
                = true) by (vm_compute; reflexivity).
    rewrite forallb_forall in T. apply (T _ S).
  - destruct (simple_image c to_lower_runs) as [x|] eqn:R.
    + apply simple_image_in in R
        as (first & last & step & image & Hin & B & ->).
      assert (T : forallb
                    (fun r => match r with
                              | (first, last, _, image) =>
                                  (last <? 128)%N || (128 <=? image)%N
                                  || ((first =? last)%N && foreign image)
                              end) to_lower_runs = true)
        by (vm_compute; reflexivity).
      rewrite forallb_forall in T. specialize (T _ Hin). cbv beta iota in T.
      cbn [existsb]. rewrite orb_false_r.
      apply orb_prop in T as [T|T]; [apply orb_prop in T as [T|T]|].
      * apply N.ltb_lt in T. lia.
      * apply N.leb_le in T. unfold foreign.
        replace (128 <=? image + (c - first))%N with true
          by (symmetry; apply N.leb_le; lia).
        reflexivity.
      * apply andb_prop in T as [T1 T2]. apply N.eqb_eq in T1.
        replace (c - first)%N with 0%N by lia. now rewrite N.add_0_r.
    + cbn [existsb]. unfold foreign.
      replace (128 <=? c)%N with true by (symmetry; now apply N.leb_le).
      reflexivity.
Qed.

Lemma lower_from_foreign s : forall before,
  existsb (fun x => 128 <=? x)%N s = true ->
  existsb foreign (lower_from before s) = true.
Proof.
  induction s as [|c s IH]; intros before; cbn [existsb lower_from];
    [discriminate|].
  rewrite existsb_app. intros H. apply orb_prop in H as [H|H].
  - apply N.leb_le in H. apply orb_true_intro. left.
    destruct (c =? 0x3A3)%N; [|now apply to_lower_full_foreign].
    now destruct (final_sigma before s).
  - apply orb_true_intro. right. now apply IH.
Qed.

Lemma dict_get_foreign k :
  existsb foreign k = true -> dict_get get_extensions k = None.
Proof.
  intros H. apply dict_get_None_wide. intros v Hin.
  assert (T : forallb (fun kv => negb (existsb foreign (fst kv)))
                get_extensions = true) by (vm_compute; reflexivity).
  rewrite forallb_forall in T. specialize (T _ Hin). cbn [fst] in T.
  rewrite H in T. discriminate.
Qed.

Lemma forall_or_exists s :
  Forall (fun x => (x < 128)%N) s
  \/ existsb (fun x => 128 <=? x)%N s = true.
Proof.
  induction s as [|x s [IH|IH]].
  - left. constructor.
  - destruct (128 <=? x)%N eqn:E.
    + right. cbn. now rewrite E.
    + left. constructor; [now apply N.leb_gt|exact IH].
  - right. cbn. rewrite IH. apply orb_true_r.
Qed.

(** X28. Only an extension written in ASCII is classified. A path gets a
    category exactly when every code point of its extension is below 128
    and the extension, its letters [A] to [Z] lower-cased, is a key of the
    mapping; the category is the one of that key. A letter from outside
    ASCII that looks like an ASCII one, such as the Kelvin sign, whose
    lower case is [k], never makes a match. *)
Theorem categorize_file_needs_ascii (p : Path) (c : FileCategory) :
  categorize_file p = Some c
  <-> Forall (fun x => (x < 128)%N) (suffix p)
      /\ dict_get get_extensions (List.map lower_ascii (suffix p)) = Some c.
Proof.
  unfold categorize_file. split.
  - intros H. destruct (forall_or_exists (suffix p)) as [A|B].
    + split; [exact A|]. now rewrite <- (lower_ascii_string _ A).
    + unfold lower in H.
      rewrite (dict_get_foreign _ (lower_from_foreign _ [] B)) in H.
      discriminate.
  - intros [A H]. now rewrite (lower_ascii_string _ A).
Qed.

Example kelvin_sign_not_classified :
  (lower [0x2E; 0x212A]%N, categorize_file [ [0x78; 0x2E; 0x41; 0x131]%N ],
   categorize_file [ [0x78; 0x2E; 0x41; 0x49]%N ])
  = ([0x2E; 0x6B]%N, None, Some VECTOR).
Proof. vm_compute. reflexivity. Qed.

End UnicodeFacts.
